(** * Keithley 2470 driver: a shallow embedding of [keithley/Keithley2470.py]

    The development follows the Python module top to bottom:

    - Python numbers (ints and IEEE doubles), values, exceptions and the
      arithmetic the driver performs on voltages;
    - the SCPI messages the driver formats and the answers it parses;
    - a state-and-exception monad with explicit loop budgets, over the
      instance attributes of one driver object and the process-level state
      the module touches ([atexit], [time.sleep]);
    - the methods of [Keithley2470] and of [Keithley2470SafeForLGADs];
    - an instrument that honours what is written to it;
    - the interleaving semantics of [write], [read] and [query] when
      several threads call them;
    - the properties.

    Numbers.  A Python [float] is an IEEE 754 binary64 value, with its
    rounding, signed zeros, infinities and NaN; a Python [int] is an
    unbounded integer.  The operators follow CPython: mixed arithmetic
    converts the int operand and raises [OverflowError] when it has no
    double, comparisons between a float and an int are exact, [**] raises
    [OverflowError] when the power overflows. *)

From Stdlib Require Import ZArith QArith Qabs Lqa Lia.
From Stdlib Require Import Floats.SpecFloat.
From Stdlib Require Import String Ascii List Bool.
From stdpp Require Import base list.
Import ListNotations.

Local Open Scope string_scope.
Local Open Scope Z_scope.
Local Open Scope list_scope.

(** ** Exceptions *)

Inductive exn : Type :=
| TypeError
| ValueError
| RuntimeError
| ZeroDivisionError
| AttributeError
| OverflowError
| VisaIOError.        (* pyvisa: nothing arrived before the timeout *)

(** A pure computation that may raise. *)
Definition ebind {A B : Type} (x : exn + A) (k : A -> exn + B) : exn + B :=
  match x with inl e => inl e | inr a => k a end.

(** ** Doubles *)

Definition float : Type := spec_float.

Definition prec : Z := 53.
Definition emax : Z := 1024.

Definition fadd : float -> float -> float := SFadd prec emax.
Definition fsub : float -> float -> float := SFsub prec emax.
Definition fmul : float -> float -> float := SFmul prec emax.
Definition fdiv : float -> float -> float := SFdiv prec emax.
Definition fsqrt : float -> float := SFsqrt prec emax.

(** [a < b], [a <= b], [a > b], [a == b]: all false on NaN. *)
Definition flt (a b : float) : bool := SFltb a b.
Definition fle (a b : float) : bool := SFleb a b.
Definition fgt (a b : float) : bool := SFltb b a.
Definition feq (a b : float) : bool := SFeqb a b.

Definition is_nan (f : float) : bool :=
  match f with S754_nan => true | _ => false end.

Definition is_inf (f : float) : bool :=
  match f with S754_infinity _ => true | _ => false end.

Definition is_zero (f : float) : bool :=
  match f with S754_zero _ => true | _ => false end.

(** The double nearest to an integer (ties to even); an infinity when the
    integer is beyond the doubles. *)
Definition float_of_Z (z : Z) : float := binary_normalize prec emax z 0 false.

(** The double nearest to [n/d], for integers of any size. *)
Definition ratio (n : Z) (d : positive) : float :=
  match n with
  | Z0 => S754_zero false
  | Zpos p => fdiv (S754_finite false p 0) (S754_finite false d 0)
  | Zneg p => fdiv (S754_finite true p 0) (S754_finite false d 0)
  end.

(** The decimal literal [m]e[e]: [dec 25 (-1)] is [2.5]. *)
Definition dec (m e : Z) : float :=
  if 0 <=? e then float_of_Z (m * 10 ^ e) else ratio m (Z.to_pos (10 ^ (- e))).

Definition nan : float := S754_nan.
Definition inf : float := S754_infinity false.
Definition zero : float := S754_zero false.
Definition one : float := float_of_Z 1.
Definition two : float := float_of_Z 2.
Definition half : float := dec 5 (-1).

(** The real number a finite double stands for (0 for the others). *)
Definition float_to_Q (f : float) : Q :=
  match f with
  | S754_finite s m e => (inject_Z (cond_Zopp s (Zpos m)) * Qpower 2 e)%Q
  | _ => 0%Q
  end.

(** A double, as opposed to an arbitrary triple of sign, mantissa and
    exponent. *)
Definition is_double (f : float) : bool := valid_binary prec emax f.

(** ** Python numbers *)

Inductive num : Type :=
| NInt (z : Z)
| NFloat (f : float).

(** The int operand of a float operation: [OverflowError] ("int too large
    to convert to float") beyond the doubles. *)
Definition float_of_int (z : Z) : exn + float :=
  let f := float_of_Z z in
  if is_inf f then inl OverflowError else inr f.

Definition to_float (n : num) : exn + float :=
  match n with
  | NInt z => float_of_int z
  | NFloat f => inr f
  end.

(** What the digits of a number written in a message denote for who parses
    them: no error, an infinity beyond the doubles. *)
Definition float_of_literal (n : num) : float :=
  match n with
  | NInt z => float_of_Z z
  | NFloat f => f
  end.

(** A float against an int, exactly. *)
Definition compare_float_Z (f : float) (z : Z) : option comparison :=
  match f with
  | S754_nan => None
  | S754_infinity s => Some (if s then Lt else Gt)
  | S754_zero _ => Some (0 ?= z)
  | S754_finite s m e =>
      Some (if 0 <=? e then cond_Zopp s (Zpos m) * 2 ^ e ?= z
            else cond_Zopp s (Zpos m) ?= z * 2 ^ (- e))
  end.

(** [a > b] for a float [a]. *)
Definition gt_num (a : float) (b : num) : bool :=
  match b with
  | NFloat f => fgt a f
  | NInt z => match compare_float_Z a z with Some Gt => true | _ => false end
  end.

(** [a + b] and [a - b] for a float [a]. *)
Definition add_num (a : float) (b : num) : exn + float :=
  ebind (to_float b) (fun b' => inr (fadd a b')).

Definition sub_num (a : float) (b : num) : exn + float :=
  ebind (to_float b) (fun b' => inr (fsub a b')).

(** [a / b]: true division, also of two ints, which is correctly rounded
    and raises [OverflowError] when the quotient is beyond the doubles. *)
Definition div_num (a b : num) : exn + float :=
  match a, b with
  | NInt x, NInt y =>
      match y with
      | Z0 => inl ZeroDivisionError
      | Zpos d =>
          let q := ratio x d in
          if is_inf q then inl OverflowError else inr q
      | Zneg d =>
          let q := match x with
                   | Z0 => S754_zero true
                   | _ => ratio (- x) d
                   end in
          if is_inf q then inl OverflowError else inr q
      end
  | _, _ =>
      ebind (to_float a) (fun a' =>
      ebind (to_float b) (fun b' =>
      if is_zero b' then inl ZeroDivisionError else inr (fdiv a' b')))
  end.

(** [n > 0]. *)
Definition num_positive (n : num) : bool :=
  match n with
  | NInt z => 0 <? z
  | NFloat f => fgt f zero
  end.

(** ** What the platform provides

    Four things the driver relies on are fixed neither by the source nor
    by the language definition: the C library's [pow], which CPython calls
    for [**] on floats; the case mappings of [str] outside ASCII; the
    texts [float()] accepts; and the longest int [str()] agrees to print
    ([sys.get_int_max_str_digits()], 0 for no limit). *)

Class Platform : Type := {
  c_pow : float -> float -> float;
  unicode_upper : string -> string;
  unicode_lower : string -> string;
  float_of_str : string -> option float;
  int_max_str_digits : Z
}.

(** Whether [str(z)] succeeds, as the f-strings of the driver need it to.
    CPython refuses, with [ValueError], an int of more decimal digits
    than the limit; the limit cannot be set below 640, and 0 has one
    digit. *)
Definition int_str_ok `{Platform} (z : Z) : bool :=
  match z with
  | Z0 => true
  | _ => (int_max_str_digits <=? 0)
         || (Z.abs z <? 10 ^ Z.max 640 int_max_str_digits)
  end.

(** Whether a number can be formatted into a message. *)
Definition num_str_ok `{Platform} (n : num) : bool :=
  match n with
  | NInt z => int_str_ok z
  | NFloat _ => true
  end.

Section Power.
Context `{Platform}.

(** [x ** 2] on a float: CPython returns NaN, infinity and zero without
    calling [pow], drops the sign of the base for the even exponent, and
    turns an infinite result into [OverflowError]; a result that
    underflows is returned as it is.  [pow] of a positive number is not
    negative: the result is taken without its sign. *)
Definition pow2 (x : float) : exn + float :=
  match x with
  | S754_nan => inr nan
  | S754_infinity _ => inr inf
  | S754_zero _ => inr zero
  | S754_finite _ m e =>
      let a := S754_finite false m e in
      if feq a one then inr one
      else let r := SFabs (c_pow a two) in
           if is_inf r then inl OverflowError else inr r
  end.

(** [y ** .5] on a float.  A negative base would give a complex number,
    which neither the comparison nor the type check of the driver accepts;
    the square of a float is never negative. *)
Definition pow_half (y : float) : exn + float :=
  match y with
  | S754_nan => inr nan
  | S754_infinity false => inr inf
  | S754_zero _ => inr zero
  | S754_finite false m e =>
      if feq y one then inr one
      else let r := c_pow y half in
           if is_inf r then inl OverflowError else inr r
  | _ => inl TypeError
  end.

(** [((x) ** 2) ** .5], the driver's way of writing an absolute value. *)
Definition sq_root_of_square (x : float) : exn + float :=
  ebind (pow2 x) pow_half.

End Power.

(** A platform to compute with: [pow] correctly rounded for the two
    exponents the driver uses, identity case mappings outside ASCII, a
    [float()] that knows the special values, and CPython's default limit
    on the digits of an int. *)
Definition reference_platform : Platform := {|
  c_pow x w := if feq w two then fmul x x
               else if feq w half then fsqrt x else nan;
  unicode_upper s := s;
  unicode_lower s := s;
  float_of_str s :=
    if String.eqb s "nan" then Some nan
    else if String.eqb s "inf" then Some inf
    else if String.eqb s "-inf" then Some (S754_infinity true)
    else None;
  int_max_str_digits := 4300
|}.

(** ** Python values *)

Inductive pyval : Type :=
| PyInt (z : Z)
| PyFloat (x : float)
| PyStr (s : string)
| PyNone.

(** [isinstance(v, float) or isinstance(v, int)], with the number. *)
Definition as_number (v : pyval) : option num :=
  match v with
  | PyInt z => Some (NInt z)
  | PyFloat x => Some (NFloat x)
  | _ => None
  end.

(** ** Text *)

(** [str.upper] and [str.lower] on ASCII text. *)
Definition upper_ascii (c : ascii) : ascii :=
  let n := nat_of_ascii c in
  if (97 <=? n)%nat && (n <=? 122)%nat then ascii_of_nat (n - 32) else c.

Definition lower_ascii (c : ascii) : ascii :=
  let n := nat_of_ascii c in
  if (65 <=? n)%nat && (n <=? 90)%nat then ascii_of_nat (n + 32) else c.

Fixpoint str_map (f : ascii -> ascii) (s : string) : string :=
  match s with
  | EmptyString => EmptyString
  | String c s' => String (f c) (str_map f s')
  end.

Definition upper : string -> string := str_map upper_ascii.
Definition lower : string -> string := str_map lower_ascii.

(** A text (in UTF-8) all of whose characters are ASCII. *)
Fixpoint is_ascii (s : string) : bool :=
  match s with
  | EmptyString => true
  | String c s' => (nat_of_ascii c <? 128)%nat && is_ascii s'
  end.

(** [needle in hay] on strings. *)
Fixpoint contains (needle hay : string) : bool :=
  if String.prefix needle hay then true
  else match hay with
       | EmptyString => false
       | String _ hay' => contains needle hay'
       end.

Section Text.
Context `{Platform}.

(** [s.upper()] and [s.lower()]: on ASCII text the letters change case
    one by one; other text is mapped by the Unicode tables of the
    interpreter. *)
Definition str_upper (s : string) : string :=
  if is_ascii s then upper s else unicode_upper s.

Definition str_lower (s : string) : string :=
  if is_ascii s then lower s else unicode_lower s.

(** [v.upper()] / [v.lower()]: only strings have the method. *)
Definition py_upper (v : pyval) : exn + string :=
  match v with PyStr s => inr (str_upper s) | _ => inl AttributeError end.

Definition py_lower (v : pyval) : exn + string :=
  match v with PyStr s => inr (str_lower s) | _ => inl AttributeError end.

(** Whether [str(v)] succeeds: only a long int is refused. *)
Definition pyval_str_ok (v : pyval) : bool :=
  match v with
  | PyInt z => int_str_ok z
  | _ => true
  end.

(** [polarity * (voltage ** 2) ** .5].  [**] raises [TypeError] on
    strings and [None].  The square of an int is an int, which [** .5]
    converts to a float; the product converts the polarity. *)
Definition coerce_polarity (polarity : Z) (voltage : pyval) : exn + float :=
  match voltage with
  | PyInt z =>
      ebind (float_of_int (z * z)) (fun y =>
      ebind (pow_half y) (fun r =>
      ebind (float_of_int polarity) (fun p => inr (fmul p r))))
  | PyFloat x =>
      ebind (sq_root_of_square x) (fun r =>
      ebind (float_of_int polarity) (fun p => inr (fmul p r)))
  | _ => inl TypeError
  end.

End Text.

(** ** The wire: SCPI messages and answers

    The driver formats its commands with f-strings and parses the answers
    with [int] and [float].  A message is represented by its command and
    the values formatted into it, an answer by what its text denotes. *)

Inductive scpi : Type :=
| IDN_q                                  (* "*IDN?" *)
| OUTPUT (state : string)                (* ":OUTPUT {state.upper()}" *)
| OUTPUT_STATE_q                         (* ":OUTPUT:STATE?" *)
| SOUR_VOLT_q                            (* ":SOUR:VOLT?" *)
| SOURCE_VOLT_LEV (volts : num)          (* ":SOURCE:VOLT:LEV {volts}" *)
| SOURCE_VOLT_ILIM (amperes : num)       (* ":SOURCE:VOLT:ILIM {amperes}" *)
| SOUR_VOLT_ILIM_q                       (* ":SOUR:VOLT:ILIM?" *)
| SYSTEM_BEEPER (frequency time : float) (* ":SYSTEM:BEEPER {frequency}, {time}" *)
| MEASURE_VOLT_q                         (* ":MEASURE:VOLT?" *)
| MEASURE_CURRENT_q.                     (* ":MEASURE:CURRENT?" *)

Inductive answer : Type :=
| AInt (z : Z)        (* the text is an integer literal *)
| ADec (x : float)    (* a decimal literal that is no integer literal, read as [x] *)
| AText (s : string). (* any other text *)

(** [int(answer)]: only integer literals parse. *)
Definition py_int (a : answer) : option Z :=
  match a with AInt z => Some z | _ => None end.

(** [float(answer)]: number literals parse, to the nearest double and
    without error; of the other texts, those [float()] knows. *)
Definition py_float_of_answer `{Platform} (a : answer) : option float :=
  match a with
  | AInt z => Some (float_of_Z z)
  | ADec x => Some x
  | AText s => float_of_str s
  end.

(** [needle in str(answer)]: a numeric literal holds no letters. *)
Definition answer_contains (needle : string) (a : answer) : bool :=
  match a with
  | AText s => contains needle s
  | _ => false
  end.

(** One call on the pyvisa resource, as a recording transport sees it. *)
Inductive io : Type :=
| Wr (m : scpi)     (* _resource.write(m) *)
| Rd                (* _resource.read() *)
| Qy (m : scpi).    (* _resource.query(m) *)

(** The pyvisa resource the driver talks to.  A read, alone or as the
    second half of a query, may fail: it raises when nothing arrives. *)
Class Resource (R : Type) : Type := {
  resource_write : scpi -> R -> R;
  resource_read : R -> (exn + answer) * R;
  resource_query : scpi -> R -> (exn + answer) * R
}.

(** ** Driver state *)

Inductive class : Type := Base | SafeForLGADs.

(** The closure [_atexit] that [Keithley2470.__init__] hands to
    [atexit.register]; it captures [self]. *)
Inductive exitfunc : Type := _atexit.

Record state (R : Type) : Type := State {
  klass : class;
  (* instance attributes *)
  _resource : R;
  _is_writing : bool;
  _is_reading : bool;
  _idn : answer;
  _polarity : Z;
  _slew_rate : num;
  _volt_step : num;
  (* process level *)
  atexit_registry : list exitfunc;   (* newest first *)
  slept : list float                 (* arguments of time.sleep, newest first *)
}.

Arguments State {R}.
Arguments klass {R}.
Arguments _resource {R}.
Arguments _is_writing {R}.
Arguments _is_reading {R}.
Arguments _idn {R}.
Arguments _polarity {R}.
Arguments _slew_rate {R}.
Arguments _volt_step {R}.
Arguments atexit_registry {R}.
Arguments slept {R}.

Section Setters.
Context {R : Type}.

Definition set_resource (r : R) (s : state R) : state R :=
  State (klass s) r (_is_writing s) (_is_reading s) (_idn s) (_polarity s)
        (_slew_rate s) (_volt_step s) (atexit_registry s) (slept s).

Definition set_is_writing (b : bool) (s : state R) : state R :=
  State (klass s) (_resource s) b (_is_reading s) (_idn s) (_polarity s)
        (_slew_rate s) (_volt_step s) (atexit_registry s) (slept s).

Definition set_is_reading (b : bool) (s : state R) : state R :=
  State (klass s) (_resource s) (_is_writing s) b (_idn s) (_polarity s)
        (_slew_rate s) (_volt_step s) (atexit_registry s) (slept s).

Definition set_idn (a : answer) (s : state R) : state R :=
  State (klass s) (_resource s) (_is_writing s) (_is_reading s) a (_polarity s)
        (_slew_rate s) (_volt_step s) (atexit_registry s) (slept s).

Definition set_ramp (p : Z) (slew step : num) (s : state R) : state R :=
  State (klass s) (_resource s) (_is_writing s) (_is_reading s) (_idn s) p
        slew step (atexit_registry s) (slept s).

Definition atexit_register (f : exitfunc) (s : state R) : state R :=
  State (klass s) (_resource s) (_is_writing s) (_is_reading s) (_idn s)
        (_polarity s) (_slew_rate s) (_volt_step s) (f :: atexit_registry s)
        (slept s).

Definition record_sleep (t : float) (s : state R) : state R :=
  State (klass s) (_resource s) (_is_writing s) (_is_reading s) (_idn s)
        (_polarity s) (_slew_rate s) (_volt_step s) (atexit_registry s)
        (t :: slept s).
End Setters.
(** ** The monad: state, exceptions, and loops that may not return *)

Inductive result (St A : Type) : Type :=
| Return (a : A) (s : St)      (* the call returned [a] *)
| Raise (e : exn) (s : St)     (* the call raised [e] *)
| Hang (s : St).               (* a loop used up its budget of iterations *)

Arguments Return {St A}.
Arguments Raise {St A}.
Arguments Hang {St A}.

Definition M (St A : Type) : Type := St -> result St A.

Definition ret {St A} (a : A) : M St A := fun s => Return a s.

Definition raise {St A} (e : exn) : M St A := fun s => Raise e s.

Definition bind {St A B} (c : M St A) (k : A -> M St B) : M St B :=
  fun s =>
    match c s with
    | Return a s' => k a s'
    | Raise e s' => Raise e s'
    | Hang s' => Hang s'
    end.

Definition gets {St A} (f : St -> A) : M St A := fun s => Return (f s) s.

Definition modify {St} (f : St -> St) : M St unit := fun s => Return tt (f s).

(** Lift a pure computation that may raise. *)
Definition lift {St A} (x : exn + A) : M St A :=
  match x with inl e => raise e | inr a => ret a end.

(** The state a call leaves behind, however it ended. *)
Definition final {St A} (r : result St A) : St :=
  match r with Return _ s | Raise _ s | Hang s => s end.

Declare Scope monad_scope.
Delimit Scope monad_scope with monad.
Notation "x <- c ;; k" := (bind c (fun x => k))
  (at level 100, c at next level, right associativity) : monad_scope.
Notation "c ;; k" := (bind c (fun _ => k))
  (at level 100, right associativity) : monad_scope.
Local Open Scope monad_scope.

Section Primitives.
Context {R : Type} `{Resource R}.

(** What [time.sleep] does with a float before it sleeps: NaN is a
    [ValueError]; a length whose nanoseconds do not fit 64 bits is an
    [OverflowError]; a negative length is a [ValueError].  [-0.0] is not
    negative. *)
Definition sleep_rejects (t : float) : option exn :=
  if is_nan t then Some ValueError
  else
    let ns := fmul t (dec 1 9) in
    if negb (fle (float_of_Z (- 2 ^ 63)) ns && flt ns (float_of_Z (2 ^ 63)))
    then Some OverflowError
    else if flt t zero then Some ValueError
    else None.

(** [time.sleep(t)]. *)
Definition sleep (t : float) : M (state R) unit :=
  match sleep_rejects t with
  | Some e => raise e
  | None => modify (record_sleep t)
  end.

(** [while cond: time.sleep(.1)] with a budget of iterations. *)
Fixpoint spin (cond : state R -> bool) (fuel : nat) : M (state R) unit :=
  fun s =>
    if cond s then
      match fuel with
      | O => Hang s
      | S n => (sleep (dec 1 (-1)) ;; spin cond n) s
      end
    else Return tt s.

Definition _resource_write (m : scpi) : M (state R) unit :=
  modify (fun s => set_resource (resource_write m (_resource s)) s).

Definition _resource_read : M (state R) answer :=
  fun s =>
    let (a, r) := resource_read (_resource s) in
    match a with
    | inr a => Return a (set_resource r s)
    | inl e => Raise e (set_resource r s)
    end.

Definition _resource_query (m : scpi) : M (state R) answer :=
  fun s =>
    let (a, r) := resource_query m (_resource s) in
    match a with
    | inr a => Return a (set_resource r s)
    | inl e => Raise e (set_resource r s)
    end.
End Primitives.


(** ** class Keithley2470

    Every method takes [fuel], the budget of iterations of the waiting
    loops it may enter. *)

Module Keithley2470.
Section Methods.
Context {R : Type} `{Resource R} `{Platform}.

Definition write (fuel : nat) (msg : scpi) : M (state R) unit :=
  spin _is_writing fuel ;;
  modify (set_is_writing true) ;;
  _resource_write msg ;;
  modify (set_is_writing false).

Definition read (fuel : nat) : M (state R) answer :=
  spin _is_reading fuel ;;
  modify (set_is_reading true) ;;
  answer <- _resource_read ;;
  modify (set_is_reading false) ;;
  ret answer.

Definition query (fuel : nat) (msg : scpi) : M (state R) answer :=
  spin (fun s => _is_writing s || _is_reading s) fuel ;;
  modify (set_is_writing true) ;;
  modify (set_is_reading true) ;;
  answer <- _resource_query msg ;;
  modify (set_is_writing false) ;;
  modify (set_is_reading false) ;;
  ret answer.

(** The property [idn]. *)
Definition idn : M (state R) answer := gets _idn.

Definition set_output (fuel : nat) (state_ : pyval) : M (state R) unit :=
  up <- lift (py_upper state_) ;;
  if negb (String.eqb up "ON" || String.eqb up "OFF") then raise ValueError
  else write fuel (OUTPUT up).

(** The property [output]. *)
Definition output (fuel : nat) : M (state R) string :=
  answer <- query fuel OUTPUT_STATE_q ;;
  match py_int answer with
  | None => raise RuntimeError
  | Some 0 => ret "off"
  | Some 1 => ret "on"
  | Some _ => raise RuntimeError
  end.

Definition get_source_voltage (fuel : nat) : M (state R) float :=
  answer <- query fuel SOUR_VOLT_q ;;
  match py_float_of_answer answer with
  | Some x => ret x
  | None => raise ValueError
  end.

(** The message is an f-string: formatting an int that [str()] refuses
    raises [ValueError] before anything is written. *)
Definition set_source_voltage (volts : pyval) : M (state R) unit :=
  match as_number volts with
  | Some x =>
      if num_str_ok x then _resource_write (SOURCE_VOLT_LEV x)
      else raise ValueError
  | None => raise TypeError
  end.

(** The properties [voltage] and [current] always fail. *)
Definition voltage : M (state R) pyval := raise AttributeError.
Definition current : M (state R) pyval := raise AttributeError.

Definition set_source_current_limit (amperes : pyval) : M (state R) unit :=
  match as_number amperes with
  | Some x =>
      if num_str_ok x then _resource_write (SOURCE_VOLT_ILIM x)
      else raise ValueError
  | None => raise TypeError
  end.

Definition get_source_current_limit (fuel : nat) : M (state R) float :=
  answer <- query fuel SOUR_VOLT_ILIM_q ;;
  match py_float_of_answer answer with
  | Some x => ret x
  | None => raise ValueError
  end.

(** [float(v)] on an argument: an int beyond the doubles raises
    [OverflowError], a text [float()] does not know [ValueError]. *)
Definition py_float (v : pyval) : exn + float :=
  match v with
  | PyInt z => float_of_int z
  | PyFloat x => inr x
  | PyStr s => match float_of_str s with Some x => inr x | None => inl ValueError end
  | PyNone => inl TypeError
  end.

(** [beep]: whatever the conversions raise becomes a [TypeError], whose
    message prints both arguments as they are by then ([frequency] is a
    float already when only [time] failed): an int that [str()] refuses
    makes that a [ValueError].  The bounds 200, 5000 and 1 are doubles,
    so the comparisons are those of doubles, false on NaN. *)
Definition beep (frequency time : pyval) : M (state R) unit :=
  match py_float frequency with
  | inr f =>
      match py_float time with
      | inr t =>
          if negb (fle (float_of_Z 200) f && fle f (float_of_Z 5000))
          then raise ValueError
          else if fgt t one then raise ValueError
          else _resource_write (SYSTEM_BEEPER f t)
      | inl _ =>
          if pyval_str_ok time then raise TypeError else raise ValueError
      end
  | inl _ =>
      if pyval_str_ok frequency && pyval_str_ok time then raise TypeError
      else raise ValueError
  end.

Definition measure_voltage (fuel : nat) : M (state R) float :=
  answer <- query fuel MEASURE_VOLT_q ;;
  match py_float_of_answer answer with
  | Some x => ret x
  | None => raise ValueError
  end.

Definition measure_current (fuel : nat) : M (state R) float :=
  answer <- query fuel MEASURE_CURRENT_q ;;
  match py_float_of_answer answer with
  | Some x => ret x
  | None => raise ValueError
  end.

End Methods.
End Keithley2470.

(** ** class Keithley2470SafeForLGADs(Keithley2470) *)

Module Keithley2470SafeForLGADs.
Section Methods.
Context {R : Type} `{Resource R} `{Platform}.

(** The properties [slew_rate] and [volt_step]. *)
Definition slew_rate : M (state R) num := gets _slew_rate.
Definition volt_step : M (state R) num := gets _volt_step.

(** [time.sleep(self.volt_step/self.slew_rate)]. *)
Definition ramp_sleep : M (state R) unit :=
  step <- volt_step ;;
  slew <- slew_rate ;;
  t <- lift (div_num step slew) ;;
  sleep t.

(** The [while True] loop of [set_source_voltage]; [n] bounds its
    iterations. *)
Fixpoint ramp (fuel n : nat) (voltage : float) : M (state R) unit :=
  match n with
  | O => fun s => Hang s
  | S n' =>
      v1 <- Keithley2470.get_source_voltage fuel ;;
      gap <- lift (sq_root_of_square (fsub voltage v1)) ;;
      step1 <- volt_step ;;
      if gt_num gap step1 then
        (v2 <- Keithley2470.get_source_voltage fuel ;;
         step2 <- volt_step ;;
         if gt_num (fsub voltage v2) step2 then
           v3 <- Keithley2470.get_source_voltage fuel ;;
           step3 <- volt_step ;;
           level <- lift (add_num v3 step3) ;;
           Keithley2470.set_source_voltage (PyFloat level)
         else
           v3 <- Keithley2470.get_source_voltage fuel ;;
           step3 <- volt_step ;;
           level <- lift (sub_num v3 step3) ;;
           Keithley2470.set_source_voltage (PyFloat level)) ;;
        ramp_sleep ;;
        ramp fuel n' voltage
      else
        Keithley2470.set_source_voltage (PyFloat voltage)
  end.

Definition set_source_voltage (fuel : nat) (voltage : pyval) : M (state R) unit :=
  polarity <- gets _polarity ;;
  voltage <- lift (coerce_polarity polarity voltage) ;;
  out <- Keithley2470.output fuel ;;
  if String.eqb out "off" then Keithley2470.set_source_voltage (PyFloat voltage)
  else ramp fuel fuel voltage.

Definition set_output (fuel : nat) (state_ : pyval) : M (state R) unit :=
  low <- lift (py_lower state_) ;;
  if String.eqb low "off" then
    out <- Keithley2470.output fuel ;;
    if String.eqb out "off" then ret tt
    else
      set_source_voltage fuel (PyInt 0) ;;
      Keithley2470.set_output fuel state_
  else
    out <- Keithley2470.output fuel ;;
    if String.eqb out "on" then ret tt
    else
      setted_voltage <- Keithley2470.get_source_voltage fuel ;;
      Keithley2470.set_source_voltage (PyInt 0) ;;
      Keithley2470.set_output fuel state_ ;;
      set_source_voltage fuel (PyFloat setted_voltage).

End Methods.
End Keithley2470SafeForLGADs.

(** ** Method resolution, the exit hook and the constructors *)

Section Objects.
Context {R : Type} `{Resource R} `{Platform}.

(** [self.set_source_voltage(v)], also reached through the setter of the
    property [source_voltage]. *)
Definition set_source_voltage (fuel : nat) (v : pyval) : M (state R) unit :=
  fun s =>
    match klass s with
    | Base => Keithley2470.set_source_voltage v s
    | SafeForLGADs => Keithley2470SafeForLGADs.set_source_voltage fuel v s
    end.

(** [self.set_output(state)], also reached through the setter of the
    property [output]. *)
Definition set_output (fuel : nat) (v : pyval) : M (state R) unit :=
  fun s =>
    match klass s with
    | Base => Keithley2470.set_output fuel v s
    | SafeForLGADs => Keithley2470SafeForLGADs.set_output fuel v s
    end.

(** What the interpreter does with a registered exit function. *)
Definition run_exitfunc (fuel : nat) (f : exitfunc) : M (state R) unit :=
  match f with
  | _atexit =>
      set_source_voltage fuel (PyInt 0) ;;
      set_output fuel (PyStr "off")
  end.

(** A fresh object of class [k] in a process whose exit registry is
    [registry]; [instr] is what [open_resource(resource_str)] yields. *)
Definition new (k : class) (instr : R) (registry : list exitfunc) : state R :=
  State k instr false false (AText "") 0 (NInt 0) (NInt 0) registry [].

Definition Keithley2470__init__ (fuel : nat) : M (state R) unit :=
  modify (set_is_writing false) ;;
  modify (set_is_reading false) ;;
  answer <- _resource_query IDN_q ;;
  modify (set_idn answer) ;;
  idn <- gets _idn ;;
  if negb (answer_contains "KEITHLEY" idn) || negb (answer_contains "MODEL 2470" idn)
  then raise RuntimeError
  else
    modify (atexit_register _atexit) ;;
    Keithley2470.measure_voltage fuel ;;
    set_source_voltage fuel (PyInt 0) ;;
    set_output fuel (PyStr "off").


Definition default_slew_rate : num := NInt 10.
Definition default_volt_step : num := NFloat (dec 25 (-1)).

Definition Keithley2470SafeForLGADs__init__
    (fuel : nat) (polarity : pyval) (slew_rate volt_step : num) : M (state R) unit :=
  match polarity with
  | PyStr p =>
      if negb (String.eqb p "positive" || String.eqb p "negative")
      then raise TypeError
      else
        modify (set_ramp (if String.eqb p "positive" then 1 else -1)
                         slew_rate volt_step) ;;
        Keithley2470__init__ fuel
  | _ => raise TypeError
  end.

End Objects.

(** ** An instrument that honours what is written to it

    It keeps the settings it is sent, answers every query from them, and
    records each call made on it.  It reads the number in a message as the
    nearest double. *)

Record instrument : Type := Instrument {
  dev_idn : string;
  dev_output : bool;              (* output stage on? *)
  dev_volt : float;               (* source voltage level *)
  dev_ilim : float;               (* source current limit *)
  dev_meas_volt : float;          (* what a voltage measurement gives *)
  dev_meas_curr : float;          (* what a current measurement gives *)
  dev_outbuf : list answer;       (* answers not read yet, oldest first *)
  dev_log : list io               (* calls received, newest first *)
}.

Definition dev_set_output (b : bool) (d : instrument) : instrument :=
  Instrument (dev_idn d) b (dev_volt d) (dev_ilim d) (dev_meas_volt d)
             (dev_meas_curr d) (dev_outbuf d) (dev_log d).

Definition dev_set_volt (v : float) (d : instrument) : instrument :=
  Instrument (dev_idn d) (dev_output d) v (dev_ilim d) (dev_meas_volt d)
             (dev_meas_curr d) (dev_outbuf d) (dev_log d).

Definition dev_set_ilim (a : float) (d : instrument) : instrument :=
  Instrument (dev_idn d) (dev_output d) (dev_volt d) a (dev_meas_volt d)
             (dev_meas_curr d) (dev_outbuf d) (dev_log d).

Definition dev_set_outbuf (b : list answer) (d : instrument) : instrument :=
  Instrument (dev_idn d) (dev_output d) (dev_volt d) (dev_ilim d)
             (dev_meas_volt d) (dev_meas_curr d) b (dev_log d).

Definition dev_record (e : io) (d : instrument) : instrument :=
  Instrument (dev_idn d) (dev_output d) (dev_volt d) (dev_ilim d)
             (dev_meas_volt d) (dev_meas_curr d) (dev_outbuf d) (e :: dev_log d).

Definition dev_answer (a : answer) (d : instrument) : instrument :=
  dev_set_outbuf (dev_outbuf d ++ [a]) d.

(** The instrument executes one message. *)
Definition dev_exec (m : scpi) (d : instrument) : instrument :=
  match m with
  | IDN_q => dev_answer (AText (dev_idn d)) d
  | OUTPUT st =>
      if String.eqb st "ON" then dev_set_output true d
      else if String.eqb st "OFF" then dev_set_output false d
      else d
  | OUTPUT_STATE_q => dev_answer (AInt (if dev_output d then 1 else 0)) d
  | SOUR_VOLT_q => dev_answer (ADec (dev_volt d)) d
  | SOURCE_VOLT_LEV v => dev_set_volt (float_of_literal v) d
  | SOURCE_VOLT_ILIM a => dev_set_ilim (float_of_literal a) d
  | SOUR_VOLT_ILIM_q => dev_answer (ADec (dev_ilim d)) d
  | SYSTEM_BEEPER _ _ => d
  | MEASURE_VOLT_q => dev_answer (ADec (dev_meas_volt d)) d
  | MEASURE_CURRENT_q => dev_answer (ADec (dev_meas_curr d)) d
  end.

(** The oldest unread answer; with none pending the read waits until the
    timeout and raises. *)
Definition dev_take (d : instrument) : (exn + answer) * instrument :=
  match dev_outbuf d with
  | a :: rest => (inr a, dev_set_outbuf rest d)
  | [] => (inl VisaIOError, d)
  end.

#[export] Instance instrument_resource : Resource instrument := {
  resource_write m d := dev_record (Wr m) (dev_exec m d);
  resource_read d := let (a, d') := dev_take d in (a, dev_record Rd d');
  resource_query m d :=
    let (a, d') := dev_take (dev_exec m d) in (a, dev_record (Qy m) d')
}.

(** The voltage levels written, as the instrument reads them, newest
    first. *)
Fixpoint written (log : list io) : list float :=
  match log with
  | [] => []
  | Wr (SOURCE_VOLT_LEV v) :: rest => float_of_literal v :: written rest
  | _ :: rest => written rest
  end.

(** The messages written (queries left out), newest first. *)
Fixpoint writes (log : list io) : list scpi :=
  match log with
  | [] => []
  | Wr m :: rest => m :: writes rest
  | _ :: rest => writes rest
  end.

(** Consecutive values are at most [step] apart, as real numbers. *)
Fixpoint bounded_steps (step : Q) (vs : list Q) : Prop :=
  match vs with
  | a :: (b :: _) as rest => (Qabs (a - b) <= step)%Q /\ bounded_steps step rest
  | _ => True
  end.

(** The same, decided. *)
Fixpoint bounded_stepsb (step : Q) (vs : list Q) : bool :=
  match vs with
  | a :: (b :: _) as rest => Qle_bool (Qabs (a - b)) step && bounded_stepsb step rest
  | _ => true
  end.

(** A driver object between two calls, on an instrument with no unread
    answer. *)
Definition idle (s : state instrument) : Prop :=
  _is_writing s = false /\ _is_reading s = false /\ dev_outbuf (_resource s) = [].

(** A powered-up Keithley 2470. *)
Definition bench (output : bool) (volt : float) : instrument :=
  Instrument "KEITHLEY INSTRUMENTS,MODEL 2470,04481179,1.7.0b" output volt
             (dec 1 (-4)) zero zero [] [].

(** A [Keithley2470SafeForLGADs] object on [d], past its constructor. *)
Definition safe_on (d : instrument) (polarity : Z) (slew step : num)
  : state instrument :=
  State SafeForLGADs d false false (AText (dev_idn d)) polarity slew step
        [_atexit] [].

(** Shorthands for reading a driver state on the instrument. *)
Definition volt (s : state instrument) : float := dev_volt (_resource s).
Definition output_on (s : state instrument) : bool := dev_output (_resource s).
Definition log (s : state instrument) : list io := dev_log (_resource s).

(** The state after the instrument recorded the query [m]. *)
Definition queried (m : scpi) (s : state instrument) : state instrument :=
  set_resource (dev_record (Qy m) (_resource s)) s.

(** The state after [_resource.write(m)]. *)
Definition wrote (m : scpi) (s : state instrument) : state instrument :=
  set_resource (resource_write m (_resource s)) s.

(** The state [s] after the instrument received the calls [l] (newest
    first), all of them voltage queries and voltage writes, and the
    process slept [z]: the level is the last one written. *)
Definition moved (l : list io) (z : list float) (s : state instrument)
  : state instrument :=
  let d := _resource s in
  State (klass s)
        (Instrument (dev_idn d) (dev_output d) (hd (dev_volt d) (written l))
                    (dev_ilim d) (dev_meas_volt d) (dev_meas_curr d)
                    (dev_outbuf d) (l ++ dev_log d))
        (_is_writing s) (_is_reading s) (_idn s) (_polarity s) (_slew_rate s)
        (_volt_step s) (atexit_registry s) (z ++ slept s).

(** What the ramp loop sends: queries of the level and new levels. *)
Definition ramp_io (e : io) : Prop :=
  e = Qy SOUR_VOLT_q \/ exists v, e = Wr (SOURCE_VOLT_LEV (NFloat v)).

(** How a call ended. *)
Definition halts {St A : Type} (r : result St A) : Prop :=
  match r with Hang _ => False | _ => True end.

Definition returns {St A : Type} (r : result St A) : Prop :=
  match r with Return _ _ => True | _ => False end.

Section RampArithmetic.
Context `{Platform}.

(** The test of the ramp loop, [((target - v)**2)**.5 > step]. *)
Definition far (target v : float) (step : num) : exn + bool :=
  ebind (sq_root_of_square (fsub target v)) (fun gap => inr (gt_num gap step)).

(** The level the ramp loop writes when that test holds. *)
Definition next_level (target v : float) (step : num) : exn + float :=
  if gt_num (fsub target v) step then add_num v step else sub_num v step.

(** The pause of the ramp loop, when [time.sleep] accepts it. *)
Definition pause (step slew : num) : exn + float :=
  ebind (div_num step slew) (fun t =>
    match sleep_rejects t with Some e => inl e | None => inr t end).

(** The ramp loop on an instrument that reports each level as written,
    as a recurrence on the level: within [n] iterations the test fails and
    the loop writes the target and leaves, and nothing raised before. *)
Fixpoint arrives (n : nat) (target v : float) (step slew : num) : bool :=
  match n with
  | O => false
  | S n' =>
      match far target v step with
      | inr false => true
      | inr true =>
          match next_level target v step, pause step slew with
          | inr w, inr _ => arrives n' target w step slew
          | _, _ => false
          end
      | inl _ => false
      end
  end.

(** [w] is what the loop writes when it finds the level [v]. *)
Definition one_step (target : float) (step : num) (w v : float) : Prop :=
  (far target v step = inr true /\ next_level target v step = inr w)
  \/ (far target v step = inr false /\ w = target).

(** Each level (newest first) is what the loop writes on finding the
    next one. *)
Fixpoint stepwise (target : float) (step : num) (vs : list float) : Prop :=
  match vs with
  | a :: (b :: _) as rest => one_step target step a b /\ stepwise target step rest
  | _ => True
  end.

End RampArithmetic.

(** What [set_output('off')] sends before the output command: queries of
    the output state, and the calls of the ramp. *)
Definition before_off (e : io) : Prop := e = Qy OUTPUT_STATE_q \/ ramp_io e.

(** [s'] is [s] after calls of the ramp towards [target] and queries of
    the output state only: no output command, and each level written is
    what one iteration of the loop makes of the level before it. *)
Definition gentle `{Platform} (target : float) (s s' : state instrument) : Prop :=
  exists l z, s' = moved l z s /\ Forall before_off l
              /\ stepwise target (_volt_step s) (written l ++ [volt s]).

(** The settings of the instrument. *)
Definition dev_settings (d : instrument) : bool * float * float :=
  (dev_output d, dev_volt d, dev_ilim d).

(** ** The public operations of a driver object *)

Inductive method : Type :=
| call_write (msg : scpi)
| call_read
| call_query (msg : scpi)
| get_idn
| call_set_output (state_ : pyval)
| get_output
| set_output_property (state_ : pyval)
| call_get_source_voltage
| call_set_source_voltage (volts : pyval)
| get_source_voltage_property
| set_source_voltage_property (volts : pyval)
| get_voltage
| set_voltage (v : pyval)
| call_set_source_current_limit (amperes : pyval)
| call_get_source_current_limit
| get_current_limit
| set_current_limit (amperes : pyval)
| get_current
| set_current (v : pyval)
| call_beep (frequency time : pyval)
| call_measure_voltage
| call_measure_current
| get_slew_rate
| get_volt_step.


Section Calls.
Context {R : Type} `{Resource R} `{Platform}.

(** Run a computation for its effect. *)
Definition ignore {A : Type} (c : M (state R) A) : M (state R) unit :=
  _ <- c ;; ret tt.

(** One operation on the object, resolved on its class. *)
Definition call (fuel : nat) (m : method) : M (state R) unit :=
  match m with
  | call_write msg => Keithley2470.write fuel msg
  | call_read => ignore (Keithley2470.read fuel)
  | call_query msg => ignore (Keithley2470.query fuel msg)
  | get_idn => ignore Keithley2470.idn
  | call_set_output st | set_output_property st => set_output fuel st
  | get_output => ignore (Keithley2470.output fuel)
  | call_get_source_voltage | get_source_voltage_property =>
      ignore (Keithley2470.get_source_voltage fuel)
  | call_set_source_voltage v | set_source_voltage_property v =>
      set_source_voltage fuel v
  | get_voltage => ignore Keithley2470.voltage
  | set_voltage _ => raise AttributeError
  | call_set_source_current_limit a | set_current_limit a =>
      Keithley2470.set_source_current_limit a
  | call_get_source_current_limit | get_current_limit =>
      ignore (Keithley2470.get_source_current_limit fuel)
  | get_current => ignore Keithley2470.current
  | set_current _ => raise AttributeError
  | call_beep f t => Keithley2470.beep f t
  | call_measure_voltage => ignore (Keithley2470.measure_voltage fuel)
  | call_measure_current => ignore (Keithley2470.measure_current fuel)
  | get_slew_rate => ignore Keithley2470SafeForLGADs.slew_rate
  | get_volt_step => ignore Keithley2470SafeForLGADs.volt_step
  end.

(** What no operation after construction touches: the class, the
    polarity, the ramp parameters, and the exit registry. *)
Definition config (s : state R) : class * Z * num * num * list exitfunc :=
  (klass s, _polarity s, _slew_rate s, _volt_step s, atexit_registry s).

Definition keeps {A : Type} (c : M (state R) A) : Prop :=
  forall s, config (final (c s)) = config s.

End Calls.

(** ** Several callers on one transport

    [write], [read] and [query] guard the resource with the two flags
    [_is_writing] and [_is_reading]; [set_source_voltage],
    [set_source_current_limit] and [beep] call [_resource.write] with no
    guard.  A caller is a thread running one such call, statement by
    statement; a call on the resource takes time, so it has a beginning
    and an end, and other threads may run in between. *)

Module Concurrent.

Inductive op : Type :=
| Write (msg : scpi)        (* self.write(msg) *)
| Read                      (* self.read() *)
| Query (msg : scpi)        (* self.query(msg) *)
| RawWrite (msg : scpi).    (* self._resource.write(msg), unguarded *)

(** Where a caller is in its call. *)
Inductive pc : Type :=
| Test        (* at [while <flags>: time.sleep(.1)] *)
| SetW        (* at [self._is_writing = True] *)
| SetR        (* at [self._is_reading = True] *)
| Call        (* at the call on [self._resource] *)
| InCall      (* inside that call: the message is on the link *)
| ClrW        (* at [self._is_writing = False] *)
| ClrR        (* at [self._is_reading = False] *)
| Done.

Record thread : Type := Thread { t_op : op; t_pc : pc }.

Record sys : Type := Sys {
  is_writing : bool;
  is_reading : bool;
  threads : list thread
}.

(** The condition of the [while] loop of each method. *)
Definition blocked (o : op) (w r : bool) : bool :=
  match o with
  | Write _ => w
  | Read => r
  | Query _ => w || r
  | RawWrite _ => false
  end.

(** The statement that follows, method by method. *)
Definition after (o : op) (p : pc) : pc :=
  match o, p with
  | Write _, Test => SetW
  | Write _, SetW => Call
  | Write _, Call => InCall
  | Write _, InCall => ClrW
  | Read, Test => SetR
  | Read, SetR => Call
  | Read, Call => InCall
  | Read, InCall => ClrR
  | Query _, Test => SetW
  | Query _, SetW => SetR
  | Query _, SetR => Call
  | Query _, Call => InCall
  | Query _, InCall => ClrW
  | Query _, ClrW => ClrR
  | RawWrite _, Call => InCall
  | _, _ => Done
  end.

(** The first statement of a call. *)
Definition entry (o : op) : pc :=
  match o with RawWrite _ => Call | _ => Test end.

(** One statement of one caller. *)
Definition thread_step (w r : bool) (t : thread) : bool * bool * thread :=
  let next := Thread (t_op t) (after (t_op t) (t_pc t)) in
  match t_pc t with
  | Test => if blocked (t_op t) w r then (w, r, t) else (w, r, next)
  | SetW => (true, r, next)
  | SetR => (w, true, next)
  | Call => (w, r, next)
  | InCall => (w, r, next)
  | ClrW => (false, r, next)
  | ClrR => (w, false, next)
  | Done => (w, r, t)
  end.

(** The scheduler runs caller [i] for one statement. *)
Definition step (i : nat) (s : sys) : sys :=
  match threads s !! i with
  | None => s
  | Some t =>
      let '(w, r, t') := thread_step (is_writing s) (is_reading s) t in
      Sys w r (<[i := t']> (threads s))
  end.

Definition run (schedule : list nat) (s : sys) : sys :=
  fold_left (fun s i => step i s) schedule s.

(** The callers before any of them has run; the constructor has cleared
    both flags. *)
Definition start (ops : list op) : sys :=
  Sys false false (map (fun o => Thread o (entry o)) ops).

Definition in_call (t : thread) : bool :=
  match t_pc t with InCall => true | _ => false end.

(** One exclusion domain: no two callers are inside a call on the
    resource at the same time. *)
Definition exclusive (s : sys) : Prop :=
  forall (i j : nat) (ti tj : thread),
    i <> j -> threads s !! i = Some ti -> threads s !! j = Some tj ->
    in_call ti = true -> in_call tj = true -> False.

(** The flags a method waits on and sets. *)
Definition uses_w (o : op) : bool :=
  match o with Write _ | Query _ => true | _ => false end.

Definition uses_r (o : op) : bool :=
  match o with Read | Query _ => true | _ => false end.

Definition shares_flag (o1 o2 : op) : bool :=
  (uses_w o1 && uses_w o2) || (uses_r o1 && uses_r o2).

(** Schedules that do not separate a caller's test from its
    assignments: once caller [i] has found its flags clear, it sets them
    before any other caller runs. *)
Definition at_set (i : nat) (s : sys) : bool :=
  match threads s !! i with
  | Some t => match t_pc t with SetW | SetR => true | _ => false end
  | None => false
  end.

Definition finish (i : nat) (s : sys) : sys :=
  if at_set i s then step i s else s.

Definition atomic_step (i : nat) (s : sys) : sys :=
  finish i (finish i (step i s)).

Definition atomic_run (schedule : list nat) (s : sys) : sys :=
  fold_left (fun s i => atomic_step i s) schedule s.

(** The same on the caller alone: a caller that has passed its test
    goes on through its assignments. *)
Definition settle (x : bool * bool * thread) : bool * bool * thread :=
  let '(w, r, t) := x in
  match t_pc t with
  | SetW | SetR => thread_step w r t
  | _ => x
  end.

Definition atomic_thread_step (w r : bool) (t : thread) : bool * bool * thread :=
  settle (settle (thread_step w r t)).

(** A caller holds a flag from the moment it has set it until it has
    cleared it. *)
Definition holds_w (t : thread) : bool :=
  uses_w (t_op t)
  && match t_pc t with Call | InCall | ClrW => true | _ => false end.

Definition holds_r (t : thread) : bool :=
  uses_r (t_op t)
  && match t_pc t with Call | InCall | ClrW | ClrR => true | _ => false end.

(** A caller at a statement of its own method, and not between its test
    and its assignments. *)
Definition settled (t : thread) : bool :=
  match t_op t, t_pc t with
  | _, (SetW | SetR) => false
  | Write _, ClrR => false
  | Read, ClrW => false
  | RawWrite _, (Test | ClrW | ClrR) => false
  | _, _ => true
  end.

(** What holds of the callers under such schedules. *)
Record inv (s : sys) : Prop := Inv {
  inv_settled : forall i t, threads s !! i = Some t -> settled t = true;
  inv_w : forall i t, threads s !! i = Some t -> holds_w t = true ->
                      is_writing s = true;
  inv_r : forall i t, threads s !! i = Some t -> holds_r t = true ->
                      is_reading s = true;
  inv_w1 : forall i j ti tj, i <> j ->
             threads s !! i = Some ti -> threads s !! j = Some tj ->
             holds_w ti = true -> holds_w tj = true -> False;
  inv_r1 : forall i j ti tj, i <> j ->
             threads s !! i = Some ti -> threads s !! j = Some tj ->
             holds_r ti = true -> holds_r tj = true -> False
}.

End Concurrent.

(** ** Further notions used by the properties *)

(** Messages the instrument answers. *)
Definition is_query (m : scpi) : bool :=
  match m with
  | IDN_q | OUTPUT_STATE_q | SOUR_VOLT_q | SOUR_VOLT_ILIM_q
  | MEASURE_VOLT_q | MEASURE_CURRENT_q => true
  | _ => false
  end.

(** A computation that leaves an idle driver idle, however it ends. *)
Definition stays_idle {A : Type} (c : M (state instrument) A) : Prop :=
  forall s, idle s -> idle (final (c s)).

(** A computation that never raises [TypeError]. *)
Definition no_type_error {R A : Type} (c : M (state R) A) : Prop :=
  forall s e s', c s = Raise e s' -> e <> TypeError.

(** A transport whose failures are its own: a query that fails does not
    raise [TypeError]. *)
Definition query_errors_are_io (R : Type) `{Resource R} : Prop :=
  forall (m : scpi) (r r' : R) (e : exn),
    resource_query m r = (inl e, r') -> e <> TypeError.

(** ** An instrument that clamps the level

    A source with a voltage limit: it behaves like the honest instrument
    except that a level beyond the limit is cut back to it. *)

Record clamped : Type := Clamped {
  clamp_limit : float;
  clamp_dev : instrument
}.

Definition clamp (lim v : float) : float :=
  if fgt v lim then lim
  else if flt v (SFopp lim) then SFopp lim
  else v.

(** The message as the instrument carries it out. *)
Definition clamp_message (lim : float) (m : scpi) : scpi :=
  match m with
  | SOURCE_VOLT_LEV v => SOURCE_VOLT_LEV (NFloat (clamp lim (float_of_literal v)))
  | _ => m
  end.

#[export] Instance clamped_resource : Resource clamped := {
  resource_write m c :=
    Clamped (clamp_limit c)
            (dev_record (Wr m)
               (dev_exec (clamp_message (clamp_limit c) m) (clamp_dev c)));
  resource_read c :=
    let (a, d) := resource_read (clamp_dev c) in (a, Clamped (clamp_limit c) d);
  resource_query m c :=
    let (a, d) := resource_query m (clamp_dev c) in (a, Clamped (clamp_limit c) d)
}.

(** A driver between two calls on the clamping instrument. *)
Definition idle_clamped (s : state clamped) : Prop :=
  _is_writing s = false /\ _is_reading s = false
  /\ dev_outbuf (clamp_dev (_resource s)) = [].

(** The level of the clamping instrument. *)
Definition cvolt (s : state clamped) : float := dev_volt (clamp_dev (_resource s)).

(** The state after a query, and after a write, on any resource. *)
Definition after_query {R : Type} `{Resource R} (m : scpi) (s : state R)
  : state R :=
  set_resource (snd (resource_query m (_resource s))) s.

Definition after_write {R : Type} `{Resource R} (m : scpi) (s : state R)
  : state R :=
  set_resource (resource_write m (_resource s)) s.
(** * Properties *)

(** Closed examples are computed on the reference platform; every other
    statement holds on any platform. *)
#[export] Existing Instance reference_platform.

(** The literals of the driver and of the examples are the doubles Python
    reads them as. *)
Example literals :
  dec 1 (-1) = S754_finite false 7205759403792794 (-56)
  /\ dec 25 (-1) = S754_finite false 5629499534213120 (-51)
  /\ fadd (dec 1 (-1)) (dec 2 (-1)) = S754_finite false 5404319552844596 (-54)
  /\ dec 3 (-1) = S754_finite false 5404319552844595 (-54)
  /\ float_of_Z (2 ^ 53 + 1) = float_of_Z (2 ^ 53)
  /\ float_of_Z (10 ^ 400) = inf.
Proof. vm_compute. repeat split. Qed.

(** The scenario of the specification: negative polarity, 10 V/s, steps
    of 2.5 V, output on at 0 V, 10 V requested. *)
Example ramp_scenario :
  written (dev_log (_resource (final
    (Keithley2470SafeForLGADs.set_source_voltage 10 (PyInt 10)
       (safe_on (bench true zero) (-1) (NInt 10) (NFloat (dec 25 (-1))))))))
  = [float_of_Z (-10); dec (-75) (-1); float_of_Z (-5); dec (-25) (-1)].
Proof. vm_compute. reflexivity. Qed.

(** ** Single calls on an idle driver *)

Lemma spin_clear {R : Type} (cond : state R -> bool) (fuel : nat) (s : state R) :
  cond s = false -> spin cond fuel s = Return tt s.
Proof. destruct fuel; simpl; intros ->; reflexivity. Qed.

Lemma sleep_tenth {R : Type} (s : state R) :
  sleep (dec 1 (-1)) s = Return tt (record_sleep (dec 1 (-1)) s).
Proof. reflexivity. Qed.

Ltac crush_idle s :=
  let d := fresh "d" in
  let o := fresh "o" in
  destruct s as [? d ? ? ? ? ? ? ? ?]; destruct d as [? o ? ? ? ? ? ?];
  unfold idle in *; simpl in *; intuition subst; simpl; try reflexivity;
  try (destruct o; reflexivity).

Lemma idle_queried (m : scpi) (s : state instrument) : idle s -> idle (queried m s).
Proof. unfold idle, queried. simpl. tauto. Qed.

Lemma idle_wrote_volt (v : num) (s : state instrument) :
  idle s -> idle (wrote (SOURCE_VOLT_LEV v) s).
Proof. unfold idle, wrote. simpl. tauto. Qed.

(** A query on an idle driver: the answer the instrument gives, or the
    timeout when the message has none, which leaves both flags raised. *)
Lemma query_idle `{Platform} (fuel : nat) (m : scpi) (s : state instrument) :
  idle s ->
  Keithley2470.query fuel m s =
  match fst (dev_take (dev_exec m (_resource s))) with
  | inr a =>
      Return a
        (set_resource (dev_record (Qy m) (snd (dev_take (dev_exec m (_resource s))))) s)
  | inl e =>
      Raise e
        (set_resource (dev_record (Qy m) (snd (dev_take (dev_exec m (_resource s)))))
           (set_is_reading true (set_is_writing true s)))
  end.
Proof.
  intros Hi. unfold Keithley2470.query, bind.
  rewrite spin_clear by (destruct Hi as (-> & -> & _); reflexivity).
  unfold modify, _resource_query, ret. simpl.
  destruct (dev_take (dev_exec m (_resource s))) as [[e|a] d'] eqn:E; simpl.
  - reflexivity.
  - f_equal. crush_idle s.
Qed.

Lemma get_source_voltage_idle `{Platform} (fuel : nat) (s : state instrument) :
  idle s ->
  Keithley2470.get_source_voltage fuel s = Return (volt s) (queried SOUR_VOLT_q s).
Proof.
  intros Hi. unfold Keithley2470.get_source_voltage, bind.
  rewrite query_idle by assumption. crush_idle s.
Qed.

Lemma output_idle `{Platform} (fuel : nat) (s : state instrument) :
  idle s ->
  Keithley2470.output fuel s =
  Return (if output_on s then "on" else "off") (queried OUTPUT_STATE_q s).
Proof.
  intros Hi. unfold Keithley2470.output, bind.
  rewrite query_idle by assumption. crush_idle s.
Qed.

Lemma measure_voltage_idle `{Platform} (fuel : nat) (s : state instrument) :
  idle s ->
  Keithley2470.measure_voltage fuel s =
  Return (dev_meas_volt (_resource s)) (queried MEASURE_VOLT_q s).
Proof.
  intros Hi. unfold Keithley2470.measure_voltage, bind.
  rewrite query_idle by assumption. crush_idle s.
Qed.

Lemma write_idle (fuel : nat) (m : scpi) (s : state instrument) :
  idle s -> Keithley2470.write fuel m s = Return tt (wrote m s).
Proof.
  intros Hi. unfold Keithley2470.write, bind.
  rewrite spin_clear by (destruct Hi as (-> & _); reflexivity).
  unfold modify, _resource_write, modify, wrote. simpl. f_equal.
  destruct s; unfold idle in Hi; simpl in *. intuition subst. reflexivity.
Qed.

Lemma set_source_voltage_float `{Platform} (v : float) (s : state instrument) :
  Keithley2470.set_source_voltage (PyFloat v) s
  = Return tt (wrote (SOURCE_VOLT_LEV (NFloat v)) s).
Proof. reflexivity. Qed.

Lemma ramp_sleep_eq {R : Type} (s : state R) :
  Keithley2470SafeForLGADs.ramp_sleep s =
  match pause (_volt_step s) (_slew_rate s) with
  | inl e => Raise e s
  | inr t => Return tt (record_sleep t s)
  end.
Proof.
  unfold Keithley2470SafeForLGADs.ramp_sleep, bind,
    Keithley2470SafeForLGADs.volt_step, Keithley2470SafeForLGADs.slew_rate,
    gets, pause, ebind, lift, sleep.
  destruct (div_num (_volt_step s) (_slew_rate s)) as [e|t]; [reflexivity|].
  unfold ret. destruct (sleep_rejects t); reflexivity.
Qed.

(** The pause, then the rest of the loop. *)
Lemma sleep_then_ramp {R : Type} `{Resource R} `{Platform} (fuel n : nat)
    (target : float) (s : state R) :
  (Keithley2470SafeForLGADs.ramp_sleep ;;
   Keithley2470SafeForLGADs.ramp fuel n target) s =
  match pause (_volt_step s) (_slew_rate s) with
  | inl e => Raise e s
  | inr t => Keithley2470SafeForLGADs.ramp fuel n target (record_sleep t s)
  end.
Proof.
  unfold bind at 1. rewrite ramp_sleep_eq.
  destruct (pause (_volt_step s) (_slew_rate s)); reflexivity.
Qed.

(** ** The ramp loop on the honest instrument *)

(** One iteration. *)
Lemma ramp_S `{Platform} (fuel n : nat) (target : float) (s : state instrument) :
  idle s ->
  Keithley2470SafeForLGADs.ramp fuel (S n) target s =
  match far target (volt s) (_volt_step s) with
  | inl e => Raise e (queried SOUR_VOLT_q s)
  | inr false =>
      Return tt (wrote (SOURCE_VOLT_LEV (NFloat target)) (queried SOUR_VOLT_q s))
  | inr true =>
      match next_level target (volt s) (_volt_step s) with
      | inl e =>
          Raise e (queried SOUR_VOLT_q (queried SOUR_VOLT_q (queried SOUR_VOLT_q s)))
      | inr w =>
          (Keithley2470SafeForLGADs.ramp_sleep ;;
           Keithley2470SafeForLGADs.ramp fuel n target)
            (wrote (SOURCE_VOLT_LEV (NFloat w))
               (queried SOUR_VOLT_q (queried SOUR_VOLT_q (queried SOUR_VOLT_q s))))
      end
  end.
Proof.
  intros Hi.
  pose proof (idle_queried SOUR_VOLT_q s Hi) as Hi1.
  pose proof (idle_queried SOUR_VOLT_q _ Hi1) as Hi2.
  cbn [Keithley2470SafeForLGADs.ramp].
  unfold bind at 1. rewrite (get_source_voltage_idle fuel s Hi).
  unfold far, ebind.
  unfold bind at 1.
  destruct (sq_root_of_square (fsub target (volt s))) as [e|gap];
    [reflexivity|].
  unfold lift at 1, ret at 1.
  unfold bind at 1. unfold Keithley2470SafeForLGADs.volt_step at 1, gets at 1.
  change (_volt_step (queried SOUR_VOLT_q s)) with (_volt_step s).
  destruct (gt_num gap (_volt_step s)); [|reflexivity].
  unfold bind at 1. unfold bind at 1.
  rewrite (get_source_voltage_idle fuel _ Hi1).
  unfold bind at 1. unfold Keithley2470SafeForLGADs.volt_step at 1, gets at 1.
  change (volt (queried SOUR_VOLT_q s)) with (volt s).
  change (_volt_step (queried SOUR_VOLT_q (queried SOUR_VOLT_q s)))
    with (_volt_step s).
  unfold next_level.
  destruct (gt_num (fsub target (volt s)) (_volt_step s));
    unfold bind at 1; rewrite (get_source_voltage_idle fuel _ Hi2);
    unfold bind at 1;
    unfold Keithley2470SafeForLGADs.volt_step at 1, gets at 1;
    change (volt (queried SOUR_VOLT_q (queried SOUR_VOLT_q s))) with (volt s);
    change (_volt_step (queried SOUR_VOLT_q
              (queried SOUR_VOLT_q (queried SOUR_VOLT_q s)))) with (_volt_step s);
    unfold bind at 1.
  - destruct (add_num (volt s) (_volt_step s)) as [e|w]; reflexivity.
  - destruct (sub_num (volt s) (_volt_step s)) as [e|w]; reflexivity.
Qed.

Lemma written_app (l1 l2 : list io) : written (l1 ++ l2) = written l1 ++ written l2.
Proof.
  induction l1 as [|e l1 IH]; simpl; [reflexivity|].
  destruct e as [m| |m]; try assumption.
  destruct m; simpl; try assumption. f_equal. assumption.
Qed.

Lemma hd_app_default {A : Type} (d : A) (l1 l2 : list A) :
  hd d (l1 ++ l2) = hd (hd d l2) l1.
Proof. destruct l1; reflexivity. Qed.

Lemma moved_moved (l1 l2 : list io) (z1 z2 : list float) (s : state instrument) :
  moved l2 z2 (moved l1 z1 s) = moved (l2 ++ l1) (z2 ++ z1) s.
Proof.
  unfold moved. simpl. rewrite written_app, hd_app_default.
  rewrite <- !app_assoc. reflexivity.
Qed.

Lemma moved_nil (s : state instrument) : moved [] [] s = s.
Proof. destruct s as [? d ? ? ? ? ? ? ? ?]. destruct d. reflexivity. Qed.

Lemma idle_moved (l : list io) (z : list float) (s : state instrument) :
  idle s -> idle (moved l z s).
Proof. unfold idle, moved. simpl. tauto. Qed.

Lemma queried_moved (m : scpi) (s : state instrument) :
  queried m s = moved [Qy m] [] s.
Proof. destruct s as [? d ? ? ? ? ? ? ? ?]. destruct d. reflexivity. Qed.

Lemma stepwise_snoc `{Platform} (target : float) (step : num) (a b : float)
    (ws : list float) :
  stepwise target step (ws ++ [a]) -> one_step target step a b ->
  stepwise target step (ws ++ [a; b]).
Proof.
  induction ws as [|w ws IH]; simpl; intros Hb Hab.
  - split; [assumption | exact I].
  - destruct ws as [|w' ws]; simpl in *.
    + destruct Hb as [Hw _]. repeat split; assumption.
    + destruct Hb as [Hw Hb]. split; [assumption|]. apply IH; assumption.
Qed.

Lemma stepwise_app `{Platform} (target : float) (step : num) (v : float)
    (w2 w1 : list float) :
  stepwise target step (w2 ++ [hd v w1]) -> stepwise target step (w1 ++ [v]) ->
  stepwise target step ((w2 ++ w1) ++ [v]).
Proof.
  induction w2 as [|a w2 IH]; intros H2 H1; [exact H1|].
  destruct w2 as [|a' w2].
  - destruct H2 as [Ha _]. destruct w1 as [|b w1]; simpl in *.
    + split; [exact Ha | exact I].
    + split; [exact Ha | exact H1].
  - destruct H2 as [Ha H2]. split; [exact Ha|]. apply IH; assumption.
Qed.

Ltac ramp_ios :=
  repeat match goal with
         | |- Forall _ (_ :: _) => constructor; [unfold ramp_io; eauto |]
         | |- Forall _ [] => constructor
         end.

(** Whatever the budget and however the loop ends, the instrument has
    only seen level queries and level writes, the level is the last one
    written, every pause is the quotient of the step by the slew rate, and
    each level written is what one iteration makes of the level before:
    the level plus or minus the step, as doubles add, while the test finds
    it far, the target when it does not. *)
Lemma ramp_moves `{Platform} (n : nat) :
  forall (fuel : nat) (target : float) (s : state instrument),
    idle s ->
    exists l z,
      final (Keithley2470SafeForLGADs.ramp fuel n target s) = moved l z s
      /\ Forall ramp_io l
      /\ stepwise target (_volt_step s) (written l ++ [volt s])
      /\ Forall (fun t => pause (_volt_step s) (_slew_rate s) = inr t) z
      /\ (forall s', Keithley2470SafeForLGADs.ramp fuel n target s = Return tt s' ->
          (exists l', l = Wr (SOURCE_VOLT_LEV (NFloat target)) :: l')
          /\ length (written l) = S (length z)).
Proof.
  induction n as [|n IH]; intros fuel target s Hi.
  - exists [], []. simpl. rewrite moved_nil.
    split; [reflexivity|]. split; [constructor|]. split; [exact I|].
    split; [constructor|]. intros s' Hs'. discriminate Hs'.
  - rewrite (ramp_S fuel n target s Hi).
    destruct (far target (volt s) (_volt_step s)) as [e|[|]] eqn:Efar.
    + exists [Qy SOUR_VOLT_q], []. simpl final.
      split; [apply queried_moved|]. split; [ramp_ios|]. split; [exact I|].
      split; [constructor|]. intros s' Hs'. discriminate Hs'.
    + destruct (next_level target (volt s) (_volt_step s)) as [e|w] eqn:Enext.
      { exists [Qy SOUR_VOLT_q; Qy SOUR_VOLT_q; Qy SOUR_VOLT_q], []. simpl final.
        split; [rewrite !queried_moved, !moved_moved; reflexivity|].
        split; [ramp_ios|]. split; [exact I|].
        split; [constructor|]. intros s' Hs'. discriminate Hs'. }
      set (s1 := wrote (SOURCE_VOLT_LEV (NFloat w))
                   (queried SOUR_VOLT_q (queried SOUR_VOLT_q (queried SOUR_VOLT_q s)))).
      set (l1 := [Wr (SOURCE_VOLT_LEV (NFloat w));
                  Qy SOUR_VOLT_q; Qy SOUR_VOLT_q; Qy SOUR_VOLT_q]).
      assert (Es1 : s1 = moved l1 [] s).
      { subst s1 l1. destruct s as [? d ? ? ? ? ? ? ? ?]. destruct d. reflexivity. }
      assert (Hl1 : Forall ramp_io l1) by (subst l1; ramp_ios).
      assert (Hb1 : stepwise target (_volt_step s) (written l1 ++ [volt s])).
      { simpl. split; [|exact I]. left. split; assumption. }
      rewrite (sleep_then_ramp fuel n target s1).
      change (_slew_rate s1) with (_slew_rate s).
      change (_volt_step s1) with (_volt_step s).
      destruct (pause (_volt_step s) (_slew_rate s)) as [e|t] eqn:Epause.
      { exists l1, []. simpl final.
        split; [exact Es1|]. split; [assumption|]. split; [assumption|].
        split; [constructor|]. intros s' Hs'. discriminate Hs'. }
      set (s2 := record_sleep t s1).
      assert (Es2 : s2 = moved l1 [t] s) by (subst s2; rewrite Es1; reflexivity).
      assert (Hi2 : idle s2) by (rewrite Es2; apply idle_moved; assumption).
      destruct (IH fuel target s2 Hi2) as (l & z & Hf & Hl & Hb & Hz & Hr).
      exists (l ++ l1), (z ++ [t]).
      split; [rewrite Hf, Es2; apply moved_moved|].
      split; [apply Forall_app; split; assumption|].
      split.
      * rewrite written_app.
        change (written l1) with [w]. rewrite <- app_assoc.
        apply stepwise_snoc.
        -- exact Hb.
        -- left. split; assumption.
      * split.
        -- apply Forall_app. split.
           ++ change (_volt_step s2) with (_volt_step s) in Hz.
              change (_slew_rate s2) with (_slew_rate s) in Hz.
              rewrite Epause in Hz. exact Hz.
           ++ constructor; [reflexivity | constructor].
        -- intros s' Hs'. destruct (Hr s' Hs') as [[l' ->] Hlen].
           split; [eexists; reflexivity|].
           rewrite written_app, !length_app, Hlen. simpl. lia.
    + exists [Wr (SOURCE_VOLT_LEV (NFloat target)); Qy SOUR_VOLT_q], []. simpl final.
      split.
      { destruct s as [? d ? ? ? ? ? ? ? ?]. destruct d. reflexivity. }
      split; [ramp_ios|].
      split; [simpl; split; [right; split; [assumption | reflexivity] | exact I]|].
      split; [constructor|].
      intros s' _. split; [eexists; reflexivity | reflexivity].
Qed.

(** ** When the loop returns *)

Lemma arrives_unfold `{Platform} (n : nat) (target v : float) (step slew : num) :
  arrives (S n) target v step slew =
  match far target v step with
  | inr false => true
  | inr true =>
      match next_level target v step, pause step slew with
      | inr w, inr _ => arrives n target w step slew
      | _, _ => false
      end
  | inl _ => false
  end.
Proof. reflexivity. Qed.

Lemma arrives_S `{Platform} (n : nat) :
  forall (target v : float) (step slew : num),
    arrives n target v step slew = true -> arrives (S n) target v step slew = true.
Proof.
  induction n as [|n IH]; intros target v step slew Ha; [discriminate Ha|].
  rewrite arrives_unfold in Ha. rewrite arrives_unfold.
  destruct (far target v step) as [e|[|]]; try assumption.
  destruct (next_level target v step) as [e|w]; [discriminate Ha|].
  destruct (pause step slew) as [e|t]; [discriminate Ha|].
  apply (IH _ _ _ _ Ha).
Qed.

Lemma arrives_le `{Platform} (n m : nat) (target v : float) (step slew : num) :
  (n <= m)%nat -> arrives n target v step slew = true ->
  arrives m target v step slew = true.
Proof.
  induction 1 as [|m Hle IH]; intros Ha; [exact Ha|].
  apply arrives_S. apply IH. exact Ha.
Qed.

(** On the honest instrument the loop returns exactly when the recurrence
    on the level arrives. *)
Lemma ramp_returns_iff `{Platform} (n : nat) :
  forall (fuel : nat) (target : float) (s : state instrument),
    idle s ->
    (returns (Keithley2470SafeForLGADs.ramp fuel n target s)
     <-> arrives n target (volt s) (_volt_step s) (_slew_rate s) = true).
Proof.
  induction n as [|n IH]; intros fuel target s Hi.
  - simpl. split; [intros [] | discriminate].
  - rewrite (ramp_S fuel n target s Hi). rewrite arrives_unfold.
    destruct (far target (volt s) (_volt_step s)) as [e|[|]].
    + simpl. split; [intros [] | discriminate].
    + destruct (next_level target (volt s) (_volt_step s)) as [e|w].
      { simpl. split; [intros [] | discriminate]. }
      rewrite sleep_then_ramp.
      set (s1 := wrote (SOURCE_VOLT_LEV (NFloat w))
                   (queried SOUR_VOLT_q (queried SOUR_VOLT_q (queried SOUR_VOLT_q s)))).
      change (_slew_rate s1) with (_slew_rate s).
      change (_volt_step s1) with (_volt_step s).
      destruct (pause (_volt_step s) (_slew_rate s)) as [e|t].
      { simpl. split; [intros [] | discriminate]. }
      assert (Hi2 : idle (record_sleep t s1)).
      { unfold idle in *. simpl. exact Hi. }
      rewrite (IH fuel target (record_sleep t s1) Hi2). reflexivity.
    + simpl. split; [reflexivity | intros _; exact I].
Qed.

(** A step the level absorbs: if one iteration finds the level far and
    writes the level it found, and the pause is accepted, every iteration
    does, and the loop never ends. *)
Lemma ramp_stuck `{Platform} (n : nat) :
  forall (fuel : nat) (target : float) (s : state instrument),
    idle s ->
    far target (volt s) (_volt_step s) = inr true ->
    next_level target (volt s) (_volt_step s) = inr (volt s) ->
    (exists t, pause (_volt_step s) (_slew_rate s) = inr t) ->
    ~ halts (Keithley2470SafeForLGADs.ramp fuel n target s).
Proof.
  induction n as [|n IH]; intros fuel target s Hi Hfar Hnext [t Hp];
    [intros Hh; exact Hh|].
  rewrite (ramp_S fuel n target s Hi), Hfar, Hnext.
  rewrite sleep_then_ramp.
  set (s1 := wrote (SOURCE_VOLT_LEV (NFloat (volt s)))
               (queried SOUR_VOLT_q (queried SOUR_VOLT_q (queried SOUR_VOLT_q s)))).
  change (_slew_rate s1) with (_slew_rate s).
  change (_volt_step s1) with (_volt_step s).
  rewrite Hp.
  apply IH.
  - unfold idle in *. simpl. exact Hi.
  - exact Hfar.
  - exact Hnext.
  - exists t. exact Hp.
Qed.

(** ** [set_source_voltage] of the subclass on an idle driver *)

Lemma safe_set_source_voltage_idle `{Platform} (fuel : nat) (v : pyval)
    (s : state instrument) :
  idle s ->
  Keithley2470SafeForLGADs.set_source_voltage fuel v s =
  match coerce_polarity (_polarity s) v with
  | inl e => Raise e s
  | inr target =>
      if output_on s
      then Keithley2470SafeForLGADs.ramp fuel fuel target (queried OUTPUT_STATE_q s)
      else Return tt (wrote (SOURCE_VOLT_LEV (NFloat target))
                        (queried OUTPUT_STATE_q s))
  end.
Proof.
  intros Hi. unfold Keithley2470SafeForLGADs.set_source_voltage.
  unfold bind at 1. unfold gets at 1.
  unfold bind at 1.
  destruct (coerce_polarity (_polarity s) v) as [e|target]; [reflexivity|].
  unfold lift, ret. unfold bind at 1.
  rewrite (output_idle fuel s Hi).
  destruct (output_on s); reflexivity.
Qed.

(** A value that is no number is rejected by the power. *)
Lemma coerce_polarity_not_number `{Platform} (p : Z) (v : pyval) :
  as_number v = None -> coerce_polarity p v = inl TypeError.
Proof. destruct v; try discriminate; reflexivity. Qed.

(** The target for the level 0, on an object past its constructor. *)
Lemma coerce_polarity_zero `{Platform} (p : Z) :
  p = 1 \/ p = -1 ->
  exists target, coerce_polarity p (PyInt 0) = inr target /\ is_zero target = true.
Proof.
  intros [-> | ->].
  - exists (S754_zero false). split; reflexivity.
  - exists (S754_zero true). split; reflexivity.
Qed.

Lemma idle_safe_on (d : instrument) (polarity : Z) (slew step : num) :
  dev_outbuf d = [] -> idle (safe_on d polarity slew step).
Proof. intros Hb. unfold idle, safe_on. simpl. auto. Qed.

Lemma bounded_stepsb_spec (step : Q) (vs : list Q) :
  bounded_steps step vs -> bounded_stepsb step vs = true.
Proof.
  induction vs as [|a vs IH]; [reflexivity|].
  destruct vs as [|b vs]; [reflexivity|].
  intros [Hab Hb]. cbn [bounded_stepsb].
  apply andb_true_iff. split; [apply Qle_bool_iff; exact Hab | exact (IH Hb)].
Qed.

(** ** The ramp *)

(** C4 (as stated).  A positive step does not make the loop terminate:
    at 1000 V with a step of 1e-14 V, on the instrument that reports each
    level as written, the level the loop writes is 1000 V again, and no
    number of iterations ends the loop. *)
Lemma C4_counterexample :
  let s := safe_on (bench true (float_of_Z 1000)) 1 (NInt 10)
             (NFloat (dec 1 (-14))) in
  idle s /\ gt_num (dec 1 (-14)) (NInt 0) = true
  /\ forall fuel n : nat,
       ~ halts (Keithley2470SafeForLGADs.ramp fuel n zero s).
Proof.
  intros s.
  assert (Hi : idle s) by (apply idle_safe_on; reflexivity).
  split; [exact Hi|]. split; [reflexivity|].
  intros fuel n. apply ramp_stuck.
  - exact Hi.
  - vm_compute. reflexivity.
  - vm_compute. reflexivity.
  - eexists. vm_compute. reflexivity.
Qed.

(** C4 (amended).  On an instrument that reports each level as written,
    one iteration of the loop either finds the test
    [((target - level)**2)**.5 > volt_step] false, writes the target and
    leaves, or writes the double nearest to the level plus or minus the
    step, pauses and goes round again; it raises what the test, the
    addition or the pause raise.  The loop returns exactly when this
    recurrence on the level arrives within the budget, and a step that
    the level absorbs never ends it. *)
Theorem C4_ramp_terminates `{Platform} (fuel n : nat) (target : float)
    (s : state instrument) :
  idle s ->
  Keithley2470SafeForLGADs.ramp fuel (S n) target s =
    match far target (volt s) (_volt_step s) with
    | inl e => Raise e (queried SOUR_VOLT_q s)
    | inr false =>
        Return tt (wrote (SOURCE_VOLT_LEV (NFloat target)) (queried SOUR_VOLT_q s))
    | inr true =>
        match next_level target (volt s) (_volt_step s) with
        | inl e =>
            Raise e (queried SOUR_VOLT_q (queried SOUR_VOLT_q (queried SOUR_VOLT_q s)))
        | inr w =>
            (Keithley2470SafeForLGADs.ramp_sleep ;;
             Keithley2470SafeForLGADs.ramp fuel n target)
              (wrote (SOURCE_VOLT_LEV (NFloat w))
                 (queried SOUR_VOLT_q (queried SOUR_VOLT_q (queried SOUR_VOLT_q s))))
        end
    end
  /\ (returns (Keithley2470SafeForLGADs.ramp fuel n target s)
      <-> arrives n target (volt s) (_volt_step s) (_slew_rate s) = true)
  /\ (far target (volt s) (_volt_step s) = inr true ->
      next_level target (volt s) (_volt_step s) = inr (volt s) ->
      (exists t, pause (_volt_step s) (_slew_rate s) = inr t) ->
      forall m, ~ halts (Keithley2470SafeForLGADs.ramp fuel m target s)).
Proof.
  intros Hi. split; [exact (ramp_S fuel n target s Hi)|].
  split; [exact (ramp_returns_iff n fuel target s Hi)|].
  intros Hfar Hnext Hp m. exact (ramp_stuck m fuel target s Hi Hfar Hnext Hp).
Qed.

Lemma C4_ramp_terminates_witness :
  let s := safe_on (bench true (float_of_Z 5)) 1 (NInt 10) (NFloat (dec 25 (-1))) in
  idle s
  /\ arrives 3 zero (volt s) (_volt_step s) (_slew_rate s) = true
  /\ returns (Keithley2470SafeForLGADs.ramp 0 3 zero s).
Proof.
  intros s.
  assert (Hi : idle s) by (apply idle_safe_on; reflexivity).
  assert (Ha : arrives 3 zero (volt s) (_volt_step s) (_slew_rate s) = true)
    by (vm_compute; reflexivity).
  split; [exact Hi|]. split; [exact Ha|].
  exact (proj2 (proj1 (proj2 (C4_ramp_terminates 0 3 zero s Hi))) Ha).
Defined.

(** C3 (as stated).  Consecutive levels can differ by more than the step:
    from 0 V with a step of 0.1 V the loop writes 0.2 and then
    0.30000000000000004, which are further apart than the double 0.1. *)
Lemma C3_counterexample :
  let s := safe_on (bench true zero) 1 (NInt 10) (NFloat (dec 1 (-1))) in
  let r := Keithley2470SafeForLGADs.set_source_voltage 20 (PyInt 1) s in
  idle s /\ output_on s = true /\ returns r
  /\ ~ bounded_steps (float_to_Q (dec 1 (-1)))
         (map float_to_Q (written (log (final r)) ++ [volt s])).
Proof.
  intros s r.
  split; [apply idle_safe_on; reflexivity|]. split; [reflexivity|].
  split; [vm_compute; exact I|].
  intros Hb. apply bounded_stepsb_spec in Hb.
  vm_compute in Hb. discriminate Hb.
Qed.

(** C3 (amended).  With the output on, on an instrument that reports each
    level as written, each level that [set_source_voltage] writes is what
    one iteration of the loop makes of the level before it (the first one
    of the level the instrument had): the double nearest to that level
    plus or minus [volt_step] while the test finds the target further than
    one step, the target when it does not.  This holds for every
    requested value, every starting level and every budget, however the
    call ends. *)
Theorem C3_ramp_steps_rounded `{Platform} (fuel : nat) (requested : pyval)
    (s : state instrument) :
  idle s -> output_on s = true ->
  exists ws,
    written (log (final
      (Keithley2470SafeForLGADs.set_source_voltage fuel requested s)))
    = ws ++ written (log s)
    /\ match coerce_polarity (_polarity s) requested with
       | inr target => stepwise target (_volt_step s) (ws ++ [volt s])
       | inl _ => ws = []
       end.
Proof.
  intros Hi Hon.
  rewrite (safe_set_source_voltage_idle fuel requested s Hi).
  destruct (coerce_polarity (_polarity s) requested) as [e|target].
  - exists []. split; reflexivity.
  - rewrite Hon.
    destruct (ramp_moves fuel fuel target (queried OUTPUT_STATE_q s)
                (idle_queried _ _ Hi)) as (l & z & -> & _ & Hb & _).
    exists (written l). split.
    + unfold log. simpl. rewrite written_app. reflexivity.
    + exact Hb.
Qed.

Lemma C3_ramp_steps_rounded_witness :
  let s := safe_on (bench true zero) (-1) (NInt 10) (NFloat (dec 25 (-1))) in
  idle s /\ output_on s = true
  /\ exists ws,
      written (log (final
        (Keithley2470SafeForLGADs.set_source_voltage 10 (PyInt 10) s)))
      = ws ++ written (log s)
      /\ match coerce_polarity (_polarity s) (PyInt 10) with
         | inr target => stepwise target (_volt_step s) (ws ++ [volt s])
         | inl _ => ws = []
         end.
Proof.
  intros s.
  assert (Hi : idle s) by (apply idle_safe_on; reflexivity).
  split; [exact Hi|]. split; [reflexivity|].
  exact (C3_ramp_steps_rounded 10 (PyInt 10) s Hi eq_refl).
Defined.

(** C2 (as stated).  The level written is not always
    [polarity * |requested|]: for 1e-200 the square underflows, and the
    call returns having written 0.0. *)
Lemma C2_counterexample :
  let s := safe_on (bench false zero) 1 (NInt 10) (NFloat (dec 25 (-1))) in
  let r := Keithley2470SafeForLGADs.set_source_voltage 0 (PyFloat (dec 1 (-200))) s in
  returns r
  /\ hd_error (written (log (final r))) = Some zero
  /\ feq zero (fmul (float_of_Z 1) (SFabs (dec 1 (-200)))) = false.
Proof. vm_compute. split; [exact I | split; reflexivity]. Qed.

(** C2 (amended).  The target is the double
    [polarity * (requested ** 2) ** .5], which the driver computes in
    place of [polarity * |requested|].  When that computation raises (a
    value that is no number, a square beyond the doubles) the call raises
    before anything is sent.  Otherwise, for every polarity and for the
    output on or off: once [set_source_voltage] has returned, the level
    last written to the instrument is the target, and it is the level the
    instrument holds.  With the output off the call always returns; with
    the output on it returns exactly when the ramp arrives. *)
Theorem C2_set_source_voltage_reaches_target `{Platform} (fuel : nat)
    (requested : pyval) (s : state instrument) :
  idle s ->
  match coerce_polarity (_polarity s) requested with
  | inl e =>
      Keithley2470SafeForLGADs.set_source_voltage fuel requested s = Raise e s
  | inr target =>
      (forall s',
          Keithley2470SafeForLGADs.set_source_voltage fuel requested s
          = Return tt s' ->
          hd_error (written (log s')) = Some target /\ volt s' = target)
      /\ (output_on s = false ->
          returns (Keithley2470SafeForLGADs.set_source_voltage fuel requested s))
      /\ (output_on s = true ->
          (returns (Keithley2470SafeForLGADs.set_source_voltage fuel requested s)
           <-> arrives fuel target (volt s) (_volt_step s) (_slew_rate s) = true))
  end.
Proof.
  intros Hi.
  rewrite (safe_set_source_voltage_idle fuel requested s Hi).
  destruct (coerce_polarity (_polarity s) requested) as [e|target];
    [reflexivity|].
  pose proof (idle_queried OUTPUT_STATE_q s Hi) as Hi1.
  split; [|split].
  - intros s' Hs'. destruct (output_on s).
    + destruct (ramp_moves fuel fuel target _ Hi1) as (l & z & Hf & _ & _ & _ & Hr).
      destruct (Hr s' Hs') as [[l' ->] _].
      rewrite Hs' in Hf. simpl in Hf. subst s'.
      split; reflexivity.
    + inversion Hs'. split; reflexivity.
  - intros ->. exact I.
  - intros ->. exact (ramp_returns_iff fuel fuel target _ Hi1).
Qed.

Lemma C2_set_source_voltage_reaches_target_witness :
  let s := safe_on (bench true zero) (-1) (NInt 10) (NFloat (dec 25 (-1))) in
  idle s
  /\ coerce_polarity (_polarity s) (PyInt 10) = inr (float_of_Z (-10))
  /\ returns (Keithley2470SafeForLGADs.set_source_voltage 5 (PyInt 10) s).
Proof.
  intros s.
  assert (Hi : idle s) by (apply idle_safe_on; reflexivity).
  pose proof (C2_set_source_voltage_reaches_target 5 (PyInt 10) s Hi) as Hc.
  change (coerce_polarity (_polarity s) (PyInt 10))
    with (@inr exn float (float_of_Z (-10))) in Hc.
  destruct Hc as (_ & _ & Hon).
  split; [exact Hi|]. split; [reflexivity|].
  apply (Hon eq_refl). vm_compute. reflexivity.
Defined.

(** ** [set_output] *)

Lemma base_set_output_off_idle `{Platform} (fuel : nat) (s : state instrument) :
  idle s ->
  Keithley2470.set_output fuel (PyStr "off") s = Return tt (wrote (OUTPUT "OFF") s).
Proof.
  intros Hi. unfold Keithley2470.set_output, bind. simpl.
  apply write_idle. exact Hi.
Qed.

Lemma safe_set_output_off_eq `{Platform} (fuel : nat) (s : state instrument) :
  idle s ->
  Keithley2470SafeForLGADs.set_output fuel (PyStr "off") s =
  if output_on s
  then (Keithley2470SafeForLGADs.set_source_voltage fuel (PyInt 0) ;;
        Keithley2470.set_output fuel (PyStr "off")) (queried OUTPUT_STATE_q s)
  else Return tt (queried OUTPUT_STATE_q s).
Proof.
  intros Hi. unfold Keithley2470SafeForLGADs.set_output.
  unfold bind at 1. simpl lift. unfold ret at 1.
  change (String.eqb (str_lower "off") "off") with true. cbv iota.
  unfold bind at 1. rewrite (output_idle fuel s Hi).
  destruct (output_on s); reflexivity.
Qed.

Lemma safe_set_output_on_eq `{Platform} (fuel : nat) (s : state instrument) :
  idle s -> output_on s = true ->
  Keithley2470SafeForLGADs.set_output fuel (PyStr "on") s =
  Return tt (queried OUTPUT_STATE_q s).
Proof.
  intros Hi Hon. unfold Keithley2470SafeForLGADs.set_output.
  unfold bind at 1. simpl lift. unfold ret at 1.
  change (String.eqb (str_lower "on") "off") with false. cbv iota.
  unfold bind at 1. rewrite (output_idle fuel s Hi), Hon. reflexivity.
Qed.

Lemma Forall_before_off_ramp (l : list io) :
  Forall ramp_io l -> Forall before_off l.
Proof.
  induction 1 as [|e l He _ IH]; constructor; [right; exact He | exact IH].
Qed.

(** *** Calls that only step *)

Lemma gentle_refl `{Platform} (target : float) (s : state instrument) :
  gentle target s s.
Proof.
  exists [], []. split; [symmetry; apply moved_nil|].
  split; [constructor | exact I].
Qed.

Lemma gentle_trans `{Platform} (target : float) (s s' s'' : state instrument) :
  gentle target s s' -> gentle target s' s'' -> gentle target s s''.
Proof.
  intros (l1 & z1 & -> & F1 & H1) (l2 & z2 & -> & F2 & H2).
  exists (l2 ++ l1), (z2 ++ z1). split; [apply moved_moved|].
  split; [apply Forall_app; split; assumption|].
  rewrite written_app. apply stepwise_app; assumption.
Qed.

Lemma gentle_output_query `{Platform} (target : float) (s : state instrument) :
  gentle target s (queried OUTPUT_STATE_q s).
Proof.
  exists [Qy OUTPUT_STATE_q], []. split; [apply queried_moved|].
  split; [constructor; [left; reflexivity | constructor] | exact I].
Qed.

Lemma gentle_idle `{Platform} (target : float) (s s' : state instrument) :
  gentle target s s' -> idle s -> idle s'.
Proof. intros (l & z & -> & _). apply idle_moved. Qed.

Lemma gentle_keeps `{Platform} (target : float) (s s' : state instrument) :
  gentle target s s' ->
  klass s' = klass s /\ output_on s' = output_on s
  /\ _volt_step s' = _volt_step s /\ _slew_rate s' = _slew_rate s
  /\ _polarity s' = _polarity s.
Proof. intros (l & z & -> & _). repeat split. Qed.

Lemma gentle_log `{Platform} (target : float) (s s' : state instrument) :
  gentle target s s' ->
  exists l, log s' = l ++ log s /\ Forall before_off l
            /\ stepwise target (_volt_step s) (written l ++ [volt s])
            /\ volt s' = hd (volt s) (written l).
Proof.
  intros (l & z & -> & Hl & Hb). exists l.
  split; [reflexivity|]. split; [exact Hl|]. split; [exact Hb | reflexivity].
Qed.

Lemma gentle_ramp `{Platform} (fuel n : nat) (target : float)
    (s : state instrument) :
  idle s -> gentle target s (final (Keithley2470SafeForLGADs.ramp fuel n target s)).
Proof.
  intros Hi.
  destruct (ramp_moves n fuel target s Hi) as (l & z & Hf & Hl & Hb & _).
  exists l, z. split; [exact Hf|].
  split; [apply Forall_before_off_ramp; exact Hl | exact Hb].
Qed.

(** The subclass's [set_source_voltage] with the output on, however it
    ends. *)
Lemma gentle_set_source_voltage `{Platform} (fuel : nat) (v : pyval)
    (target : float) (s : state instrument) :
  idle s -> output_on s = true ->
  coerce_polarity (_polarity s) v = inr target ->
  gentle target s (final (Keithley2470SafeForLGADs.set_source_voltage fuel v s)).
Proof.
  intros Hi Hon Ec.
  rewrite (safe_set_source_voltage_idle fuel v s Hi), Ec, Hon.
  apply (gentle_trans target s (queried OUTPUT_STATE_q s));
    [apply gentle_output_query|].
  apply gentle_ramp. apply idle_queried. exact Hi.
Qed.

(** When it returns, the target is the level. *)
Lemma set_source_voltage_returned `{Platform} (fuel : nat) (v : pyval)
    (target : float) (s s' : state instrument) :
  idle s -> coerce_polarity (_polarity s) v = inr target ->
  Keithley2470SafeForLGADs.set_source_voltage fuel v s = Return tt s' ->
  hd_error (written (log s')) = Some target /\ volt s' = target.
Proof.
  intros Hi Ec Hs'.
  rewrite (safe_set_source_voltage_idle fuel v s Hi), Ec in Hs'.
  destruct (output_on s).
  - destruct (ramp_moves fuel fuel target _ (idle_queried OUTPUT_STATE_q s Hi))
      as (l & z & Hf & _ & _ & _ & Hr).
    destruct (Hr s' Hs') as [[l' ->] _].
    rewrite Hs' in Hf. simpl in Hf. subst s'. split; reflexivity.
  - inversion Hs'. split; reflexivity.
Qed.

Lemma returns_inv {St A : Type} (r : result St A) :
  returns r -> exists a s, r = Return a s.
Proof. destruct r; simpl; intros Hr; try contradiction. eauto. Qed.

(** [set_output('off')] with the output on: the ramp, then the command. *)
Lemma set_output_off_on `{Platform} (fuel : nat) (target : float)
    (s : state instrument) :
  idle s -> output_on s = true ->
  coerce_polarity (_polarity s) (PyInt 0) = inr target ->
  let r := Keithley2470SafeForLGADs.set_output fuel (PyStr "off") s in
  exists l z,
    Forall before_off l
    /\ stepwise target (_volt_step s) (written l ++ [volt s])
    /\ ((returns r /\ final r = wrote (OUTPUT "OFF") (moved l z s)
         /\ exists ws, written l = target :: ws)
        \/ (~ returns r /\ final r = moved l z s))
    /\ (returns r
        <-> arrives fuel target (volt s) (_volt_step s) (_slew_rate s) = true).
Proof.
  intros Hi Hon Ec r. subst r.
  set (s0 := queried OUTPUT_STATE_q s).
  assert (Hi0 : idle s0) by (apply idle_queried; exact Hi).
  assert (Eoff : Keithley2470SafeForLGADs.set_output fuel (PyStr "off") s =
                 match Keithley2470SafeForLGADs.ramp fuel fuel target
                         (queried OUTPUT_STATE_q s0) with
                 | Return _ s1 => Keithley2470.set_output fuel (PyStr "off") s1
                 | Raise e s1 => Raise e s1
                 | Hang s1 => Hang s1
                 end).
  { rewrite (safe_set_output_off_eq fuel s Hi), Hon. fold s0.
    unfold bind at 1.
    rewrite (safe_set_source_voltage_idle fuel (PyInt 0) s0 Hi0).
    change (_polarity s0) with (_polarity s).
    change (output_on s0) with (output_on s).
    rewrite Ec, Hon. reflexivity. }
  rewrite Eoff. clear Eoff.
  set (s00 := queried OUTPUT_STATE_q s0).
  assert (Hi00 : idle s00) by (apply idle_queried; exact Hi0).
  assert (E00 : s00 = moved [Qy OUTPUT_STATE_q; Qy OUTPUT_STATE_q] [] s).
  { subst s00 s0. rewrite !queried_moved, moved_moved. reflexivity. }
  destruct (ramp_moves fuel fuel target s00 Hi00) as (l & z & Hf & Hl & Hb & _ & Hr).
  pose proof (ramp_returns_iff fuel fuel target s00 Hi00) as Hiff.
  change (volt s00) with (volt s) in Hiff, Hb.
  change (_volt_step s00) with (_volt_step s) in Hiff, Hb.
  change (_slew_rate s00) with (_slew_rate s) in Hiff.
  exists (l ++ [Qy OUTPUT_STATE_q; Qy OUTPUT_STATE_q]), (z ++ []).
  assert (Ew : written (l ++ [Qy OUTPUT_STATE_q; Qy OUTPUT_STATE_q]) = written l).
  { rewrite written_app. simpl. apply app_nil_r. }
  assert (Em : moved (l ++ [Qy OUTPUT_STATE_q; Qy OUTPUT_STATE_q]) (z ++ []) s
               = moved l z s00).
  { rewrite E00, moved_moved. reflexivity. }
  split.
  { apply Forall_app. split; [apply Forall_before_off_ramp; exact Hl|].
    repeat (constructor; [left; reflexivity|]). constructor. }
  split; [rewrite Ew; exact Hb|].
  rewrite Em, Ew.
  destruct (Keithley2470SafeForLGADs.ramp fuel fuel target s00)
    as [[] s1 | e s1 | s1] eqn:Er; simpl in Hf; subst s1.
  - rewrite (base_set_output_off_idle fuel _ (idle_moved l z s00 Hi00)).
    split.
    + left. split; [exact I|]. split; [reflexivity|].
      destruct (Hr _ eq_refl) as [[l' ->] _]. eexists. reflexivity.
    + split; [intros _; apply Hiff; exact I | intros _; exact I].
  - split.
    + right. split; [intros [] | reflexivity].
    + split; [intros [] | intros Ha; apply Hiff in Ha; destruct Ha].
  - split.
    + right. split; [intros [] | reflexivity].
    + split; [intros [] | intros Ha; apply Hiff in Ha; destruct Ha].
Qed.



(** C6.  [set_output] with the state the instrument already reports is
    a no-op on the instrument: the call returns after the one query of
    the output state, writes nothing, and leaves the settings of the
    instrument and the attributes of the driver as they were. *)
Theorem C6_set_output_idempotent `{Platform} (fuel : nat) (s : state instrument) :
  idle s ->
  exists s',
    Keithley2470SafeForLGADs.set_output fuel
      (PyStr (if output_on s then "on" else "off")) s = Return tt s'
    /\ log s' = Qy OUTPUT_STATE_q :: log s
    /\ writes (log s') = writes (log s)
    /\ dev_settings (_resource s') = dev_settings (_resource s)
    /\ idle s'
    /\ (_polarity s', _slew_rate s', _volt_step s', atexit_registry s', slept s')
       = (_polarity s, _slew_rate s, _volt_step s, atexit_registry s, slept s).
Proof.
  intros Hi. exists (queried OUTPUT_STATE_q s).
  split; [|repeat split; apply Hi].
  destruct (output_on s) eqn:Hon.
  - apply safe_set_output_on_eq; assumption.
  - rewrite (safe_set_output_off_eq fuel s Hi), Hon. reflexivity.
Qed.

Lemma C6_set_output_idempotent_witness :
  let s := safe_on (bench false (float_of_Z 3)) 1 (NInt 10) (NFloat (dec 25 (-1))) in
  idle s
  /\ exists s',
      Keithley2470SafeForLGADs.set_output 0 (PyStr "off") s = Return tt s'
      /\ log s' = Qy OUTPUT_STATE_q :: log s
      /\ writes (log s') = writes (log s)
      /\ dev_settings (_resource s') = dev_settings (_resource s)
      /\ idle s'
      /\ (_polarity s', _slew_rate s', _volt_step s', atexit_registry s', slept s')
         = (_polarity s, _slew_rate s, _volt_step s, atexit_registry s, slept s).
Proof.
  intros s.
  assert (Hi : idle s) by (apply idle_safe_on; reflexivity).
  split; [exact Hi|].
  exact (C6_set_output_idempotent 0 s Hi).
Defined.

(** ** What the operations leave alone *)

Section Frame.
Context {R : Type} `{Resource R}.

Lemma keeps_ret {A : Type} (a : A) : keeps (R:=R) (ret a).
Proof. intros s. reflexivity. Qed.

Lemma keeps_raise {A : Type} (e : exn) : keeps (R:=R) (A:=A) (raise e).
Proof. intros s. reflexivity. Qed.

Lemma keeps_gets {A : Type} (f : state R -> A) : keeps (gets f).
Proof. intros s. reflexivity. Qed.

Lemma keeps_lift {A : Type} (x : exn + A) : keeps (R:=R) (lift x).
Proof. intros s. destruct x; reflexivity. Qed.

Lemma keeps_modify (f : state R -> state R) :
  (forall s, config (f s) = config s) -> keeps (modify f).
Proof. intros Hf s. apply Hf. Qed.

Lemma keeps_bind {A B : Type} (c : M (state R) A) (k : A -> M (state R) B) :
  keeps c -> (forall a, keeps (k a)) -> keeps (bind c k).
Proof.
  intros Hc Hk s. unfold bind. specialize (Hc s).
  destruct (c s) as [a s1|e s1|s1]; simpl in *; [|assumption|assumption].
  rewrite (Hk a s1). exact Hc.
Qed.

Lemma keeps_sleep (t : float) : keeps (R:=R) (sleep t).
Proof. intros s. unfold sleep. destruct (sleep_rejects t); reflexivity. Qed.

Lemma keeps_spin (cond : state R -> bool) (fuel : nat) : keeps (spin cond fuel).
Proof.
  induction fuel as [|n IH]; intros s; simpl; destruct (cond s); try reflexivity.
  apply (keeps_bind (sleep (dec 1 (-1))) (fun _ => spin cond n));
    [apply keeps_sleep | intros _; exact IH].
Qed.

Lemma keeps_resource_write (m : scpi) : keeps (_resource_write m).
Proof. intros s. reflexivity. Qed.

Lemma keeps_resource_read : keeps _resource_read.
Proof.
  intros s. unfold _resource_read.
  destruct (resource_read (_resource s)) as [[e|a] r]; reflexivity.
Qed.

Lemma keeps_resource_query (m : scpi) : keeps (_resource_query m).
Proof.
  intros s. unfold _resource_query.
  destruct (resource_query m (_resource s)) as [[e|a] r]; reflexivity.
Qed.

Lemma keeps_set_is_writing (b : bool) : keeps (R:=R) (modify (set_is_writing b)).
Proof. intros s. reflexivity. Qed.

Lemma keeps_set_is_reading (b : bool) : keeps (R:=R) (modify (set_is_reading b)).
Proof. intros s. reflexivity. Qed.

End Frame.

Create HintDb keeps.
#[export] Hint Resolve keeps_ret keeps_raise keeps_gets keeps_lift keeps_sleep
  keeps_spin keeps_resource_write keeps_resource_read keeps_resource_query
  keeps_set_is_writing keeps_set_is_reading : keeps.

Ltac keeps_step :=
  match goal with
  | |- keeps (bind _ _) => apply keeps_bind; [|intros]
  | |- keeps (if ?b then _ else _) => destruct b
  | |- keeps (match ?x with _ => _ end) => destruct x
  | |- keeps _ => solve [auto with keeps]
  end.

Ltac keeps_all := repeat keeps_step.

Section FrameMethods.
Context {R : Type} `{Resource R} `{Platform}.

Lemma keeps_write (fuel : nat) (m : scpi) : keeps (Keithley2470.write fuel m).
Proof. unfold Keithley2470.write. keeps_all. Qed.

Lemma keeps_read (fuel : nat) : keeps (Keithley2470.read fuel).
Proof. unfold Keithley2470.read. keeps_all. Qed.

Lemma keeps_query (fuel : nat) (m : scpi) : keeps (Keithley2470.query fuel m).
Proof. unfold Keithley2470.query. keeps_all. Qed.

#[local] Hint Resolve keeps_write keeps_read keeps_query : keeps.

Lemma keeps_base_set_output (fuel : nat) (v : pyval) :
  keeps (Keithley2470.set_output fuel v).
Proof. unfold Keithley2470.set_output. keeps_all. Qed.

Lemma keeps_output (fuel : nat) : keeps (Keithley2470.output fuel).
Proof. unfold Keithley2470.output. keeps_all. Qed.

Lemma keeps_get_source_voltage (fuel : nat) :
  keeps (Keithley2470.get_source_voltage fuel).
Proof. unfold Keithley2470.get_source_voltage. keeps_all. Qed.

Lemma keeps_base_set_source_voltage (v : pyval) :
  keeps (Keithley2470.set_source_voltage v).
Proof. unfold Keithley2470.set_source_voltage. keeps_all. Qed.

Lemma keeps_set_source_current_limit (v : pyval) :
  keeps (Keithley2470.set_source_current_limit v).
Proof. unfold Keithley2470.set_source_current_limit. keeps_all. Qed.

Lemma keeps_get_source_current_limit (fuel : nat) :
  keeps (Keithley2470.get_source_current_limit fuel).
Proof. unfold Keithley2470.get_source_current_limit. keeps_all. Qed.

Lemma keeps_beep (f t : pyval) : keeps (Keithley2470.beep f t).
Proof. unfold Keithley2470.beep. keeps_all. Qed.

Lemma keeps_measure_voltage (fuel : nat) : keeps (Keithley2470.measure_voltage fuel).
Proof. unfold Keithley2470.measure_voltage. keeps_all. Qed.

Lemma keeps_measure_current (fuel : nat) : keeps (Keithley2470.measure_current fuel).
Proof. unfold Keithley2470.measure_current. keeps_all. Qed.

#[local] Hint Resolve keeps_base_set_output keeps_output keeps_get_source_voltage
  keeps_base_set_source_voltage keeps_set_source_current_limit
  keeps_get_source_current_limit keeps_beep keeps_measure_voltage
  keeps_measure_current : keeps.

Lemma keeps_ramp_sleep : keeps (R:=R) Keithley2470SafeForLGADs.ramp_sleep.
Proof.
  unfold Keithley2470SafeForLGADs.ramp_sleep,
    Keithley2470SafeForLGADs.volt_step, Keithley2470SafeForLGADs.slew_rate.
  keeps_all.
Qed.

#[local] Hint Resolve keeps_ramp_sleep : keeps.

Lemma keeps_ramp (fuel n : nat) (target : float) :
  keeps (Keithley2470SafeForLGADs.ramp fuel n target).
Proof.
  induction n as [|n IH]; [intros s; reflexivity|].
  cbn [Keithley2470SafeForLGADs.ramp].
  unfold Keithley2470SafeForLGADs.volt_step. keeps_all; exact IH.
Qed.

#[local] Hint Resolve keeps_ramp : keeps.

Lemma keeps_safe_set_source_voltage (fuel : nat) (v : pyval) :
  keeps (Keithley2470SafeForLGADs.set_source_voltage fuel v).
Proof. unfold Keithley2470SafeForLGADs.set_source_voltage. keeps_all. Qed.

#[local] Hint Resolve keeps_safe_set_source_voltage : keeps.

Lemma keeps_safe_set_output (fuel : nat) (v : pyval) :
  keeps (Keithley2470SafeForLGADs.set_output fuel v).
Proof. unfold Keithley2470SafeForLGADs.set_output. keeps_all. Qed.

#[local] Hint Resolve keeps_safe_set_output : keeps.

Lemma keeps_set_source_voltage (fuel : nat) (v : pyval) :
  keeps (set_source_voltage fuel v).
Proof.
  intros s. unfold set_source_voltage. destruct (klass s).
  - apply keeps_base_set_source_voltage.
  - apply keeps_safe_set_source_voltage.
Qed.

Lemma keeps_set_output (fuel : nat) (v : pyval) : keeps (set_output fuel v).
Proof.
  intros s. unfold set_output. destruct (klass s).
  - apply keeps_base_set_output.
  - apply keeps_safe_set_output.
Qed.

#[local] Hint Resolve keeps_set_source_voltage keeps_set_output : keeps.

Lemma keeps_run_exitfunc (fuel : nat) (f : exitfunc) : keeps (run_exitfunc fuel f).
Proof. destruct f. unfold run_exitfunc. keeps_all. Qed.

Lemma keeps_call (fuel : nat) (m : method) : keeps (call fuel m).
Proof.
  destruct m; unfold call, ignore, Keithley2470.idn, Keithley2470.voltage,
    Keithley2470.current, Keithley2470SafeForLGADs.slew_rate,
    Keithley2470SafeForLGADs.volt_step; keeps_all.
Qed.

End FrameMethods.

(** ** Construction and the exit hook *)

Section Construction.
Context {R : Type} `{Resource R} `{Platform}.

(** What [Keithley2470.__init__] does once the identity is accepted and
    the exit hook registered keeps the configuration. *)
Lemma keeps_init_tail (fuel : nat) :
  keeps (Keithley2470.measure_voltage fuel ;;
         set_source_voltage fuel (PyInt 0) ;;
         set_output fuel (PyStr "off")).
Proof.
  apply keeps_bind; [apply keeps_measure_voltage | intros _].
  apply keeps_bind; [apply keeps_set_source_voltage | intros _].
  apply keeps_set_output.
Qed.

Lemma base_init_config (fuel : nat) (s s' : state R) :
  Keithley2470__init__ fuel s = Return tt s' ->
  config s' = (klass s, _polarity s, _slew_rate s, _volt_step s,
               _atexit :: atexit_registry s).
Proof.
  unfold Keithley2470__init__.
  unfold bind at 1. unfold modify at 1.
  unfold bind at 1. unfold modify at 1.
  unfold bind at 1. unfold _resource_query at 1. cbn [_resource set_is_reading set_is_writing].
  destruct (resource_query IDN_q (_resource s)) as [[e|a] r]; [discriminate|].
  unfold bind at 1. unfold modify at 1.
  unfold bind at 1. unfold gets at 1. cbn [_idn set_idn].
  destruct (negb (answer_contains "KEITHLEY" a)
            || negb (answer_contains "MODEL 2470" a)); [discriminate|].
  unfold bind at 1. unfold modify at 1.
  intros Hr. pose proof (keeps_init_tail fuel) as Hk.
  match type of Hr with ?c ?s1 = _ => specialize (Hk s1) end.
  rewrite Hr in Hk. exact Hk.
Qed.

Lemma safe_init_config (fuel : nat) (polarity : pyval) (slew step : num)
    (s s' : state R) :
  Keithley2470SafeForLGADs__init__ fuel polarity slew step s = Return tt s' ->
  exists p, (p = "positive" \/ p = "negative") /\ polarity = PyStr p
    /\ config s' = (klass s, if String.eqb p "positive" then 1 else -1,
                    slew, step, _atexit :: atexit_registry s).
Proof.
  unfold Keithley2470SafeForLGADs__init__.
  destruct polarity as [| |p|]; try discriminate.
  destruct (String.eqb p "positive") eqn:Ep;
    [|destruct (String.eqb p "negative") eqn:En]; simpl; try discriminate;
    unfold bind at 1; unfold modify at 1; intros Hr;
    apply base_init_config in Hr; exists p;
    (split; [|split; [reflexivity|rewrite Ep; exact Hr]]).
  - left. apply String.eqb_eq. exact Ep.
  - right. apply String.eqb_eq. exact En.
Qed.

End Construction.

(** ** The exit hook *)

Lemma set_source_voltage_returned_state `{Platform} (fuel : nat) (v : pyval)
    (target : float) (s s1 : state instrument) :
  idle s -> coerce_polarity (_polarity s) v = inr target ->
  Keithley2470SafeForLGADs.set_source_voltage fuel v s = Return tt s1 ->
  idle s1 /\ volt s1 = target /\ output_on s1 = output_on s.
Proof.
  intros Hi Ec Hs1.
  rewrite (safe_set_source_voltage_idle fuel v s Hi), Ec in Hs1.
  pose proof (idle_queried OUTPUT_STATE_q s Hi) as Hiq.
  destruct (output_on s) eqn:Hon.
  - destruct (ramp_moves fuel fuel target _ Hiq) as (l & z & Hf & _ & _ & _ & Hr).
    destruct (Hr s1 Hs1) as [[l' ->] _].
    rewrite Hs1 in Hf. simpl in Hf. subst s1.
    split; [apply idle_moved; exact Hiq|]. split; [reflexivity | exact Hon].
  - inversion Hs1. subst s1.
    split; [apply idle_wrote_volt; exact Hiq|]. split; [reflexivity | exact Hon].
Qed.

Lemma set_source_voltage_returns `{Platform} (fuel : nat) (v : pyval)
    (target : float) (s : state instrument) :
  idle s -> coerce_polarity (_polarity s) v = inr target ->
  (output_on s = false ->
   returns (Keithley2470SafeForLGADs.set_source_voltage fuel v s))
  /\ (output_on s = true ->
      (returns (Keithley2470SafeForLGADs.set_source_voltage fuel v s)
       <-> arrives fuel target (volt s) (_volt_step s) (_slew_rate s) = true)).
Proof.
  intros Hi Ec.
  rewrite (safe_set_source_voltage_idle fuel v s Hi), Ec.
  split; intros ->; [exact I|].
  exact (ramp_returns_iff fuel fuel target _ (idle_queried OUTPUT_STATE_q s Hi)).
Qed.

(** The exit hook on a [Keithley2470SafeForLGADs] object, on the honest
    instrument.  With the output off it writes the level 0 and returns.
    With the output on it ramps: it returns exactly when the ramp from
    the level arrives and the second ramp, which [set_output('off')]
    starts from the target, arrives too.  When it returns the level is 0
    and the output is off. *)
Lemma exit_hook_shuts_down `{Platform} (fuel : nat) (target : float)
    (s : state instrument) :
  idle s -> klass s = SafeForLGADs ->
  coerce_polarity (_polarity s) (PyInt 0) = inr target ->
  let r := run_exitfunc fuel _atexit s in
  (forall s', r = Return tt s' -> volt s' = target /\ output_on s' = false)
  /\ (output_on s = false -> returns r)
  /\ (output_on s = true ->
      (returns r
       <-> arrives fuel target (volt s) (_volt_step s) (_slew_rate s) = true
           /\ arrives fuel target target (_volt_step s) (_slew_rate s) = true)).
Proof.
  intros Hi Hk Ec r. subst r.
  pose proof (keeps_safe_set_source_voltage fuel (PyInt 0) s) as Hc.
  assert (Erun : run_exitfunc fuel _atexit s =
                 match Keithley2470SafeForLGADs.set_source_voltage fuel (PyInt 0) s with
                 | Return _ s1 =>
                     Keithley2470SafeForLGADs.set_output fuel (PyStr "off") s1
                 | Raise e s1 => Raise e s1
                 | Hang s1 => Hang s1
                 end).
  { unfold run_exitfunc, bind, set_source_voltage. rewrite Hk.
    destruct (Keithley2470SafeForLGADs.set_source_voltage fuel (PyInt 0) s)
      as [[] s1 | e s1 | s1]; simpl in Hc; try reflexivity.
    unfold set_output. unfold config in Hc.
    inversion Hc as [[Hk1 Hp1 Hsl1 Hst1 Hreg1]]. rewrite Hk1, Hk. reflexivity. }
  rewrite Erun. clear Erun.
  destruct (set_source_voltage_returns fuel (PyInt 0) target s Hi Ec)
    as [Hoff Hret].
  destruct (Keithley2470SafeForLGADs.set_source_voltage fuel (PyInt 0) s)
    as [[] s1 | e s1 | s1] eqn:E1; simpl in Hc.
  2:{ split; [intros s' Hs'; discriminate Hs'|].
      split; [exact Hoff|].
      intros Hon. split; [intros [] | intros [Ha _]].
      apply (Hret Hon) in Ha. destruct Ha. }
  2:{ split; [intros s' Hs'; discriminate Hs'|].
      split; [exact Hoff|].
      intros Hon. split; [intros [] | intros [Ha _]].
      apply (Hret Hon) in Ha. destruct Ha. }
  destruct (set_source_voltage_returned_state fuel (PyInt 0) target s s1 Hi Ec E1)
    as (Hi1 & Hv1 & Ho1).
  unfold config in Hc. injection Hc as Hk1 Hp1 Hsl1 Hst1 Hreg1.
  destruct (output_on s) eqn:Hon.
  - assert (Ec1 : coerce_polarity (_polarity s1) (PyInt 0) = inr target)
      by (rewrite Hp1; exact Ec).
    destruct (set_output_off_on fuel target s1 Hi1 Ho1 Ec1)
      as (l & z & _ & _ & Hcase & Hiff).
    rewrite Hv1 in Hiff.
    split; [|split; [discriminate|]].
    + intros s' Hs'. destruct Hcase as [(_ & Ef & ws & Ew) | (Hn & _)].
      * rewrite Hs' in Ef. simpl in Ef. subst s'.
        unfold volt, output_on, wrote, moved. simpl. rewrite Ew.
        split; reflexivity.
      * exfalso. apply Hn. rewrite Hs'. exact I.
    + intros _. split.
      * intros Hr. split; [apply (Hret eq_refl); exact I|].
        apply Hiff in Hr. rewrite Hst1, Hsl1 in Hr. exact Hr.
      * intros [_ Ha]. apply Hiff. rewrite Hst1, Hsl1. exact Ha.
  - rewrite (safe_set_output_off_eq fuel s1 Hi1), Ho1.
    split; [|split; [intros _; exact I | discriminate]].
    intros s' Hs'. inversion Hs'. subst s'.
    change (volt (queried OUTPUT_STATE_q s1)) with (volt s1).
    split; [exact Hv1 | exact Ho1].
Qed.

(** C8 (as stated).  Constructing a controller on a powered-up
    instrument leaves a callback in the exit registry, which was empty. *)
Lemma C8_counterexample :
  let r := Keithley2470SafeForLGADs__init__ 0 (PyStr "negative")
             default_slew_rate default_volt_step
             (new SafeForLGADs (bench false zero) []) in
  returns r /\ atexit_registry (final r) <> [].
Proof. vm_compute. split; [exact I | discriminate]. Qed.

(** C8 (amended).  Construction registers a process-exit hook: after a
    successful construction, of either class, the exit registry holds
    the closure [_atexit] on top of what it held before.  The hook sets
    the source voltage to 0 and then switches the output off, without
    any call from outside.  On a [Keithley2470SafeForLGADs] object and
    the honest instrument: with the output off it returns; with the
    output on it ramps down, and returns exactly when its ramps arrive;
    when it returns, the level is 0 and the output is off. *)
Theorem C8_constructor_registers_exit_hook `{Platform} :
  (forall (fuel : nat) (s s' : state instrument),
      Keithley2470__init__ fuel s = Return tt s' ->
      atexit_registry s' = _atexit :: atexit_registry s)
  /\ (forall (fuel : nat) (polarity : pyval) (slew step : num)
             (s s' : state instrument),
         Keithley2470SafeForLGADs__init__ fuel polarity slew step s = Return tt s' ->
         atexit_registry s' = _atexit :: atexit_registry s)
  /\ (forall fuel : nat,
         run_exitfunc (R:=instrument) fuel _atexit =
         (set_source_voltage fuel (PyInt 0) ;; set_output fuel (PyStr "off")))
  /\ (forall (fuel : nat) (target : float) (s : state instrument),
         idle s -> klass s = SafeForLGADs ->
         coerce_polarity (_polarity s) (PyInt 0) = inr target ->
         is_zero target = true ->
         let r := run_exitfunc fuel _atexit s in
         (forall s', r = Return tt s' ->
                     is_zero (volt s') = true /\ output_on s' = false)
         /\ (output_on s = false -> returns r)
         /\ (output_on s = true ->
             (returns r
              <-> arrives fuel target (volt s) (_volt_step s) (_slew_rate s) = true
                  /\ arrives fuel target target (_volt_step s) (_slew_rate s)
                     = true))).
Proof.
  split; [|split; [|split]].
  - intros fuel s s' Hr. apply base_init_config in Hr.
    unfold config in Hr. congruence.
  - intros fuel polarity slew step s s' Hr.
    apply safe_init_config in Hr. destruct Hr as (p & _ & _ & Hc).
    unfold config in Hc. congruence.
  - reflexivity.
  - intros fuel target s Hi Hk Ec Hz r.
    destruct (exit_hook_shuts_down fuel target s Hi Hk Ec) as (H1 & H2 & H3).
    split; [|split; [exact H2 | exact H3]].
    intros s' Hs'. destruct (H1 s' Hs') as [Hv Ho].
    split; [rewrite Hv; exact Hz | exact Ho].
Qed.

Lemma C8_constructor_registers_exit_hook_witness :
  let s := new SafeForLGADs (bench true (float_of_Z 5)) [] in
  let s' := final (Keithley2470SafeForLGADs__init__ 5 (PyStr "positive")
                     default_slew_rate default_volt_step s) in
  let u := safe_on (bench true (float_of_Z 5)) 1 (NInt 10) (NFloat (dec 25 (-1))) in
  Keithley2470SafeForLGADs__init__ 5 (PyStr "positive")
    default_slew_rate default_volt_step s = Return tt s'
  /\ atexit_registry s' = _atexit :: atexit_registry s
  /\ idle u /\ klass u = SafeForLGADs
  /\ coerce_polarity (_polarity u) (PyInt 0) = inr zero /\ is_zero zero = true
  /\ output_on u = true
  /\ returns (run_exitfunc 5 _atexit u).
Proof.
  intros s s' u.
  assert (Hr : Keithley2470SafeForLGADs__init__ 5 (PyStr "positive")
                 default_slew_rate default_volt_step s = Return tt s')
    by (vm_compute; reflexivity).
  assert (Hi : idle u) by (apply idle_safe_on; reflexivity).
  assert (Ec : coerce_polarity (_polarity u) (PyInt 0) = inr zero)
    by (vm_compute; reflexivity).
  pose proof C8_constructor_registers_exit_hook as (_ & H2 & _ & H4).
  destruct (H4 5%nat zero u Hi eq_refl Ec eq_refl) as (_ & _ & Hon).
  split; [exact Hr|].
  split; [exact (H2 5%nat (PyStr "positive") default_slew_rate
                    default_volt_step s s' Hr)|].
  split; [exact Hi|]. split; [reflexivity|].
  split; [exact Ec|]. split; [reflexivity|]. split; [reflexivity|].
  apply (Hon eq_refl). split; vm_compute; reflexivity.
Defined.

(** C9 (as stated).  Construction accepts a negative slew rate and a
    zero step and returns an object that holds them. *)
Lemma C9_counterexample :
  let r := Keithley2470SafeForLGADs__init__ 0 (PyStr "negative")
             (NInt (-1)) (NInt 0)
             (new SafeForLGADs (bench false zero) []) in
  returns r
  /\ num_positive (_slew_rate (final r)) = false
  /\ num_positive (_volt_step (final r)) = false.
Proof. vm_compute. split; [exact I|]. split; reflexivity. Qed.

(** C9 (amended).  [slew_rate] and [volt_step] are the values given to
    the constructor, which does not check them, and they are never
    changed afterwards: no operation of the object and no exit hook
    alters either, however the operation ends.  The defaults, 10 and
    2.5, are positive. *)
Theorem C9_ramp_parameters_fixed `{Platform} :
  (forall (fuel : nat) (polarity : pyval) (slew step : num)
          (s s' : state instrument),
      Keithley2470SafeForLGADs__init__ fuel polarity slew step s = Return tt s' ->
      _slew_rate s' = slew /\ _volt_step s' = step)
  /\ (forall (fuel : nat) (m : method) (s : state instrument),
         _slew_rate (final (call fuel m s)) = _slew_rate s
         /\ _volt_step (final (call fuel m s)) = _volt_step s)
  /\ (forall (fuel : nat) (f : exitfunc) (s : state instrument),
         _slew_rate (final (run_exitfunc fuel f s)) = _slew_rate s
         /\ _volt_step (final (run_exitfunc fuel f s)) = _volt_step s)
  /\ default_slew_rate = NInt 10 /\ default_volt_step = NFloat (dec 25 (-1))
  /\ num_positive default_slew_rate = true
  /\ num_positive default_volt_step = true.
Proof.
  split; [|split; [|split; [|repeat split]]].
  - intros fuel polarity slew step s s' Hr.
    apply safe_init_config in Hr. destruct Hr as (p & _ & _ & Hc).
    unfold config in Hc. split; congruence.
  - intros fuel m s. pose proof (keeps_call fuel m s) as Hc.
    unfold config in Hc. split; congruence.
  - intros fuel f s. pose proof (keeps_run_exitfunc fuel f s) as Hc.
    unfold config in Hc. split; congruence.
Qed.

Lemma C9_ramp_parameters_fixed_witness :
  let s := new SafeForLGADs (bench true (float_of_Z 5)) [] in
  let s' := final (Keithley2470SafeForLGADs__init__ 20 (PyStr "positive")
                     (NInt 7) (NFloat half) s) in
  Keithley2470SafeForLGADs__init__ 20 (PyStr "positive") (NInt 7) (NFloat half) s
  = Return tt s'
  /\ _slew_rate s' = NInt 7 /\ _volt_step s' = NFloat half.
Proof.
  intros s s'.
  assert (Hr : Keithley2470SafeForLGADs__init__ 20 (PyStr "positive")
                 (NInt 7) (NFloat half) s = Return tt s')
    by (vm_compute; reflexivity).
  split; [exact Hr|].
  exact (proj1 C9_ramp_parameters_fixed
           20%nat (PyStr "positive") (NInt 7) (NFloat half) s s' Hr).
Defined.

(** ** Argument checks *)

(** C10 (as stated).  A NaN frequency is a numeric argument for which
    none of [frequency < 200], [frequency > 5000], [duration > 1] holds,
    and [beep] raises. *)
Lemma C10_counterexample :
  let s := safe_on (bench true zero) 1 (NInt 10) (NFloat (dec 25 (-1))) in
  Keithley2470.beep (PyFloat nan) (PyFloat half) s = Raise ValueError s
  /\ flt nan (float_of_Z 200) = false
  /\ fgt nan (float_of_Z 5000) = false
  /\ fgt half one = false.
Proof. vm_compute. repeat split. Qed.

(** C10 (amended).  For int and float arguments [beep] first converts
    both to doubles; an int that has no double makes it raise [TypeError]
    ([ValueError] when the message cannot print the int).  Otherwise it
    raises, a [ValueError] and before anything
    is sent, exactly when [200 <= frequency <= 5000] is false or
    [duration > 1] is true as comparisons of doubles: for a frequency
    below 200 or above 5000, and also for a NaN frequency.  The duration
    has no lower bound: for a frequency in [200, 5000] and any duration
    that is not above 1 (zero, negative and NaN ones included) the call
    returns and the instrument has received exactly one more call, the
    write of the beeper command. *)
Theorem C10_beep_domain `{Platform} (frequency time : pyval) (nf nt : num)
    (s : state instrument) :
  as_number frequency = Some nf -> as_number time = Some nt ->
  match to_float nf, to_float nt with
  | inr f, inr t =>
      ((exists e s', Keithley2470.beep frequency time s = Raise e s')
       <-> (fle (float_of_Z 200) f && fle f (float_of_Z 5000) = false
            \/ fgt t one = true))
      /\ (fle (float_of_Z 200) f && fle f (float_of_Z 5000) = false
          \/ fgt t one = true ->
          Keithley2470.beep frequency time s = Raise ValueError s)
      /\ (fle (float_of_Z 200) f = true -> fle f (float_of_Z 5000) = true ->
          fgt t one = false ->
          Keithley2470.beep frequency time s
          = Return tt (wrote (SYSTEM_BEEPER f t) s)
          /\ log (wrote (SYSTEM_BEEPER f t) s) = Wr (SYSTEM_BEEPER f t) :: log s)
      /\ (is_nan f = true ->
          Keithley2470.beep frequency time s = Raise ValueError s)
  | inr _, inl _ =>
      Keithley2470.beep frequency time s
      = Raise (if num_str_ok nt then TypeError else ValueError) s
  | inl _, _ =>
      Keithley2470.beep frequency time s
      = Raise (if num_str_ok nf && num_str_ok nt then TypeError else ValueError) s
  end.
Proof.
  intros Hf Ht.
  assert (Ef : Keithley2470.py_float frequency = to_float nf)
    by (destruct frequency; inversion Hf; reflexivity).
  assert (Et : Keithley2470.py_float time = to_float nt)
    by (destruct time; inversion Ht; reflexivity).
  assert (Pf : pyval_str_ok frequency = num_str_ok nf)
    by (destruct frequency; inversion Hf; reflexivity).
  assert (Pt : pyval_str_ok time = num_str_ok nt)
    by (destruct time; inversion Ht; reflexivity).
  unfold Keithley2470.beep. rewrite Ef, Et, Pf, Pt.
  destruct (to_float nf) as [e|f];
    [destruct (num_str_ok nf && num_str_ok nt); reflexivity|].
  destruct (to_float nt) as [e|t]; [destruct (num_str_ok nt); reflexivity|].
  destruct (fle (float_of_Z 200) f && fle f (float_of_Z 5000)) eqn:E1; cbn [negb].
  - destruct (fgt t one) eqn:E2.
    + split; [split; [intros _; right; reflexivity | intros _; eauto]|].
      split; [reflexivity|]. split; [intros _ _ Hc; discriminate Hc|].
      reflexivity.
    + split; [split; [intros (e & s' & Hc); discriminate Hc
                     | intros [Hc|Hc]; discriminate Hc]|].
      split; [intros [Hc|Hc]; discriminate Hc|].
      split; [intros _ _ _; split; reflexivity|].
      intros Hn. destruct f; try discriminate Hn. discriminate E1.
  - split; [split; [intros _; left; reflexivity | intros _; eauto]|].
    split; [reflexivity|]. split; [|reflexivity].
    intros H1 H2. rewrite H1, H2 in E1. discriminate E1.
Qed.

Lemma C10_beep_domain_witness :
  let s := safe_on (bench true zero) 1 (NInt 10) (NFloat (dec 25 (-1))) in
  as_number (PyInt 1000) = Some (NInt 1000)
  /\ as_number (PyFloat (dec (-5) (-1))) = Some (NFloat (dec (-5) (-1)))
  /\ Keithley2470.beep (PyInt 1000) (PyFloat (dec (-5) (-1))) s
     = Return tt (wrote (SYSTEM_BEEPER (float_of_Z 1000) (dec (-5) (-1))) s)
  /\ as_number (PyInt 100) = Some (NInt 100)
  /\ Keithley2470.beep (PyInt 100) (PyFloat (dec (-5) (-1))) s = Raise ValueError s
  /\ Keithley2470.beep (PyInt (10 ^ 400)) (PyFloat (dec (-5) (-1))) s
     = Raise TypeError s.
Proof.
  intros s.
  pose proof (C10_beep_domain (PyInt 1000) (PyFloat (dec (-5) (-1)))
                (NInt 1000) (NFloat (dec (-5) (-1))) s eq_refl eq_refl) as Hin.
  pose proof (C10_beep_domain (PyInt 100) (PyFloat (dec (-5) (-1)))
                (NInt 100) (NFloat (dec (-5) (-1))) s eq_refl eq_refl) as Hout.
  pose proof (C10_beep_domain (PyInt (10 ^ 400)) (PyFloat (dec (-5) (-1)))
                (NInt (10 ^ 400)) (NFloat (dec (-5) (-1))) s eq_refl eq_refl) as Hbig.
  change (to_float (NInt 1000)) with (@inr exn float (float_of_Z 1000)) in Hin.
  change (to_float (NInt 100)) with (@inr exn float (float_of_Z 100)) in Hout.
  change (to_float (NFloat (dec (-5) (-1))))
    with (@inr exn float (dec (-5) (-1))) in Hin, Hout, Hbig.
  assert (Eb : to_float (NInt (10 ^ 400)) = inl OverflowError)
    by (vm_compute; reflexivity).
  rewrite Eb in Hbig.
  assert (Ep : num_str_ok (NInt (10 ^ 400)) && num_str_ok (NFloat (dec (-5) (-1)))
               = true) by (vm_compute; reflexivity).
  rewrite Ep in Hbig.
  destruct Hin as (_ & _ & Hin & _). destruct Hout as (_ & Hout & _).
  split; [reflexivity|]. split; [reflexivity|].
  split; [apply Hin; vm_compute; reflexivity|].
  split; [reflexivity|].
  split; [apply Hout; left; vm_compute; reflexivity | exact Hbig].
Defined.

(** The examples of the specification. *)
Example beep_examples :
  let s := safe_on (bench true zero) 1 (NInt 10) (NFloat (dec 25 (-1))) in
  Keithley2470.beep (PyInt 100) (PyFloat half) s = Raise ValueError s
  /\ returns (Keithley2470.beep (PyInt 1000) (PyFloat half) s)
  /\ Keithley2470.beep (PyInt 1000) (PyInt 2) s = Raise ValueError s
  /\ returns (Keithley2470.beep (PyInt 1000) (PyFloat nan) s).
Proof. vm_compute. repeat split. Qed.

(** Where the argument checks do come first: a voltage or a current limit
    that is no number, on both classes, and an output state that is
    neither ON nor OFF on [Keithley2470], are rejected with the state
    untouched, hence before any call on the resource. *)
Lemma invalid_arguments_rejected {R : Type} `{Resource R} `{Platform}
    (fuel : nat) (v : pyval) (s : state R) :
  (as_number v = None ->
   Keithley2470.set_source_voltage v s = Raise TypeError s
   /\ Keithley2470SafeForLGADs.set_source_voltage fuel v s = Raise TypeError s
   /\ Keithley2470.set_source_current_limit v s = Raise TypeError s)
  /\ (forall token,
         v = PyStr token -> str_upper token <> "ON" -> str_upper token <> "OFF" ->
         Keithley2470.set_output fuel v s = Raise ValueError s).
Proof.
  split.
  - intros Hv. destruct v; try discriminate Hv; repeat split; reflexivity.
  - intros token -> Hon Hoff. unfold Keithley2470.set_output, bind. simpl.
    apply String.eqb_neq in Hon. apply String.eqb_neq in Hoff.
    rewrite Hon, Hoff. reflexivity.
Qed.

(** C7.  [Keithley2470SafeForLGADs.set_output] with a token that is
    neither 'on' nor 'off'.  [Keithley2470.set_output] rejects it before
    anything is sent.  The subclass does not: with the output on it
    queries the instrument and returns without any error; with the output
    off it queries the output state and the level, writes the level 0,
    and only then raises the [ValueError] of the parent class. *)
Theorem C7_safe_set_output_unknown_token `{Platform} :
  let on := safe_on (bench true (float_of_Z 5)) 1 (NInt 10) (NFloat (dec 25 (-1))) in
  let off := safe_on (bench false (float_of_Z 5)) 1 (NInt 10) (NFloat (dec 25 (-1))) in
  let r_on := Keithley2470SafeForLGADs.set_output 0 (PyStr "banana") on in
  let r_off := Keithley2470SafeForLGADs.set_output 0 (PyStr "banana") off in
  Keithley2470.set_output 0 (PyStr "banana") on = Raise ValueError on
  /\ r_on = Return tt (queried OUTPUT_STATE_q on)
  /\ r_off = Raise ValueError (final r_off)
  /\ log (final r_off)
     = [Wr (SOURCE_VOLT_LEV (NInt 0)); Qy SOUR_VOLT_q; Qy OUTPUT_STATE_q]
  /\ volt off = float_of_Z 5 /\ volt (final r_off) = zero.
Proof. vm_compute. repeat split. Qed.

(** ** Several callers on one transport *)

Section Callers.
Import Concurrent.
Local Open Scope nat_scope.

Lemma step_eq (i : nat) (s : sys) (t : thread) :
  threads s !! i = Some t ->
  step i s =
  let '(w, r, t') := thread_step (is_writing s) (is_reading s) t in
  Sys w r (<[i := t']> (threads s)).
Proof. intros E. unfold step. rewrite E. reflexivity. Qed.

Lemma step_none (i : nat) (s : sys) : threads s !! i = None -> step i s = s.
Proof. intros E. unfold step. rewrite E. reflexivity. Qed.

Lemma finish_eq (i : nat) (w r : bool) (t : thread) (l : list thread) :
  i < length l ->
  finish i (Sys w r (<[i := t]> l)) =
  let '(w', r', t') := settle (w, r, t) in Sys w' r' (<[i := t']> l).
Proof.
  intros Hi. unfold finish, at_set, step. simpl.
  rewrite list_lookup_insert_eq by exact Hi.
  destruct t as [o p]. destruct p; simpl; try reflexivity;
    rewrite list_insert_insert_eq; reflexivity.
Qed.

(** An atomic step of caller [i] is its atomic step on the flags. *)
Lemma atomic_step_eq (i : nat) (s : sys) (t : thread) :
  threads s !! i = Some t ->
  atomic_step i s =
  let '(w, r, t') := atomic_thread_step (is_writing s) (is_reading s) t in
  Sys w r (<[i := t']> (threads s)).
Proof.
  intros E. pose proof (lookup_lt_Some _ _ _ E) as Hi.
  unfold atomic_step, atomic_thread_step. rewrite (step_eq i s t E).
  destruct (thread_step (is_writing s) (is_reading s) t) as [[w1 r1] t1].
  rewrite (finish_eq i w1 r1 t1 _ Hi).
  destruct (settle (w1, r1, t1)) as [[w2 r2] t2].
  rewrite (finish_eq i w2 r2 t2 _ Hi).
  destruct (settle (w2, r2, t2)) as [[w3 r3] t3]. reflexivity.
Qed.

Lemma atomic_step_none (i : nat) (s : sys) :
  threads s !! i = None -> atomic_step i s = s.
Proof.
  intros E. unfold atomic_step. rewrite (step_none i s E).
  assert (Ef : finish i s = s) by (unfold finish, at_set; rewrite E; reflexivity).
  rewrite Ef. exact Ef.
Qed.

(** What one atomic step of a settled caller does to the flags. *)
Lemma atomic_thread_step_spec (w r : bool) (t : thread) :
  settled t = true ->
  (holds_w t = true -> w = true) -> (holds_r t = true -> r = true) ->
  forall w' r' t', atomic_thread_step w r t = (w', r', t') ->
    settled t' = true
    /\ (holds_w t' = true -> w' = true)
    /\ (holds_r t' = true -> r' = true)
    /\ (holds_w t' = true -> holds_w t = false -> w = false)
    /\ (holds_r t' = true -> holds_r t = false -> r = false)
    /\ (w = true -> w' = false -> holds_w t = true)
    /\ (r = true -> r' = false -> holds_r t = true)
    /\ (w = true -> holds_w t = false -> w' = true)
    /\ (r = true -> holds_r t = false -> r' = true).
Proof.
  destruct t as [o p]. intros Hs Hw Hr w' r' t' E.
  destruct o, p, w, r; try discriminate Hs;
    vm_compute in E, Hw, Hr; inversion E; subst; vm_compute;
    repeat split; intros; try congruence;
    try (specialize (Hw eq_refl); congruence);
    try (specialize (Hr eq_refl); congruence).
Qed.

Lemma lookup_map_entry (ops : list op) (i : nat) (t : thread) :
  map (fun o => Thread o (entry o)) ops !! i = Some t ->
  exists o, t = Thread o (entry o).
Proof.
  revert i. induction ops as [|o ops IH]; intros [|i] E; simpl in E;
    try discriminate E.
  - inversion E. eauto.
  - apply (IH i). exact E.
Qed.

Lemma inv_start (ops : list op) : inv (start ops).
Proof.
  constructor; simpl.
  - intros i t E. destruct (lookup_map_entry ops i t E) as [o ->].
    destruct o; reflexivity.
  - intros i t E Hh. destruct (lookup_map_entry ops i t E) as [o ->].
    destruct o; discriminate Hh.
  - intros i t E Hh. destruct (lookup_map_entry ops i t E) as [o ->].
    destruct o; discriminate Hh.
  - intros i j ti tj _ Ei _ Hh _.
    destruct (lookup_map_entry ops i ti Ei) as [o ->].
    destruct o; discriminate Hh.
  - intros i j ti tj _ Ei _ Hh _.
    destruct (lookup_map_entry ops i ti Ei) as [o ->].
    destruct o; discriminate Hh.
Qed.

Lemma inv_atomic_step (i : nat) (s : sys) : inv s -> inv (atomic_step i s).
Proof.
  intros [Hset Hw Hr Hw1 Hr1].
  destruct (threads s !! i) as [t|] eqn:E;
    [|rewrite (atomic_step_none i s E); constructor; assumption].
  pose proof (lookup_lt_Some _ _ _ E) as Hi.
  rewrite (atomic_step_eq i s t E).
  destruct (atomic_thread_step (is_writing s) (is_reading s) t)
    as [[w' r'] t'] eqn:Ea.
  destruct (atomic_thread_step_spec _ _ t (Hset i t E) (Hw i t E) (Hr i t E)
              w' r' t' Ea)
    as (F1 & F2 & F3 & F4 & F5 & F6 & F7 & F8 & F9).
  assert (Hlook : forall j u, <[i := t']> (threads s) !! j = Some u ->
                    (j = i /\ u = t') \/ (j <> i /\ threads s !! j = Some u)).
  { intros j u Hj. destruct (decide (i = j)) as [<- | Hne].
    - rewrite list_lookup_insert_eq in Hj by exact Hi. left. split; congruence.
    - rewrite list_lookup_insert_ne in Hj by exact Hne. right. split; congruence. }
  constructor; simpl.
  - intros j u Hj. destruct (Hlook j u Hj) as [[-> ->] | [Hne Hold]];
      [exact F1 | exact (Hset j u Hold)].
  - intros j u Hj Hh. destruct (Hlook j u Hj) as [[-> ->] | [Hne Hold]];
      [exact (F2 Hh)|].
    destruct (holds_w t) eqn:Ht.
    + exfalso. exact (Hw1 j i u t Hne Hold E Hh Ht).
    + apply F8; [exact (Hw j u Hold Hh) | reflexivity].
  - intros j u Hj Hh. destruct (Hlook j u Hj) as [[-> ->] | [Hne Hold]];
      [exact (F3 Hh)|].
    destruct (holds_r t) eqn:Ht.
    + exfalso. exact (Hr1 j i u t Hne Hold E Hh Ht).
    + apply F9; [exact (Hr j u Hold Hh) | reflexivity].
  - intros j k tj tk Hjk Hj Hk Hhj Hhk.
    destruct (Hlook j tj Hj) as [[-> ->] | [Hnej Holdj]];
      destruct (Hlook k tk Hk) as [[-> ->] | [Hnek Holdk]].
    + congruence.
    + destruct (holds_w t) eqn:Ht.
      * exact (Hw1 i k t tk Hjk E Holdk Ht Hhk).
      * pose proof (F4 Hhj eq_refl). pose proof (Hw k tk Holdk Hhk). congruence.
    + destruct (holds_w t) eqn:Ht.
      * exact (Hw1 j i tj t Hjk Holdj E Hhj Ht).
      * pose proof (F4 Hhk eq_refl). pose proof (Hw j tj Holdj Hhj). congruence.
    + exact (Hw1 j k tj tk Hjk Holdj Holdk Hhj Hhk).
  - intros j k tj tk Hjk Hj Hk Hhj Hhk.
    destruct (Hlook j tj Hj) as [[-> ->] | [Hnej Holdj]];
      destruct (Hlook k tk Hk) as [[-> ->] | [Hnek Holdk]].
    + congruence.
    + destruct (holds_r t) eqn:Ht.
      * exact (Hr1 i k t tk Hjk E Holdk Ht Hhk).
      * pose proof (F5 Hhj eq_refl). pose proof (Hr k tk Holdk Hhk). congruence.
    + destruct (holds_r t) eqn:Ht.
      * exact (Hr1 j i tj t Hjk Holdj E Hhj Ht).
      * pose proof (F5 Hhk eq_refl). pose proof (Hr j tj Holdj Hhj). congruence.
    + exact (Hr1 j k tj tk Hjk Holdj Holdk Hhj Hhk).
Qed.

Lemma inv_atomic_run (schedule : list nat) :
  forall s, inv s -> inv (atomic_run schedule s).
Proof.
  induction schedule as [|i schedule IH]; intros s Hs; [exact Hs|].
  apply (IH (atomic_step i s)). apply inv_atomic_step. exact Hs.
Qed.

Lemma run_app (l1 l2 : list nat) (s : sys) : run (l1 ++ l2) s = run l2 (run l1 s).
Proof. unfold run. apply fold_left_app. Qed.

(** The schedules considered are schedules of the statement-level
    semantics. *)
Lemma atomic_run_is_run (schedule : list nat) :
  forall s, exists schedule', atomic_run schedule s = run schedule' s.
Proof.
  assert (Hf : forall i s, exists l, finish i s = run l s).
  { intros i s. unfold finish. destruct (at_set i s);
      [exists [i] | exists []]; reflexivity. }
  induction schedule as [|i schedule IH]; intros s; [exists []; reflexivity|].
  destruct (IH (atomic_step i s)) as [l Hl].
  destruct (Hf i (step i s)) as [l1 H1].
  destruct (Hf i (finish i (step i s))) as [l2 H2].
  exists ((i :: l1 ++ l2) ++ l). rewrite run_app.
  change (atomic_run (i :: schedule) s) with (atomic_run schedule (atomic_step i s)).
  rewrite Hl. f_equal. unfold atomic_step. rewrite H2, H1.
  change (i :: l1 ++ l2) with ([i] ++ (l1 ++ l2)). rewrite !run_app. reflexivity.
Qed.

Lemma in_call_holds (t : thread) :
  in_call t = true ->
  holds_w t = uses_w (t_op t) /\ holds_r t = uses_r (t_op t).
Proof.
  destruct t as [o p]. destruct p; try discriminate. intros _.
  unfold holds_w, holds_r. simpl. rewrite !andb_true_r. split; reflexivity.
Qed.

End Callers.

(** C1 (as stated).  A [write] and a [read] of two callers are inside
    their calls on the resource at the same time: each has tested and
    set its own flag only. *)
Lemma C1_counterexample :
  ~ Concurrent.exclusive
      (Concurrent.run [0; 0; 0; 1; 1; 1]%nat
         (Concurrent.start
            [Concurrent.Write (OUTPUT "ON"); Concurrent.Read])).
Proof.
  intros Hex.
  apply (Hex 0%nat 1%nat
           (Concurrent.Thread (Concurrent.Write (OUTPUT "ON")) Concurrent.InCall)
           (Concurrent.Thread Concurrent.Read Concurrent.InCall));
    [discriminate | reflexivity | reflexivity | reflexivity | reflexivity].
Qed.

(** The test and the assignment of a flag are two statements: a [write]
    and a [query] that both pass the test before either sets the flag
    are in their calls together. *)
Example race_between_test_and_set :
  ~ Concurrent.exclusive
      (Concurrent.run [0; 1; 0; 0; 1; 1; 1]%nat
         (Concurrent.start
            [Concurrent.Write (OUTPUT "ON"); Concurrent.Query SOUR_VOLT_q])).
Proof.
  intros Hex.
  apply (Hex 0%nat 1%nat
           (Concurrent.Thread (Concurrent.Write (OUTPUT "ON")) Concurrent.InCall)
           (Concurrent.Thread (Concurrent.Query SOUR_VOLT_q) Concurrent.InCall));
    [discriminate | reflexivity | reflexivity | reflexivity | reflexivity].
Qed.

(** [set_source_voltage] writes to the resource without looking at the
    flags: its write lands inside the [query] of another caller. *)
Example unguarded_write_during_query :
  ~ Concurrent.exclusive
      (Concurrent.run [0; 0; 0; 0; 1]%nat
         (Concurrent.start
            [Concurrent.Query SOUR_VOLT_q;
             Concurrent.RawWrite (SOURCE_VOLT_LEV (NInt 1))])).
Proof.
  intros Hex.
  apply (Hex 0%nat 1%nat
           (Concurrent.Thread (Concurrent.Query SOUR_VOLT_q) Concurrent.InCall)
           (Concurrent.Thread (Concurrent.RawWrite (SOURCE_VOLT_LEV (NInt 1)))
              Concurrent.InCall));
    [discriminate | reflexivity | reflexivity | reflexivity | reflexivity].
Qed.

(** C1 (amended).  The transport has two exclusion domains, one per
    flag.  Under schedules that do not separate a caller's test of its
    flags from its assignments to them, two callers of [write], [read]
    or [query] that are inside their calls on the resource at the same
    time share no flag: a [write] excludes [write]s and [query]s, a
    [read] excludes [read]s and [query]s, a [query] excludes all three,
    for any number of callers.  A [write] and a [read] do not exclude
    each other.  These schedules are schedules of the statement-level
    semantics. *)
Theorem C1_flag_sharing_callers_exclusive :
  (forall (ops : list Concurrent.op) (schedule : list nat)
          (i j : nat) (ti tj : Concurrent.thread),
      i <> j ->
      Concurrent.threads
        (Concurrent.atomic_run schedule (Concurrent.start ops)) !! i = Some ti ->
      Concurrent.threads
        (Concurrent.atomic_run schedule (Concurrent.start ops)) !! j = Some tj ->
      Concurrent.in_call ti = true -> Concurrent.in_call tj = true ->
      Concurrent.shares_flag (Concurrent.t_op ti) (Concurrent.t_op tj) = false)
  /\ (forall msg,
         ~ Concurrent.exclusive
             (Concurrent.atomic_run [0; 0; 1; 1]%nat
                (Concurrent.start [Concurrent.Write msg; Concurrent.Read])))
  /\ (forall schedule s, exists schedule',
         Concurrent.atomic_run schedule s = Concurrent.run schedule' s).
Proof.
  split; [|split].
  - intros ops schedule i j ti tj Hij Hi Hj Hci Hcj.
    pose proof (inv_atomic_run schedule _ (inv_start ops)) as [_ _ _ Hw1 Hr1].
    destruct (in_call_holds ti Hci) as [Hwi Hri].
    destruct (in_call_holds tj Hcj) as [Hwj Hrj].
    unfold Concurrent.shares_flag.
    destruct (Concurrent.uses_w (Concurrent.t_op ti)) eqn:Ewi;
      destruct (Concurrent.uses_w (Concurrent.t_op tj)) eqn:Ewj;
      destruct (Concurrent.uses_r (Concurrent.t_op ti)) eqn:Eri;
      destruct (Concurrent.uses_r (Concurrent.t_op tj)) eqn:Erj;
      try reflexivity; exfalso;
      first [ exact (Hw1 i j ti tj Hij Hi Hj Hwi Hwj)
            | exact (Hr1 i j ti tj Hij Hi Hj Hri Hrj) ].
  - intros msg Hex.
    apply (Hex 0%nat 1%nat
             (Concurrent.Thread (Concurrent.Write msg) Concurrent.InCall)
             (Concurrent.Thread Concurrent.Read Concurrent.InCall));
      [discriminate | reflexivity | reflexivity | reflexivity | reflexivity].
  - intros schedule s. apply atomic_run_is_run.
Qed.

Lemma C1_flag_sharing_callers_exclusive_witness :
  let ops := [Concurrent.Write (OUTPUT "ON"); Concurrent.Query SOUR_VOLT_q;
              Concurrent.Read] in
  let s := Concurrent.atomic_run [0; 1; 0; 2; 2; 1]%nat (Concurrent.start ops) in
  let t0 := Concurrent.Thread (Concurrent.Write (OUTPUT "ON")) Concurrent.InCall in
  let t2 := Concurrent.Thread Concurrent.Read Concurrent.InCall in
  0%nat <> 2%nat
  /\ Concurrent.threads s !! 0%nat = Some t0
  /\ Concurrent.threads s !! 2%nat = Some t2
  /\ Concurrent.in_call t0 = true /\ Concurrent.in_call t2 = true
  /\ Concurrent.shares_flag (Concurrent.t_op t0) (Concurrent.t_op t2) = false.
Proof.
  intros ops s t0 t2.
  assert (Hne : 0%nat <> 2%nat) by lia.
  split; [exact Hne|]. split; [reflexivity|]. split; [reflexivity|].
  split; [reflexivity|]. split; [reflexivity|].
  exact (proj1 C1_flag_sharing_callers_exclusive ops [0; 1; 0; 2; 2; 1]%nat
           0%nat 2%nat t0 t2 Hne eq_refl eq_refl eq_refl eq_refl).
Defined.


(** * Further properties of the driver *)

(** ** The driver stays idle *)

Lemma stays_idle_ret {A : Type} (a : A) : stays_idle (ret a).
Proof. intros s Hi. exact Hi. Qed.

Lemma stays_idle_raise {A : Type} (e : exn) : stays_idle (A:=A) (raise e).
Proof. intros s Hi. exact Hi. Qed.

Lemma stays_idle_gets {A : Type} (f : state instrument -> A) : stays_idle (gets f).
Proof. intros s Hi. exact Hi. Qed.

Lemma stays_idle_lift {A : Type} (x : exn + A) : stays_idle (lift x).
Proof. intros s Hi. destruct x; exact Hi. Qed.

Lemma stays_idle_bind {A B : Type} (c : M (state instrument) A)
    (k : A -> M (state instrument) B) :
  stays_idle c -> (forall a, stays_idle (k a)) -> stays_idle (bind c k).
Proof.
  intros Hc Hk s Hi. unfold bind. specialize (Hc s Hi).
  destruct (c s) as [a s1|e s1|s1]; simpl in *; [|assumption|assumption].
  apply Hk. exact Hc.
Qed.

Lemma stays_idle_sleep (t : float) : stays_idle (sleep t).
Proof. intros s Hi. unfold sleep. destruct (sleep_rejects t); exact Hi. Qed.

(** A message the instrument answers is answered at once, and the
    answer is read: nothing stays in the buffer. *)
Lemma take_exec_query (m : scpi) (d : instrument) :
  dev_outbuf d = [] -> is_query m = true ->
  exists a, dev_take (dev_exec m d) = (inr a, d).
Proof.
  intros Hb Hm. destruct d as [idn o v il mv mc b lg]. simpl in Hb. subst b.
  destruct m; try discriminate Hm; eexists; reflexivity.
Qed.

Lemma exec_outbuf (m : scpi) (d : instrument) :
  is_query m = false -> dev_outbuf (dev_exec m d) = dev_outbuf d.
Proof.
  intros Hm. destruct m as [|st| | | | | | | |];
    try discriminate Hm; try reflexivity.
  unfold dev_exec.
  destruct (String.eqb st "ON"); [reflexivity|].
  destruct (String.eqb st "OFF"); reflexivity.
Qed.

Lemma stays_idle_query `{Platform} (fuel : nat) (m : scpi) :
  is_query m = true -> stays_idle (Keithley2470.query fuel m).
Proof.
  intros Hm s Hi. rewrite (query_idle fuel m s Hi).
  destruct Hi as (Hw & Hr & Hb).
  destruct (take_exec_query m (_resource s) Hb Hm) as [a ->]. simpl.
  unfold idle. simpl. auto.
Qed.

Lemma stays_idle_write (fuel : nat) (m : scpi) :
  is_query m = false -> stays_idle (Keithley2470.write fuel m).
Proof.
  intros Hm s Hi. rewrite (write_idle fuel m s Hi). simpl.
  destruct Hi as (Hw & Hr & Hb). unfold idle. simpl.
  split; [exact Hw|]. split; [exact Hr|].
  rewrite (exec_outbuf m _ Hm). exact Hb.
Qed.

Lemma stays_idle_resource_write (m : scpi) :
  is_query m = false -> stays_idle (_resource_write m).
Proof.
  intros Hm s (Hw & Hr & Hb). unfold idle. simpl.
  split; [exact Hw|]. split; [exact Hr|].
  rewrite (exec_outbuf m _ Hm). exact Hb.
Qed.

Create HintDb idle.
#[export] Hint Resolve stays_idle_ret stays_idle_raise stays_idle_gets
  stays_idle_lift stays_idle_sleep : idle.
#[export] Hint Extern 1 (stays_idle (Keithley2470.query _ _)) =>
  apply stays_idle_query; reflexivity : idle.
#[export] Hint Extern 1 (stays_idle (Keithley2470.write _ _)) =>
  apply stays_idle_write; reflexivity : idle.
#[export] Hint Extern 1 (stays_idle (_resource_write _)) =>
  apply stays_idle_resource_write; reflexivity : idle.

Ltac idle_step :=
  match goal with
  | |- stays_idle (bind _ _) => apply stays_idle_bind; [|intros]
  | |- stays_idle (if ?b then _ else _) => destruct b
  | |- stays_idle (match ?x with _ => _ end) => destruct x
  | |- stays_idle _ => solve [auto with idle]
  end.

Ltac idle_all := repeat idle_step.

Lemma stays_idle_base_set_output `{Platform} (fuel : nat) (v : pyval) :
  stays_idle (Keithley2470.set_output fuel v).
Proof.
  unfold Keithley2470.set_output. idle_all.
Qed.

Lemma stays_idle_output `{Platform} (fuel : nat) : stays_idle (Keithley2470.output fuel).
Proof. unfold Keithley2470.output. idle_all. Qed.

Lemma stays_idle_get_source_voltage `{Platform} (fuel : nat) :
  stays_idle (Keithley2470.get_source_voltage fuel).
Proof. unfold Keithley2470.get_source_voltage. idle_all. Qed.

Lemma stays_idle_base_set_source_voltage `{Platform} (v : pyval) :
  stays_idle (Keithley2470.set_source_voltage v).
Proof. unfold Keithley2470.set_source_voltage. idle_all. Qed.

Lemma stays_idle_set_source_current_limit `{Platform} (v : pyval) :
  stays_idle (Keithley2470.set_source_current_limit v).
Proof. unfold Keithley2470.set_source_current_limit. idle_all. Qed.

Lemma stays_idle_get_source_current_limit `{Platform} (fuel : nat) :
  stays_idle (Keithley2470.get_source_current_limit fuel).
Proof. unfold Keithley2470.get_source_current_limit. idle_all. Qed.

Lemma stays_idle_beep `{Platform} (f t : pyval) :
  stays_idle (Keithley2470.beep f t).
Proof. unfold Keithley2470.beep. idle_all. Qed.

Lemma stays_idle_measure_voltage `{Platform} (fuel : nat) :
  stays_idle (Keithley2470.measure_voltage fuel).
Proof. unfold Keithley2470.measure_voltage. idle_all. Qed.

Lemma stays_idle_measure_current `{Platform} (fuel : nat) :
  stays_idle (Keithley2470.measure_current fuel).
Proof. unfold Keithley2470.measure_current. idle_all. Qed.

#[export] Hint Resolve stays_idle_base_set_output stays_idle_output
  stays_idle_get_source_voltage stays_idle_base_set_source_voltage
  stays_idle_set_source_current_limit stays_idle_get_source_current_limit
  stays_idle_beep stays_idle_measure_voltage stays_idle_measure_current : idle.

Lemma stays_idle_ramp_sleep : stays_idle Keithley2470SafeForLGADs.ramp_sleep.
Proof.
  unfold Keithley2470SafeForLGADs.ramp_sleep,
    Keithley2470SafeForLGADs.volt_step, Keithley2470SafeForLGADs.slew_rate.
  idle_all.
Qed.

#[export] Hint Resolve stays_idle_ramp_sleep : idle.

Lemma stays_idle_ramp `{Platform} (fuel n : nat) (target : float) :
  stays_idle (Keithley2470SafeForLGADs.ramp fuel n target).
Proof.
  induction n as [|n IH]; [intros s Hi; exact Hi|].
  cbn [Keithley2470SafeForLGADs.ramp].
  unfold Keithley2470SafeForLGADs.volt_step. idle_all; exact IH.
Qed.

#[export] Hint Resolve stays_idle_ramp : idle.

Lemma stays_idle_safe_set_source_voltage `{Platform} (fuel : nat) (v : pyval) :
  stays_idle (Keithley2470SafeForLGADs.set_source_voltage fuel v).
Proof. unfold Keithley2470SafeForLGADs.set_source_voltage. idle_all. Qed.

#[export] Hint Resolve stays_idle_safe_set_source_voltage : idle.

Lemma stays_idle_safe_set_output `{Platform} (fuel : nat) (v : pyval) :
  stays_idle (Keithley2470SafeForLGADs.set_output fuel v).
Proof. unfold Keithley2470SafeForLGADs.set_output. idle_all. Qed.

#[export] Hint Resolve stays_idle_safe_set_output : idle.

Lemma stays_idle_set_source_voltage `{Platform} (fuel : nat) (v : pyval) :
  stays_idle (set_source_voltage fuel v).
Proof.
  intros s. unfold set_source_voltage. destruct (klass s).
  - apply stays_idle_base_set_source_voltage.
  - apply stays_idle_safe_set_source_voltage.
Qed.

Lemma stays_idle_set_output `{Platform} (fuel : nat) (v : pyval) :
  stays_idle (set_output fuel v).
Proof.
  intros s. unfold set_output. destruct (klass s).
  - apply stays_idle_base_set_output.
  - apply stays_idle_safe_set_output.
Qed.

#[export] Hint Resolve stays_idle_set_source_voltage stays_idle_set_output : idle.

Lemma stays_idle_run_exitfunc `{Platform} (fuel : nat) (f : exitfunc) :
  stays_idle (run_exitfunc fuel f).
Proof. destruct f. unfold run_exitfunc. idle_all. Qed.

(** X1.  On the honest instrument every operation, and the exit hook,
    leaves an idle driver idle (both flags clear, no unread answer),
    however it ends, so that the next operation finds the state the others
    assume.  The exceptions are the raw transport calls that leave the
    exchange with the instrument half done: [write] of a message the
    instrument answers, [read] when no answer is pending, and [query] of a
    message the instrument does not answer. *)
Theorem X1_operations_leave_driver_idle `{Platform} (fuel : nat) (m : method)
    (s : state instrument) :
  idle s ->
  m <> call_read ->
  (forall msg, m = call_write msg -> is_query msg = false) ->
  (forall msg, m = call_query msg -> is_query msg = true) ->
  idle (final (call fuel m s))
  /\ forall f : exitfunc, idle (final (run_exitfunc fuel f s)).
Proof.
  intros Hi Hr Hw Hq. split; [|intros f; apply stays_idle_run_exitfunc; exact Hi].
  revert s Hi. change (stays_idle (call fuel m)).
  destruct m; unfold call, ignore, Keithley2470.idn, Keithley2470.voltage,
    Keithley2470.current, Keithley2470SafeForLGADs.slew_rate,
    Keithley2470SafeForLGADs.volt_step; idle_all.
  - apply stays_idle_write. apply Hw. reflexivity.
  - exfalso. apply Hr. reflexivity.
  - apply stays_idle_query. apply Hq. reflexivity.
Qed.

Lemma X1_operations_leave_driver_idle_witness :
  let s := safe_on (bench true (float_of_Z 5)) 1 (NInt 10) (NFloat (dec 25 (-1))) in
  idle s
  /\ call_set_output (PyStr "off") <> call_read
  /\ idle (final (call 10 (call_set_output (PyStr "off")) s)).
Proof.
  intros s.
  assert (Hi : idle s) by (apply idle_safe_on; reflexivity).
  assert (Hr : call_set_output (PyStr "off") <> call_read)
    by (intros E; discriminate E).
  split; [exact Hi|]. split; [exact Hr|].
  refine (proj1 (X1_operations_leave_driver_idle 10
                   (call_set_output (PyStr "off")) s Hi Hr _ _));
    intros msg E; discriminate E.
Defined.

(** The exceptions are real.  After [write] of a query the answer stays
    in the buffer and the next [query] is handed it; a [read] with
    nothing pending, and a [query] of a message without answer, raise and
    leave their flags raised. *)
Example half_done_exchanges :
  let s := safe_on (bench true (float_of_Z 5)) 1 (NInt 10) (NFloat (dec 25 (-1))) in
  let s1 := final (call 0 (call_write SOUR_VOLT_q) s) in
  let s2 := final (call 0 call_read s) in
  let s3 := final (call 0 (call_query (OUTPUT "ON")) s) in
  dev_outbuf (_resource s1) = [ADec (float_of_Z 5)]
  /\ Keithley2470.output 0 s1
     = Raise RuntimeError (final (Keithley2470.output 0 s1))
  /\ call 0 call_read s = Raise VisaIOError s2 /\ _is_reading s2 = true
  /\ call 0 (call_query (OUTPUT "ON")) s = Raise VisaIOError s3
  /\ _is_writing s3 = true /\ _is_reading s3 = true.
Proof. vm_compute. repeat split. Qed.


(** ** Construction *)

(** X2.  Identity check.  Whatever the resource, if its answer to
    [*IDN?] lacks 'KEITHLEY' or 'MODEL 2470' the constructor, of either
    class, raises [RuntimeError] right after that one query: the resource
    has seen nothing else and no exit hook has been registered. *)
Theorem X2_identity_mismatch_fails_fast {R : Type} `{Resource R} `{Platform}
    (fuel : nat) (s : state R) (a : answer) (r' : R) :
  resource_query IDN_q (_resource s) = (inr a, r') ->
  answer_contains "KEITHLEY" a && answer_contains "MODEL 2470" a = false ->
  (exists s', Keithley2470__init__ fuel s = Raise RuntimeError s'
              /\ _resource s' = r'
              /\ atexit_registry s' = atexit_registry s)
  /\ (forall (p : string) (slew step : num),
         p = "positive" \/ p = "negative" ->
         exists s', Keithley2470SafeForLGADs__init__ fuel (PyStr p) slew step s
                    = Raise RuntimeError s'
                    /\ _resource s' = r'
                    /\ atexit_registry s' = atexit_registry s).
Proof.
  intros Hq Hbad.
  assert (Hcheck : negb (answer_contains "KEITHLEY" a)
                   || negb (answer_contains "MODEL 2470" a) = true).
  { destruct (answer_contains "KEITHLEY" a);
      destruct (answer_contains "MODEL 2470" a); simpl in *; congruence. }
  assert (Hbase : forall s0 : state R,
             _resource s0 = _resource s ->
             atexit_registry s0 = atexit_registry s ->
             exists s', Keithley2470__init__ fuel s0 = Raise RuntimeError s'
                        /\ _resource s' = r'
                        /\ atexit_registry s' = atexit_registry s).
  { intros s0 Er Ea. unfold Keithley2470__init__.
    unfold bind at 1. unfold modify at 1.
    unfold bind at 1. unfold modify at 1.
    unfold bind at 1. unfold _resource_query at 1.
    cbn [_resource set_is_reading set_is_writing]. rewrite Er, Hq.
    unfold bind at 1. unfold modify at 1.
    unfold bind at 1. unfold gets at 1. cbn [_idn set_idn].
    rewrite Hcheck. eexists. split; [reflexivity|]. split; [reflexivity|].
    simpl. exact Ea. }
  split.
  - apply Hbase; reflexivity.
  - intros p slew step Hp. unfold Keithley2470SafeForLGADs__init__.
    assert (Hv : negb (String.eqb p "positive" || String.eqb p "negative") = false).
    { destruct Hp as [-> | ->]; reflexivity. }
    rewrite Hv. unfold bind at 1. unfold modify at 1.
    apply Hbase; reflexivity.
Qed.

Lemma X2_identity_mismatch_fails_fast_witness :
  let d := Instrument "ACME,MODEL 2470,1,1.0" true (float_of_Z 5) zero zero zero
             [] [] in
  let s := new Base d [] in
  resource_query IDN_q (_resource s)
    = (inr (AText "ACME,MODEL 2470,1,1.0"), dev_record (Qy IDN_q) d)
  /\ answer_contains "KEITHLEY" (AText "ACME,MODEL 2470,1,1.0")
     && answer_contains "MODEL 2470" (AText "ACME,MODEL 2470,1,1.0") = false
  /\ exists s', Keithley2470__init__ 0 s = Raise RuntimeError s'
                /\ _resource s' = dev_record (Qy IDN_q) d
                /\ atexit_registry s' = atexit_registry s.
Proof.
  intros d s.
  split; [reflexivity|]. split; [reflexivity|].
  exact (proj1 (X2_identity_mismatch_fails_fast 0 s
                  (AText "ACME,MODEL 2470,1,1.0") (dev_record (Qy IDN_q) d)
                  eq_refl eq_refl)).
Defined.

(** On the honest instrument, an accepted identity leads to the rest of
    the constructor with the hook registered. *)
Lemma init_accepts `{Platform} (fuel : nat) (s : state instrument) :
  idle s ->
  contains "KEITHLEY" (dev_idn (_resource s)) = true ->
  contains "MODEL 2470" (dev_idn (_resource s)) = true ->
  Keithley2470__init__ fuel s =
  (Keithley2470.measure_voltage fuel ;;
   set_source_voltage fuel (PyInt 0) ;;
   set_output fuel (PyStr "off"))
    (atexit_register _atexit
       (set_idn (AText (dev_idn (_resource s))) (queried IDN_q s))).
Proof.
  intros (Hw & Hr & Hb) Hk Hm.
  destruct s as [k d w r i p sl st reg z]. destruct d as [idn o v il mv mc b lg].
  simpl in *. subst w r b.
  unfold Keithley2470__init__.
  unfold bind at 1. unfold modify at 1.
  unfold bind at 1. unfold modify at 1.
  unfold bind at 1. unfold _resource_query at 1. simpl.
  unfold bind at 1. unfold modify at 1.
  unfold bind at 1. unfold gets at 1. simpl.
  rewrite Hk, Hm. simpl.
  unfold bind at 1. unfold modify at 1. reflexivity.
Qed.

(** X3.  [Keithley2470(resource_str)] on an honest Keithley 2470: the
    constructor returns after exactly four calls on the resource, in this
    order: the identity query, the warm-up measurement, the write of
    level 0 (in one step, whatever the level was) and the output-off
    command.  The instrument is left at 0 V with the output off, the
    identity is stored, the exit hook is registered and the driver is
    idle. *)
Theorem X3_base_constructor_sequence `{Platform} (fuel : nat) (d : instrument)
    (reg : list exitfunc) :
  dev_outbuf d = [] ->
  contains "KEITHLEY" (dev_idn d) = true ->
  contains "MODEL 2470" (dev_idn d) = true ->
  exists s',
    Keithley2470__init__ fuel (new Base d reg) = Return tt s'
    /\ log s' = [Wr (OUTPUT "OFF"); Wr (SOURCE_VOLT_LEV (NInt 0));
                 Qy MEASURE_VOLT_q; Qy IDN_q] ++ dev_log d
    /\ volt s' = zero /\ output_on s' = false
    /\ dev_ilim (_resource s') = dev_ilim d
    /\ _idn s' = AText (dev_idn d)
    /\ atexit_registry s' = _atexit :: reg
    /\ idle s'.
Proof.
  intros Hb Hk Hm.
  assert (Hi : idle (new Base d reg)) by (unfold idle; simpl; auto).
  rewrite (init_accepts fuel _ Hi Hk Hm).
  set (s1 := atexit_register _atexit _).
  assert (Hi1 : idle s1) by (unfold idle; simpl; auto).
  unfold bind at 1. rewrite (measure_voltage_idle fuel s1 Hi1).
  set (s2 := queried MEASURE_VOLT_q s1).
  unfold bind at 1. unfold set_source_voltage at 1. cbn [klass s2 s1].
  change (klass s2) with Base. cbv iota.
  change (Keithley2470.set_source_voltage (PyInt 0) s2)
    with (Return (A:=unit) tt (wrote (SOURCE_VOLT_LEV (NInt 0)) s2)).
  cbv iota beta.
  set (s3 := wrote (SOURCE_VOLT_LEV (NInt 0)) s2).
  assert (Hi3 : idle s3) by (unfold idle; simpl; auto).
  unfold set_output. change (klass s3) with Base. cbv iota.
  rewrite (base_set_output_off_idle fuel s3 Hi3).
  eexists. split; [reflexivity|].
  repeat split; try reflexivity; simpl; auto.
Qed.

Lemma X3_base_constructor_sequence_witness :
  let d := bench true (float_of_Z 40) in
  dev_outbuf d = []
  /\ contains "KEITHLEY" (dev_idn d) = true
  /\ contains "MODEL 2470" (dev_idn d) = true
  /\ exists s',
      Keithley2470__init__ 0 (new Base d []) = Return tt s'
      /\ log s' = [Wr (OUTPUT "OFF"); Wr (SOURCE_VOLT_LEV (NInt 0));
                   Qy MEASURE_VOLT_q; Qy IDN_q] ++ dev_log d
      /\ volt s' = zero /\ output_on s' = false
      /\ dev_ilim (_resource s') = dev_ilim d
      /\ _idn s' = AText (dev_idn d)
      /\ atexit_registry s' = [_atexit]
      /\ idle s'.
Proof.
  intros d.
  split; [reflexivity|]. split; [reflexivity|]. split; [reflexivity|].
  exact (X3_base_constructor_sequence 0 d [] eq_refl eq_refl eq_refl).
Defined.


(** X4.  [Keithley2470SafeForLGADs(resource_str, polarity, slew_rate,
    volt_step)] on an honest Keithley 2470.  If the output is off the
    constructor returns, whatever the level and the ramp parameters.  If
    the output is on, the [set_source_voltage(0)] and [set_output('off')]
    of the parent constructor are the subclass's, which ramp, and the
    constructor returns exactly when these ramps arrive.  When it returns
    the level is 0, the output is off, the driver is idle, the polarity
    is 1 or -1, the ramp parameters are those given and the exit hook is
    registered. *)
Theorem X4_safe_constructor_leaves_instrument_safe `{Platform} (fuel : nat)
    (d : instrument) (reg : list exitfunc) (p : string) (slew step : num) :
  dev_outbuf d = [] ->
  contains "KEITHLEY" (dev_idn d) = true ->
  contains "MODEL 2470" (dev_idn d) = true ->
  p = "positive" \/ p = "negative" ->
  let r := Keithley2470SafeForLGADs__init__ fuel (PyStr p) slew step
             (new SafeForLGADs d reg) in
  let target := if String.eqb p "positive" then zero else S754_zero true in
  (dev_output d = false -> returns r)
  /\ (dev_output d = true ->
      (returns r
       <-> arrives fuel target (dev_volt d) step slew = true
           /\ arrives fuel target target step slew = true))
  /\ (forall s', r = Return tt s' ->
        volt s' = target /\ output_on s' = false /\ idle s'
        /\ _polarity s' = (if String.eqb p "positive" then 1 else -1)
        /\ _slew_rate s' = slew /\ _volt_step s' = step
        /\ atexit_registry s' = _atexit :: reg).
Proof.
  intros Hb Hk Hm Hp r target.
  set (s0 := set_ramp (if String.eqb p "positive" then 1 else -1) slew step
               (new SafeForLGADs d reg)).
  assert (Hi0 : idle s0) by (unfold idle; simpl; auto).
  set (s1 := atexit_register _atexit
               (set_idn (AText (dev_idn (_resource s0))) (queried IDN_q s0))).
  assert (Hi1 : idle s1) by (unfold idle; simpl; auto).
  set (s2 := queried MEASURE_VOLT_q s1).
  assert (Hi2 : idle s2) by (apply idle_queried; exact Hi1).
  assert (Einit : r = run_exitfunc fuel _atexit s2).
  { subst r. unfold Keithley2470SafeForLGADs__init__.
    assert (Hval : negb (String.eqb p "positive" || String.eqb p "negative") = false)
      by (destruct Hp as [-> | ->]; reflexivity).
    rewrite Hval. unfold bind at 1. unfold modify at 1. fold s0.
    rewrite (init_accepts fuel s0 Hi0 Hk Hm). fold s1.
    unfold bind at 1. rewrite (measure_voltage_idle fuel s1 Hi1). fold s2.
    reflexivity. }
  assert (Ec : coerce_polarity (_polarity s2) (PyInt 0) = inr target).
  { subst target. destruct Hp as [-> | ->]; reflexivity. }
  destruct (exit_hook_shuts_down fuel target s2 Hi2 eq_refl Ec) as (H1 & H2 & H3).
  rewrite Einit. split; [exact H2|]. split; [exact H3|].
  intros s' Hs'. destruct (H1 s' Hs') as [Hv Ho].
  pose proof (stays_idle_run_exitfunc fuel _atexit s2 Hi2) as Hi'.
  pose proof (keeps_run_exitfunc fuel _atexit s2) as Hc.
  rewrite Hs' in Hi', Hc. simpl in Hi', Hc. unfold config in Hc.
  injection Hc as Hk' Hp' Hsl' Hst' Hreg'.
  split; [exact Hv|]. split; [exact Ho|]. split; [exact Hi'|].
  split; [rewrite Hp'; reflexivity|].
  split; [rewrite Hsl'; reflexivity|].
  split; [rewrite Hst'; reflexivity|].
  rewrite Hreg'. reflexivity.
Qed.

Lemma X4_safe_constructor_leaves_instrument_safe_witness :
  let d := bench true (float_of_Z (-40)) in
  let r := Keithley2470SafeForLGADs__init__ 20 (PyStr "negative") (NInt 10)
             (NFloat (dec 25 (-1))) (new SafeForLGADs d []) in
  dev_outbuf d = []
  /\ contains "KEITHLEY" (dev_idn d) = true
  /\ contains "MODEL 2470" (dev_idn d) = true
  /\ ("negative" = "positive" \/ "negative" = "negative")
  /\ dev_output d = true
  /\ returns r.
Proof.
  intros d r.
  assert (Hp : "negative" = "positive" \/ "negative" = "negative")
    by (right; reflexivity).
  destruct (X4_safe_constructor_leaves_instrument_safe 20 d [] "negative"
              (NInt 10) (NFloat (dec 25 (-1))) eq_refl eq_refl eq_refl Hp)
    as (_ & Hon & _).
  split; [reflexivity|]. split; [reflexivity|]. split; [reflexivity|].
  split; [exact Hp|]. split; [reflexivity|].
  apply (Hon eq_refl). split; vm_compute; reflexivity.
Defined.

(** ** No [TypeError] past the argument checks *)

Section ArithmeticErrors.
Context `{Platform}.

Lemma float_of_int_error (z : Z) (e : exn) :
  float_of_int z = inl e -> e = OverflowError.
Proof.
  unfold float_of_int. destruct (is_inf (float_of_Z z)); congruence.
Qed.

Lemma to_float_error (n : num) (e : exn) :
  to_float n = inl e -> e = OverflowError.
Proof. destruct n as [z|f]; simpl; [apply float_of_int_error | discriminate]. Qed.

Lemma add_num_not_type_error (a : float) (b : num) :
  add_num a b <> inl TypeError.
Proof.
  unfold add_num. destruct (to_float b) as [e|b'] eqn:E; simpl; [|discriminate].
  apply to_float_error in E. congruence.
Qed.

Lemma sub_num_not_type_error (a : float) (b : num) :
  sub_num a b <> inl TypeError.
Proof.
  unfold sub_num. destruct (to_float b) as [e|b'] eqn:E; simpl; [|discriminate].
  apply to_float_error in E. congruence.
Qed.

Lemma div_num_not_type_error (a b : num) : div_num a b <> inl TypeError.
Proof.
  assert (Hgen : forall a b,
            ebind (to_float a) (fun a' =>
            ebind (to_float b) (fun b' =>
            if is_zero b' then inl ZeroDivisionError else inr (fdiv a' b')))
            <> inl TypeError).
  { intros a0 b0. destruct (to_float a0) as [e|a'] eqn:Ea; simpl.
    { apply to_float_error in Ea. congruence. }
    destruct (to_float b0) as [e|b'] eqn:Eb; simpl.
    { apply to_float_error in Eb. congruence. }
    destruct (is_zero b'); discriminate. }
  destruct a as [x|x], b as [y|y]; try apply Hgen.
  unfold div_num. destruct y as [|d|d]; [discriminate| |].
  - destruct (is_inf (ratio x d)); discriminate.
  - destruct (is_inf _); discriminate.
Qed.

Lemma pow_half_nonneg (x : float) :
  match x with
  | S754_finite true _ _ | S754_infinity true => False
  | _ => True
  end ->
  pow_half x <> inl TypeError.
Proof.
  destruct x as [s|[|]| |[|] m e]; simpl; try discriminate; try tauto; intros _.
  destruct (feq _ _); [discriminate|].
  destruct (is_inf _); discriminate.
Qed.

Lemma sq_root_of_square_not_type_error (x : float) :
  sq_root_of_square x <> inl TypeError.
Proof.
  unfold sq_root_of_square, pow2.
  destruct x as [s|s| |s m e]; simpl; try discriminate.
  destruct (feq _ one).
  - simpl. discriminate.
  - destruct (is_inf (SFabs _)); cbn [ebind]; [discriminate|].
    apply pow_half_nonneg. destruct (c_pow _ _) as [?|[|]| |[|] ? ?]; exact I.
Qed.

Lemma binary_round_aux_sign (mx ex : Z) (l : location) :
  match binary_round_aux prec emax false mx ex l with
  | S754_finite true _ _ | S754_infinity true => False
  | _ => True
  end.
Proof.
  unfold binary_round_aux.
  destruct (shr_fexp prec emax mx ex l) as [mrs' e'].
  destruct (shr_fexp prec emax _ e' loc_Exact) as [mrs'' e''].
  destruct (shr_m mrs''); try exact I.
  destruct (Z.leb e'' (emax - prec)); exact I.
Qed.

Lemma float_of_Z_nonneg (z : Z) :
  0 <= z ->
  match float_of_Z z with
  | S754_finite true _ _ | S754_infinity true => False
  | _ => True
  end.
Proof.
  intros Hz. unfold float_of_Z, binary_normalize.
  destruct z as [|p|p]; [exact I| |lia].
  unfold binary_round. destruct (shl_align p 0 _) as [mz ez].
  apply binary_round_aux_sign.
Qed.

(** With a number for [voltage], [polarity * (voltage ** 2) ** .5] raises
    nothing but [OverflowError]. *)
Lemma coerce_polarity_number (p : Z) (v : pyval) (n : num) :
  as_number v = Some n -> coerce_polarity p v <> inl TypeError.
Proof.
  intros Hv. destruct v as [z|x|t|]; try discriminate Hv; unfold coerce_polarity.
  - destruct (float_of_int (z * z)) as [e|y] eqn:Ey; simpl.
    { apply float_of_int_error in Ey. congruence. }
    assert (Hy : pow_half y <> inl TypeError).
    { unfold float_of_int in Ey. destruct (is_inf _); [discriminate|].
      injection Ey as <-. apply pow_half_nonneg, float_of_Z_nonneg. nia. }
    destruct (pow_half y) as [e|r]; simpl; [congruence|].
    destruct (float_of_int p) as [e|q] eqn:Ep; simpl; [|discriminate].
    apply float_of_int_error in Ep. congruence.
  - pose proof (sq_root_of_square_not_type_error x) as Hx.
    destruct (sq_root_of_square x) as [e|r]; simpl; [congruence|].
    destruct (float_of_int p) as [e|q] eqn:Ep; simpl; [|discriminate].
    apply float_of_int_error in Ep. congruence.
Qed.

Lemma sleep_rejects_not_type_error (t : float) :
  sleep_rejects t <> Some TypeError.
Proof.
  unfold sleep_rejects. destruct (is_nan t); [discriminate|].
  destruct (negb _); [discriminate|]. destruct (flt t zero); discriminate.
Qed.

End ArithmeticErrors.

Section NoTypeError.
Context {R : Type} `{Resource R}.

Lemma nte_ret {A : Type} (a : A) : no_type_error (R:=R) (ret a).
Proof. intros s e s' E. discriminate E. Qed.

Lemma nte_gets {A : Type} (f : state R -> A) : no_type_error (gets f).
Proof. intros s e s' E. discriminate E. Qed.

Lemma nte_modify (f : state R -> state R) : no_type_error (modify f).
Proof. intros s e s' E. discriminate E. Qed.

Lemma nte_raise {A : Type} (e : exn) :
  e <> TypeError -> no_type_error (R:=R) (A:=A) (raise e).
Proof. intros He s e' s' E. inversion E; subst. exact He. Qed.

Lemma nte_lift {A : Type} (x : exn + A) :
  x <> inl TypeError -> no_type_error (R:=R) (lift x).
Proof.
  intros Hx s e s' E. destruct x as [e0|a]; simpl in E; [|discriminate E].
  inversion E; subst. congruence.
Qed.

Lemma nte_bind {A B : Type} (c : M (state R) A) (k : A -> M (state R) B) :
  no_type_error c -> (forall a, no_type_error (k a)) -> no_type_error (bind c k).
Proof.
  intros Hc Hk s e s' E. unfold bind in E.
  destruct (c s) as [a s1|e1 s1|s1] eqn:Ec.
  - exact (Hk a s1 e s' E).
  - inversion E; subst. exact (Hc s e s' Ec).
  - discriminate E.
Qed.

Lemma nte_sleep (t : float) : no_type_error (R:=R) (sleep t).
Proof.
  intros s e s' E. unfold sleep in E.
  pose proof (sleep_rejects_not_type_error t) as Ht.
  destruct (sleep_rejects t) as [e0|]; [|discriminate E].
  inversion E; subst. congruence.
Qed.

Lemma nte_spin (cond : state R -> bool) (fuel : nat) : no_type_error (spin cond fuel).
Proof.
  induction fuel as [|n IH]; intros s e s' E; simpl in E;
    destruct (cond s); try discriminate E.
  exact (nte_bind (sleep (dec 1 (-1))) (fun _ => spin cond n)
           (nte_sleep _) (fun _ => IH) s e s' E).
Qed.

Lemma nte_resource_write (m : scpi) : no_type_error (_resource_write m).
Proof. intros s e s' E. discriminate E. Qed.

Hypothesis io_errors : query_errors_are_io R.

Lemma nte_resource_query (m : scpi) : no_type_error (_resource_query m).
Proof.
  intros s e s' E. unfold _resource_query in E.
  destruct (resource_query m (_resource s)) as [[e0|a] r] eqn:Eq.
  - inversion E; subst. exact (io_errors m _ _ _ Eq).
  - discriminate E.
Qed.

End NoTypeError.

Create HintDb nte.
#[export] Hint Resolve nte_ret nte_gets nte_modify nte_sleep nte_spin
  nte_resource_write : nte.
#[export] Hint Extern 1 (no_type_error (raise _)) =>
  apply nte_raise; discriminate : nte.
#[export] Hint Extern 1 (no_type_error (lift (inr _))) =>
  apply nte_lift; discriminate : nte.
#[export] Hint Extern 1 (no_type_error (lift (add_num _ _))) =>
  apply nte_lift, add_num_not_type_error : nte.
#[export] Hint Extern 1 (no_type_error (lift (sub_num _ _))) =>
  apply nte_lift, sub_num_not_type_error : nte.
#[export] Hint Extern 1 (no_type_error (lift (div_num _ _))) =>
  apply nte_lift, div_num_not_type_error : nte.
#[export] Hint Extern 1 (no_type_error (lift (sq_root_of_square _))) =>
  apply nte_lift, sq_root_of_square_not_type_error : nte.

Ltac nte_step :=
  match goal with
  | |- no_type_error (bind _ _) => apply nte_bind; [|intros]
  | |- no_type_error (if ?b then _ else _) => destruct b
  | |- no_type_error (match ?x with _ => _ end) => destruct x
  | |- no_type_error _ => solve [auto with nte]
  end.

Ltac nte_all := repeat nte_step.

Section NoTypeErrorMethods.
Context {R : Type} `{Resource R} `{Platform}.
Hypothesis io_errors : query_errors_are_io R.

Lemma nte_write (fuel : nat) (m : scpi) : no_type_error (Keithley2470.write fuel m).
Proof. unfold Keithley2470.write. nte_all. Qed.

Lemma nte_query (fuel : nat) (m : scpi) : no_type_error (Keithley2470.query fuel m).
Proof.
  unfold Keithley2470.query.
  pose proof (nte_resource_query io_errors m). nte_all; auto.
Qed.

#[local] Hint Resolve nte_write nte_query : nte.

Lemma nte_output (fuel : nat) : no_type_error (Keithley2470.output fuel).
Proof. unfold Keithley2470.output. nte_all. Qed.

Lemma nte_get_source_voltage (fuel : nat) :
  no_type_error (Keithley2470.get_source_voltage fuel).
Proof. unfold Keithley2470.get_source_voltage. nte_all. Qed.

Lemma nte_measure_voltage (fuel : nat) :
  no_type_error (Keithley2470.measure_voltage fuel).
Proof. unfold Keithley2470.measure_voltage. nte_all. Qed.

Lemma nte_base_set_source_voltage_int (z : Z) :
  no_type_error (R:=R) (Keithley2470.set_source_voltage (PyInt z)).
Proof. unfold Keithley2470.set_source_voltage. cbn [as_number]. nte_all. Qed.

Lemma nte_base_set_source_voltage_float (x : float) :
  no_type_error (R:=R) (Keithley2470.set_source_voltage (PyFloat x)).
Proof. unfold Keithley2470.set_source_voltage. simpl. auto with nte. Qed.

Lemma nte_base_set_output_str (fuel : nat) (st : string) :
  no_type_error (Keithley2470.set_output fuel (PyStr st)).
Proof. unfold Keithley2470.set_output. simpl py_upper. nte_all. Qed.

#[local] Hint Resolve nte_output nte_get_source_voltage nte_measure_voltage
  nte_base_set_source_voltage_int nte_base_set_source_voltage_float
  nte_base_set_output_str : nte.

Lemma nte_ramp_sleep : no_type_error (R:=R) Keithley2470SafeForLGADs.ramp_sleep.
Proof.
  unfold Keithley2470SafeForLGADs.ramp_sleep,
    Keithley2470SafeForLGADs.volt_step, Keithley2470SafeForLGADs.slew_rate.
  nte_all.
Qed.

#[local] Hint Resolve nte_ramp_sleep : nte.

Lemma nte_ramp (fuel n : nat) (target : float) :
  no_type_error (Keithley2470SafeForLGADs.ramp fuel n target).
Proof.
  induction n as [|n IH]; [intros s e s' E; discriminate E|].
  cbn [Keithley2470SafeForLGADs.ramp].
  unfold Keithley2470SafeForLGADs.volt_step. nte_all; exact IH.
Qed.

#[local] Hint Resolve nte_ramp : nte.

Lemma nte_safe_set_source_voltage (fuel : nat) (v : pyval) (n : num) :
  as_number v = Some n ->
  no_type_error (Keithley2470SafeForLGADs.set_source_voltage fuel v).
Proof.
  intros Hv. unfold Keithley2470SafeForLGADs.set_source_voltage.
  apply nte_bind; [auto with nte | intros p].
  apply nte_bind; [apply nte_lift, (coerce_polarity_number p v n Hv) | intros target].
  nte_all.
Qed.

Lemma nte_safe_set_output_str (fuel : nat) (st : string) :
  no_type_error (Keithley2470SafeForLGADs.set_output fuel (PyStr st)).
Proof.
  unfold Keithley2470SafeForLGADs.set_output. simpl py_lower.
  pose proof (nte_safe_set_source_voltage fuel (PyInt 0) _ eq_refl).
  assert (forall x, no_type_error
            (Keithley2470SafeForLGADs.set_source_voltage fuel (PyFloat x)))
    by (intros x; exact (nte_safe_set_source_voltage fuel (PyFloat x) _ eq_refl)).
  nte_all; auto.
Qed.

Lemma nte_init (fuel : nat) : no_type_error (Keithley2470__init__ fuel).
Proof.
  unfold Keithley2470__init__.
  assert (Hsv : no_type_error (set_source_voltage (R:=R) fuel (PyInt 0))).
  { intros s. unfold set_source_voltage. destruct (klass s).
    - apply nte_base_set_source_voltage_int.
    - apply (nte_safe_set_source_voltage fuel (PyInt 0) _ eq_refl). }
  assert (Hso : no_type_error (set_output (R:=R) fuel (PyStr "off"))).
  { intros s. unfold set_output. destruct (klass s).
    - apply nte_base_set_output_str.
    - apply nte_safe_set_output_str. }
  pose proof (nte_resource_query io_errors IDN_q).
  nte_all; auto.
Qed.

End NoTypeErrorMethods.

(** The simulated instrument fails a query with a timeout only. *)
Lemma instrument_query_errors_are_io : query_errors_are_io instrument.
Proof.
  intros m d d' e E. simpl in E. unfold dev_take in E.
  destruct (dev_outbuf (dev_exec m d)); inversion E; discriminate.
Qed.

(** X5.  Polarity check.  The constructor of [Keithley2470SafeForLGADs]
    raises [TypeError] exactly when [polarity] is not the string
    'positive' or 'negative' (any other string, capitals included, and
    any value that is no string); it then leaves everything untouched:
    no call on the resource, no attribute set, no exit hook.  The
    transport is any whose own failures are not [TypeError]s. *)
Theorem X5_constructor_type_error_iff_bad_polarity {R : Type} `{Resource R}
    `{Platform} (fuel : nat) (polarity : pyval) (slew step : num) (s : state R) :
  query_errors_are_io R ->
  ((exists s', Keithley2470SafeForLGADs__init__ fuel polarity slew step s
               = Raise TypeError s')
   <-> (polarity <> PyStr "positive" /\ polarity <> PyStr "negative"))
  /\ (polarity <> PyStr "positive" -> polarity <> PyStr "negative" ->
      Keithley2470SafeForLGADs__init__ fuel polarity slew step s
      = Raise TypeError s).
Proof.
  intros Hio.
  assert (Hbad : polarity <> PyStr "positive" -> polarity <> PyStr "negative" ->
                 Keithley2470SafeForLGADs__init__ fuel polarity slew step s
                 = Raise TypeError s).
  { intros Hp Hn. unfold Keithley2470SafeForLGADs__init__.
    destruct polarity as [| |p|]; try reflexivity.
    destruct (String.eqb p "positive") eqn:Ep.
    { apply String.eqb_eq in Ep. subst p. congruence. }
    destruct (String.eqb p "negative") eqn:En.
    { apply String.eqb_eq in En. subst p. congruence. }
    reflexivity. }
  split; [|exact Hbad]. split.
  - intros [s' Hr].
    assert (Hgood : forall p, polarity = PyStr p ->
              String.eqb p "positive" || String.eqb p "negative" = true -> False).
    { intros p -> Hv. unfold Keithley2470SafeForLGADs__init__ in Hr.
      rewrite Hv in Hr. simpl negb in Hr. cbv iota in Hr.
      refine (nte_bind _ _ (nte_modify _) (fun _ => nte_init Hio fuel)
                s _ _ Hr eq_refl). }
    split; intros ->; eapply Hgood; reflexivity.
  - intros [Hp Hn]. exists s. exact (Hbad Hp Hn).
Qed.

Lemma X5_constructor_type_error_iff_bad_polarity_witness :
  let s := new SafeForLGADs (bench true (float_of_Z 5)) [] in
  query_errors_are_io instrument
  /\ PyStr "Positive" <> PyStr "positive" /\ PyStr "Positive" <> PyStr "negative"
  /\ Keithley2470SafeForLGADs__init__ 0 (PyStr "Positive") (NInt 10)
       (NFloat (dec 25 (-1))) s
     = Raise TypeError s.
Proof.
  intros s.
  assert (Hp : PyStr "Positive" <> PyStr "positive") by discriminate.
  assert (Hn : PyStr "Positive" <> PyStr "negative") by discriminate.
  split; [exact instrument_query_errors_are_io|].
  split; [exact Hp|]. split; [exact Hn|].
  exact (proj2 (X5_constructor_type_error_iff_bad_polarity
                  0 (PyStr "Positive") (NInt 10) (NFloat (dec 25 (-1))) s
                  instrument_query_errors_are_io) Hp Hn).
Defined.

(** ** Answers that do not parse *)

Lemma query_clear {R : Type} `{Resource R} (fuel : nat) (m : scpi)
    (s : state R) (a : answer) (r' : R) :
  _is_writing s = false -> _is_reading s = false ->
  resource_query m (_resource s) = (inr a, r') ->
  Keithley2470.query fuel m s = Return a (set_resource r' s).
Proof.
  intros Hw Hr Hq. unfold Keithley2470.query, bind.
  rewrite spin_clear by (rewrite Hw, Hr; reflexivity).
  unfold modify, _resource_query, ret. simpl. rewrite Hq.
  destruct s; simpl in *; subst; reflexivity.
Qed.

(** X6.  The property [output], on any resource: it makes the one query
    of the output state and returns 'off' exactly when the answer is the
    integer literal 0, 'on' exactly when it is 1; every other answer (any
    other integer, a decimal such as 1.0, any text) raises
    [RuntimeError].  Nothing else is sent and the flags are clear
    again. *)
Theorem X6_output_maps_answer {R : Type} `{Resource R} `{Platform} (fuel : nat)
    (s : state R) (a : answer) (r' : R) :
  _is_writing s = false -> _is_reading s = false ->
  resource_query OUTPUT_STATE_q (_resource s) = (inr a, r') ->
  (Keithley2470.output fuel s = Return "off" (set_resource r' s) <-> a = AInt 0)
  /\ (Keithley2470.output fuel s = Return "on" (set_resource r' s) <-> a = AInt 1)
  /\ (Keithley2470.output fuel s = Raise RuntimeError (set_resource r' s)
      <-> a <> AInt 0 /\ a <> AInt 1).
Proof.
  intros Hw Hr Hq. unfold Keithley2470.output, bind.
  rewrite (query_clear fuel OUTPUT_STATE_q s a r' Hw Hr Hq).
  destruct a as [z|x|t]; simpl.
  - destruct z as [|[q|q|]|q]; simpl; unfold ret, raise;
      (repeat split; intros; try discriminate; try congruence;
       try (split; discriminate)).
    + destruct H1 as [H1 _]. congruence.
    + destruct H1 as [_ H1]. congruence.
  - unfold raise. repeat split; intros; try discriminate; try congruence.
  - unfold raise. repeat split; intros; try discriminate; try congruence.
Qed.

Lemma X6_output_maps_answer_witness :
  let d := Instrument "KEITHLEY INSTRUMENTS,MODEL 2470" true (float_of_Z 5)
             zero zero zero [ADec one] [] in
  let s := safe_on d 1 (NInt 10) (NFloat (dec 25 (-1))) in
  let r' := snd (resource_query OUTPUT_STATE_q d) in
  _is_writing s = false /\ _is_reading s = false
  /\ resource_query OUTPUT_STATE_q (_resource s) = (inr (ADec one), r')
  /\ ADec one <> AInt 0 /\ ADec one <> AInt 1
  /\ Keithley2470.output 0 s = Raise RuntimeError (set_resource r' s).
Proof.
  intros d s r'.
  assert (H0 : ADec one <> AInt 0) by discriminate.
  assert (H1 : ADec one <> AInt 1) by discriminate.
  split; [reflexivity|]. split; [reflexivity|]. split; [reflexivity|].
  split; [exact H0|]. split; [exact H1|].
  exact (proj2 (proj2 (proj2 (X6_output_maps_answer 0 s (ADec one) r'
                                 eq_refl eq_refl eq_refl))) (conj H0 H1)).
Defined.

Lemma output_clear {R : Type} `{Resource R} `{Platform} (fuel : nat)
    (s : state R) (a : answer) (r' : R) :
  _is_writing s = false -> _is_reading s = false ->
  resource_query OUTPUT_STATE_q (_resource s) = (inr a, r') ->
  Keithley2470.output fuel s =
  match py_int a with
  | Some 0 => Return "off" (set_resource r' s)
  | Some 1 => Return "on" (set_resource r' s)
  | _ => Raise RuntimeError (set_resource r' s)
  end.
Proof.
  intros Hw Hr Hq. unfold Keithley2470.output, bind.
  rewrite (query_clear fuel OUTPUT_STATE_q s a r' Hw Hr Hq).
  destruct (py_int a) as [[|[q|q|]|q]|]; reflexivity.
Qed.

Lemma get_source_voltage_clear {R : Type} `{Resource R} `{Platform} (fuel : nat)
    (s : state R) (a : answer) (r' : R) :
  _is_writing s = false -> _is_reading s = false ->
  resource_query SOUR_VOLT_q (_resource s) = (inr a, r') ->
  Keithley2470.get_source_voltage fuel s =
  match py_float_of_answer a with
  | Some x => Return x (set_resource r' s)
  | None => Raise ValueError (set_resource r' s)
  end.
Proof.
  intros Hw Hr Hq. unfold Keithley2470.get_source_voltage, bind.
  rewrite (query_clear fuel SOUR_VOLT_q s a r' Hw Hr Hq).
  destruct (py_float_of_answer a); reflexivity.
Qed.

Lemma gt_num_nan (b : num) : gt_num nan b = false.
Proof. destruct b as [z|f]; [reflexivity|]. destruct f; reflexivity. Qed.

Lemma sq_root_of_square_nan `{Platform} (x : float) :
  sq_root_of_square (fsub x nan) = inr nan.
Proof. destruct x; reflexivity. Qed.

(** X7.  The level the instrument reports, as [float()] reads it.  On any
    resource that reports the output on and then answers the level query,
    [set_source_voltage] of the safe class, once the target is computed:
    with an answer [float()] does not accept it raises [ValueError] after
    those two queries, no level written and no retry made; with an answer
    [float()] reads as NaN the test of the loop is false, and the target
    is written at once, in one step whatever the distance. *)
Theorem X7_unparsed_level_aborts_ramp {R : Type} `{Resource R} `{Platform}
    (fuel : nat) (v : pyval) (target : float) (s : state R) (r1 r2 : R)
    (a : answer) :
  coerce_polarity (_polarity s) v = inr target ->
  _is_writing s = false -> _is_reading s = false ->
  resource_query OUTPUT_STATE_q (_resource s) = (inr (AInt 1), r1) ->
  resource_query SOUR_VOLT_q r1 = (inr a, r2) ->
  (0 < fuel)%nat ->
  (py_float_of_answer a = None ->
   Keithley2470SafeForLGADs.set_source_voltage fuel v s
   = Raise ValueError (set_resource r2 s))
  /\ (py_float_of_answer a = Some nan ->
      Keithley2470SafeForLGADs.set_source_voltage fuel v s
      = Return tt (set_resource
                     (resource_write (SOURCE_VOLT_LEV (NFloat target)) r2) s)).
Proof.
  intros Ec Hw Hr Hq1 Hq2 Hfuel.
  assert (E : Keithley2470SafeForLGADs.set_source_voltage fuel v s
              = match py_float_of_answer a with
                | None => Raise ValueError (set_resource r2 s)
                | Some x =>
                    (gap <- lift (sq_root_of_square (fsub target x)) ;;
                     step1 <- Keithley2470SafeForLGADs.volt_step ;;
                     if gt_num gap step1 then
                       (v2 <- Keithley2470.get_source_voltage fuel ;;
                        step2 <- Keithley2470SafeForLGADs.volt_step ;;
                        if gt_num (fsub target v2) step2 then
                          v3 <- Keithley2470.get_source_voltage fuel ;;
                          step3 <- Keithley2470SafeForLGADs.volt_step ;;
                          level <- lift (add_num v3 step3) ;;
                          Keithley2470.set_source_voltage (PyFloat level)
                        else
                          v3 <- Keithley2470.get_source_voltage fuel ;;
                          step3 <- Keithley2470SafeForLGADs.volt_step ;;
                          level <- lift (sub_num v3 step3) ;;
                          Keithley2470.set_source_voltage (PyFloat level)) ;;
                       Keithley2470SafeForLGADs.ramp_sleep ;;
                       Keithley2470SafeForLGADs.ramp fuel (Nat.pred fuel) target
                     else Keithley2470.set_source_voltage (PyFloat target))
                      (set_resource r2 s)
                end).
  { unfold Keithley2470SafeForLGADs.set_source_voltage.
    unfold bind at 1. unfold gets at 1. rewrite Ec.
    unfold bind at 1. unfold lift, ret.
    unfold bind at 1.
    rewrite (output_clear fuel s (AInt 1) r1 Hw Hr Hq1). simpl py_int. cbv iota.
    change (String.eqb "on" "off") with false. cbv iota.
    destruct fuel as [|n]; [lia|].
    cbn [Keithley2470SafeForLGADs.ramp Nat.pred]. unfold bind at 1.
    rewrite (get_source_voltage_clear (S n) (set_resource r1 s) a r2 Hw Hr Hq2).
    destruct (py_float_of_answer a); destruct s; reflexivity. }
  rewrite E. split; intros Ha; rewrite Ha; [reflexivity|].
  unfold bind at 1. rewrite sq_root_of_square_nan. simpl lift.
  unfold ret at 1. unfold bind at 1.
  unfold Keithley2470SafeForLGADs.volt_step, gets. rewrite gt_num_nan.
  destruct s; reflexivity.
Qed.

Lemma X7_unparsed_level_aborts_ramp_witness :
  let d := Instrument "KEITHLEY INSTRUMENTS,MODEL 2470" true (float_of_Z 5)
             zero zero zero [AInt 1; AText "nan"] [] in
  let s := safe_on d 1 (NInt 10) (NFloat (dec 25 (-1))) in
  let r1 := snd (resource_query OUTPUT_STATE_q d) in
  let r2 := snd (resource_query SOUR_VOLT_q r1) in
  coerce_polarity (_polarity s) (PyInt 50) = inr (float_of_Z 50)
  /\ _is_writing s = false /\ _is_reading s = false
  /\ resource_query OUTPUT_STATE_q (_resource s) = (inr (AInt 1), r1)
  /\ resource_query SOUR_VOLT_q r1 = (inr (AText "nan"), r2)
  /\ (0 < 3)%nat
  /\ py_float_of_answer (AText "nan") = Some nan
  /\ Keithley2470SafeForLGADs.set_source_voltage 3 (PyInt 50) s
     = Return tt (set_resource
                    (resource_write (SOURCE_VOLT_LEV (NFloat (float_of_Z 50))) r2) s)
  /\ writes (dev_log (resource_write (SOURCE_VOLT_LEV (NFloat (float_of_Z 50))) r2))
     = [SOURCE_VOLT_LEV (NFloat (float_of_Z 50))].
Proof.
  intros d s r1 r2.
  assert (Hf : (0 < 3)%nat) by lia.
  assert (Hc : coerce_polarity (_polarity s) (PyInt 50) = inr (float_of_Z 50))
    by (vm_compute; reflexivity).
  split; [exact Hc|].
  split; [reflexivity|]. split; [reflexivity|].
  split; [reflexivity|]. split; [reflexivity|]. split; [exact Hf|].
  split; [reflexivity|].
  split; [|vm_compute; reflexivity].
  exact (proj2 (X7_unparsed_level_aborts_ramp 3 (PyInt 50) (float_of_Z 50) s r1 r2
                  (AText "nan") Hc eq_refl eq_refl eq_refl eq_refl Hf) eq_refl).
Defined.

(** ** Setting and reading back *)

Lemma get_source_current_limit_idle `{Platform} (fuel : nat)
    (s : state instrument) :
  idle s ->
  Keithley2470.get_source_current_limit fuel s
  = Return (dev_ilim (_resource s)) (queried SOUR_VOLT_ILIM_q s).
Proof.
  intros Hi. unfold Keithley2470.get_source_current_limit, bind.
  rewrite query_idle by assumption. crush_idle s.
Qed.

(** X8.  On the honest instrument, what [Keithley2470.set_source_voltage]
    writes is what [get_source_voltage] reads back, as the double nearest
    to it: a float comes back as it is, an int beyond 2**53 rounded (an
    int [str()] refuses is not written at all).  Likewise for the current
    limit.  Each setter makes one write and leaves the other setting and
    the output state alone. *)
Theorem X8_set_then_get_round_trip `{Platform} (fuel : nat) (v : pyval)
    (n : num) (s : state instrument) :
  as_number v = Some n -> num_str_ok n = true -> idle s ->
  (exists s',
      (Keithley2470.set_source_voltage v ;;
       Keithley2470.get_source_voltage fuel) s = Return (float_of_literal n) s'
      /\ log s' = [Qy SOUR_VOLT_q; Wr (SOURCE_VOLT_LEV n)] ++ log s
      /\ dev_ilim (_resource s') = dev_ilim (_resource s)
      /\ output_on s' = output_on s /\ idle s')
  /\ (exists s',
         (Keithley2470.set_source_current_limit v ;;
          Keithley2470.get_source_current_limit fuel) s
         = Return (float_of_literal n) s'
         /\ log s' = [Qy SOUR_VOLT_ILIM_q; Wr (SOURCE_VOLT_ILIM n)] ++ log s
         /\ volt s' = volt s
         /\ output_on s' = output_on s /\ idle s').
Proof.
  intros Hv Hok Hi. split.
  - unfold bind, Keithley2470.set_source_voltage. rewrite Hv, Hok.
    change (_resource_write (SOURCE_VOLT_LEV n) s)
      with (Return (A:=unit) tt (wrote (SOURCE_VOLT_LEV n) s)).
    cbv iota beta.
    assert (Hi1 : idle (wrote (SOURCE_VOLT_LEV n) s))
      by (apply idle_wrote_volt; exact Hi).
    rewrite (get_source_voltage_idle fuel _ Hi1).
    eexists. split; [reflexivity|]. repeat split; try reflexivity; apply Hi.
  - unfold bind, Keithley2470.set_source_current_limit. rewrite Hv, Hok.
    change (_resource_write (SOURCE_VOLT_ILIM n) s)
      with (Return (A:=unit) tt (wrote (SOURCE_VOLT_ILIM n) s)).
    cbv iota beta.
    assert (Hi1 : idle (wrote (SOURCE_VOLT_ILIM n) s))
      by (unfold idle in *; simpl; tauto).
    rewrite (get_source_current_limit_idle fuel _ Hi1).
    eexists. split; [reflexivity|]. repeat split; try reflexivity; apply Hi.
Qed.

Lemma X8_set_then_get_round_trip_witness :
  let s := safe_on (bench false zero) 1 (NInt 10) (NFloat (dec 25 (-1))) in
  let big := (2 ^ 53 + 1)%Z in
  as_number (PyInt big) = Some (NInt big) /\ num_str_ok (NInt big) = true
  /\ idle s
  /\ float_of_literal (NInt big) = float_of_Z (2 ^ 53)
  /\ exists s',
      (Keithley2470.set_source_voltage (PyInt big) ;;
       Keithley2470.get_source_voltage 0) s = Return (float_of_literal (NInt big)) s'
      /\ log s' = [Qy SOUR_VOLT_q; Wr (SOURCE_VOLT_LEV (NInt big))] ++ log s
      /\ dev_ilim (_resource s') = dev_ilim (_resource s)
      /\ output_on s' = output_on s /\ idle s'.
Proof.
  intros s big.
  assert (Hi : idle s) by (apply idle_safe_on; reflexivity).
  assert (Hok : num_str_ok (NInt big) = true) by (vm_compute; reflexivity).
  split; [reflexivity|]. split; [exact Hok|]. split; [exact Hi|].
  split; [vm_compute; reflexivity|].
  exact (proj1 (X8_set_then_get_round_trip 0 (PyInt big) (NInt big)
                  s eq_refl Hok Hi)).
Defined.

(** ** Switching the output on *)

Lemma base_set_output_on_idle `{Platform} (fuel : nat) (s : state instrument) :
  idle s ->
  Keithley2470.set_output fuel (PyStr "on") s = Return tt (wrote (OUTPUT "ON") s).
Proof.
  intros Hi. unfold Keithley2470.set_output, bind. simpl.
  apply write_idle. exact Hi.
Qed.

Lemma safe_set_output_on_from_off_eq `{Platform} (fuel : nat)
    (s : state instrument) :
  idle s -> output_on s = false ->
  Keithley2470SafeForLGADs.set_output fuel (PyStr "on") s =
  Keithley2470SafeForLGADs.set_source_voltage fuel (PyFloat (volt s))
    (wrote (OUTPUT "ON")
       (wrote (SOURCE_VOLT_LEV (NInt 0))
          (queried SOUR_VOLT_q (queried OUTPUT_STATE_q s)))).
Proof.
  intros Hi Hoff. unfold Keithley2470SafeForLGADs.set_output.
  unfold bind at 1. simpl lift. unfold ret at 1.
  change (String.eqb (str_lower "on") "off") with false. cbv iota.
  unfold bind at 1. rewrite (output_idle fuel s Hi), Hoff.
  change (String.eqb "off" "on") with false. cbv iota.
  pose proof (idle_queried OUTPUT_STATE_q _ Hi) as Hi1.
  unfold bind at 1. rewrite (get_source_voltage_idle fuel _ Hi1).
  unfold bind at 1.
  change (Keithley2470.set_source_voltage (PyInt 0)
            (queried SOUR_VOLT_q (queried OUTPUT_STATE_q s)))
    with (Return (A:=unit) tt
            (wrote (SOURCE_VOLT_LEV (NInt 0))
               (queried SOUR_VOLT_q (queried OUTPUT_STATE_q s)))).
  cbv iota beta. unfold bind at 1.
  rewrite base_set_output_on_idle
    by (apply idle_wrote_volt; apply idle_queried; exact Hi1).
  reflexivity.
Qed.

(** X9.  [set_output('on')] of the safe class with the output off, on
    the honest instrument.  The instrument receives, in order, the
    queries of output state and level, the write of level 0, the
    output-on command, and only then the ramp back to
    [polarity * (V ** 2) ** .5], [V] being the level found.  The levels
    of that ramp start from 0 and each is what one iteration of the loop
    makes of the one before.  The call returns exactly when the ramp
    arrives, and then the output is on at the target; when the target
    cannot be computed the call raises with the output on at level 0. *)
Theorem X9_output_on_ramps_up_from_zero `{Platform} (fuel : nat)
    (s : state instrument) :
  idle s -> output_on s = false ->
  let r := Keithley2470SafeForLGADs.set_output fuel (PyStr "on") s in
  let sent := [Wr (OUTPUT "ON"); Wr (SOURCE_VOLT_LEV (NInt 0));
               Qy SOUR_VOLT_q; Qy OUTPUT_STATE_q] in
  match coerce_polarity (_polarity s) (PyFloat (volt s)) with
  | inl e =>
      exists s', r = Raise e s' /\ log s' = sent ++ log s
                 /\ output_on s' = true /\ volt s' = zero
  | inr target =>
      (exists l,
          log (final r) = l ++ sent ++ log s
          /\ Forall before_off l
          /\ stepwise target (_volt_step s) (written l ++ [zero])
          /\ output_on (final r) = true)
      /\ (returns r
          <-> arrives fuel target zero (_volt_step s) (_slew_rate s) = true)
      /\ (forall s', r = Return tt s' -> volt s' = target /\ idle s')
  end.
Proof.
  intros Hi Hoff r sent.
  set (s4 := wrote (OUTPUT "ON")
               (wrote (SOURCE_VOLT_LEV (NInt 0))
                  (queried SOUR_VOLT_q (queried OUTPUT_STATE_q s)))).
  assert (Hi4 : idle s4) by (unfold idle in *; simpl; tauto).
  assert (Er : r = Keithley2470SafeForLGADs.set_source_voltage fuel
                     (PyFloat (volt s)) s4)
    by (subst r s4; apply safe_set_output_on_from_off_eq; assumption).
  pose proof (safe_set_source_voltage_idle fuel (PyFloat (volt s)) s4 Hi4) as E.
  change (_polarity s4) with (_polarity s) in E.
  destruct (coerce_polarity (_polarity s) (PyFloat (volt s))) as [e|target] eqn:Ec.
  - exists s4. rewrite Er, E. repeat split; reflexivity.
  - change (output_on s4) with true in E. cbv iota in E.
    set (s5 := queried OUTPUT_STATE_q s4) in E.
    assert (Hi5 : idle s5) by (apply idle_queried; exact Hi4).
    rewrite <- Er in E.
    split; [|split].
    + destruct (ramp_moves fuel fuel target s5 Hi5)
        as (l & z & Hf & Hl & Hb & _ & _).
      exists (l ++ [Qy OUTPUT_STATE_q]).
      rewrite E, Hf.
      split.
      { unfold log, s5, s4. simpl. rewrite <- app_assoc. reflexivity. }
      split.
      { apply Forall_app. split; [apply Forall_before_off_ramp; exact Hl|].
        constructor; [left; reflexivity | constructor]. }
      split; [|reflexivity].
      rewrite written_app. simpl. rewrite app_nil_r. exact Hb.
    + rewrite E. apply (ramp_returns_iff fuel fuel target s5 Hi5).
    + intros s' Hs'. rewrite Er in Hs'.
      destruct (set_source_voltage_returned_state fuel (PyFloat (volt s)) target
                  s4 s' Hi4 Ec Hs') as (Hi' & Hv' & _).
      split; assumption.
Qed.

Lemma X9_output_on_ramps_up_from_zero_witness :
  let s := safe_on (bench false (float_of_Z (-20))) (-1) (NInt 10)
             (NFloat (dec 25 (-1))) in
  let r := Keithley2470SafeForLGADs.set_output 20 (PyStr "on") s in
  idle s /\ output_on s = false
  /\ coerce_polarity (_polarity s) (PyFloat (volt s)) = inr (float_of_Z (-20))
  /\ returns r /\ volt (final r) = float_of_Z (-20)
  /\ written (log (final r))
     = [float_of_Z (-20); dec (-175) (-1); float_of_Z (-15);
        dec (-125) (-1); float_of_Z (-10); dec (-75) (-1); float_of_Z (-5);
        dec (-25) (-1); zero].
Proof.
  intros s r.
  assert (Hi : idle s) by (apply idle_safe_on; reflexivity).
  assert (Hc : coerce_polarity (_polarity s) (PyFloat (volt s))
               = inr (float_of_Z (-20))) by (vm_compute; reflexivity).
  pose proof (X9_output_on_ramps_up_from_zero 20 s Hi eq_refl) as HX.
  cbv zeta in HX. rewrite Hc in HX. destruct HX as (_ & Hret & _).
  split; [exact Hi|]. split; [reflexivity|]. split; [exact Hc|].
  split; [apply Hret; vm_compute; reflexivity|].
  split; vm_compute; reflexivity.
Defined.

(** ** Setting the level with the output off *)

(** X10.  With the output off [set_source_voltage] of the safe class
    does not ramp.  When [polarity * (voltage ** 2) ** .5] can be
    computed, then whatever the jump and whatever the ramp parameters it
    queries the output state, writes that level once and returns without
    sleeping.  When it cannot (a value that is no number, a square beyond
    the doubles) the call raises before anything is sent. *)
Theorem X10_output_off_writes_directly `{Platform} (fuel : nat) (v : pyval)
    (s : state instrument) :
  idle s -> output_on s = false ->
  (forall e, coerce_polarity (_polarity s) v = inl e ->
     Keithley2470SafeForLGADs.set_source_voltage fuel v s = Raise e s)
  /\ (forall target, coerce_polarity (_polarity s) v = inr target ->
      exists s',
        Keithley2470SafeForLGADs.set_source_voltage fuel v s = Return tt s'
        /\ log s' = [Wr (SOURCE_VOLT_LEV (NFloat target)); Qy OUTPUT_STATE_q]
                    ++ log s
        /\ volt s' = target
        /\ slept s' = slept s /\ output_on s' = false /\ idle s').
Proof.
  intros Hi Hoff.
  pose proof (safe_set_source_voltage_idle fuel v s Hi) as E.
  rewrite Hoff in E. split.
  - intros e Hc. rewrite Hc in E. exact E.
  - intros target Hc. rewrite Hc in E. eexists. split; [exact E|].
    repeat split; try reflexivity; try exact Hoff; apply Hi.
Qed.

Lemma X10_output_off_writes_directly_witness :
  let s := safe_on (bench false zero) (-1) (NInt 0) (NInt 0) in
  idle s /\ output_on s = false
  /\ coerce_polarity (_polarity s) (PyInt (10 ^ 200)) = inl OverflowError
  /\ Keithley2470SafeForLGADs.set_source_voltage 0 (PyInt (10 ^ 200)) s
     = Raise OverflowError s
  /\ coerce_polarity (_polarity s) (PyInt 1000) = inr (float_of_Z (-1000))
  /\ exists s',
      Keithley2470SafeForLGADs.set_source_voltage 0 (PyInt 1000) s = Return tt s'
      /\ log s' = [Wr (SOURCE_VOLT_LEV (NFloat (float_of_Z (-1000))));
                   Qy OUTPUT_STATE_q] ++ log s
      /\ volt s' = float_of_Z (-1000)
      /\ slept s' = slept s /\ output_on s' = false /\ idle s'.
Proof.
  intros s.
  assert (Hi : idle s) by (apply idle_safe_on; reflexivity).
  assert (H1 : coerce_polarity (_polarity s) (PyInt (10 ^ 200)) = inl OverflowError)
    by (vm_compute; reflexivity).
  assert (H2 : coerce_polarity (_polarity s) (PyInt 1000) = inr (float_of_Z (-1000)))
    by (vm_compute; reflexivity).
  split; [exact Hi|]. split; [reflexivity|]. split; [exact H1|].
  split; [exact (proj1 (X10_output_off_writes_directly 0 (PyInt (10 ^ 200)) s
                          Hi eq_refl) _ H1)|].
  split; [exact H2|].
  exact (proj2 (X10_output_off_writes_directly 0 (PyInt 1000) s Hi eq_refl) _ H2).
Defined.

(** ** Pace of the ramp *)

(** The pauses and the level writes of the loop, however it ends. *)
Lemma ramp_pace `{Platform} (n : nat) :
  forall (fuel : nat) (target : float) (s : state instrument),
    idle s ->
    exists l z,
      final (Keithley2470SafeForLGADs.ramp fuel n target s) = moved l z s
      /\ Forall (fun t => pause (_volt_step s) (_slew_rate s) = inr t) z
      /\ (length z <= length (written l) <= S (length z))%nat
      /\ (returns (Keithley2470SafeForLGADs.ramp fuel n target s) ->
          length (written l) = S (length z)).
Proof.
  induction n as [|n IH]; intros fuel target s Hi.
  - exists [], []. simpl. rewrite moved_nil.
    split; [reflexivity|]. split; [constructor|]. split; [lia|]. intros [].
  - rewrite (ramp_S fuel n target s Hi).
    destruct (far target (volt s) (_volt_step s)) as [e|[|]] eqn:Efar.
    + exists [Qy SOUR_VOLT_q], []. simpl final.
      split; [apply queried_moved|]. split; [constructor|].
      split; [simpl; lia|]. intros [].
    + destruct (next_level target (volt s) (_volt_step s)) as [e|w] eqn:Enext.
      { exists [Qy SOUR_VOLT_q; Qy SOUR_VOLT_q; Qy SOUR_VOLT_q], []. simpl final.
        split; [rewrite !queried_moved, !moved_moved; reflexivity|].
        split; [constructor|]. split; [simpl; lia|]. intros []. }
      set (s1 := wrote (SOURCE_VOLT_LEV (NFloat w))
                   (queried SOUR_VOLT_q (queried SOUR_VOLT_q (queried SOUR_VOLT_q s)))).
      set (l1 := [Wr (SOURCE_VOLT_LEV (NFloat w));
                  Qy SOUR_VOLT_q; Qy SOUR_VOLT_q; Qy SOUR_VOLT_q]).
      assert (Es1 : s1 = moved l1 [] s).
      { subst s1 l1. destruct s as [? d ? ? ? ? ? ? ? ?]. destruct d. reflexivity. }
      rewrite (sleep_then_ramp fuel n target s1).
      change (_slew_rate s1) with (_slew_rate s).
      change (_volt_step s1) with (_volt_step s).
      destruct (pause (_volt_step s) (_slew_rate s)) as [e|t] eqn:Epause.
      { exists l1, []. simpl final.
        split; [exact Es1|]. split; [constructor|].
        split; [simpl; lia|]. intros []. }
      set (s2 := record_sleep t s1).
      assert (Es2 : s2 = moved l1 [t] s) by (subst s2; rewrite Es1; reflexivity).
      assert (Hi2 : idle s2) by (rewrite Es2; apply idle_moved; assumption).
      destruct (IH fuel target s2 Hi2) as (l & z & Hf & Hz & Hlen & Hr).
      exists (l ++ l1), (z ++ [t]).
      split; [rewrite Hf, Es2; apply moved_moved|].
      split.
      { apply Forall_app. split.
        - change (_volt_step s2) with (_volt_step s) in Hz.
          change (_slew_rate s2) with (_slew_rate s) in Hz.
          rewrite Epause in Hz. exact Hz.
        - constructor; [reflexivity | constructor]. }
      rewrite written_app. change (written l1) with [w].
      rewrite !length_app. simpl length.
      split; [lia|]. intros Hret. specialize (Hr Hret). lia.
    + exists [Wr (SOURCE_VOLT_LEV (NFloat target)); Qy SOUR_VOLT_q], []. simpl final.
      split.
      { destruct s as [? d ? ? ? ? ? ? ? ?]. destruct d. reflexivity. }
      split; [constructor|]. split; [simpl; lia|]. intros _. reflexivity.
Qed.

(** X11.  The pace of the ramp.  With the output on, on the honest
    instrument, every pause [set_source_voltage] makes lasts exactly
    [volt_step / slew_rate], and there is exactly one pause between two
    consecutive level writes: a call that returns after [k] writes has
    slept [k - 1] times. *)
Theorem X11_ramp_pauses `{Platform} (fuel : nat) (v : pyval) (x : num)
    (s : state instrument) :
  as_number v = Some x -> idle s -> output_on s = true ->
  let r := Keithley2470SafeForLGADs.set_source_voltage fuel v s in
  exists ws z,
    written (log (final r)) = ws ++ written (log s)
    /\ slept (final r) = z ++ slept s
    /\ Forall (fun t => div_num (_volt_step s) (_slew_rate s) = inr t) z
    /\ (length z <= length ws <= S (length z))%nat
    /\ (returns r -> length ws = S (length z)).
Proof.
  intros Hv Hi Hon r.
  pose proof (safe_set_source_voltage_idle fuel v s Hi) as E.
  destruct (coerce_polarity (_polarity s) v) as [e|target].
  - exists [], []. subst r. rewrite E. simpl.
    split; [reflexivity|]. split; [reflexivity|]. split; [constructor|].
    split; [lia|]. intros [].
  - rewrite Hon in E.
    destruct (ramp_pace fuel fuel target (queried OUTPUT_STATE_q s)
                (idle_queried _ _ Hi)) as (l & z & Hf & Hz & Hlen & Hret).
    exists (written l), z. subst r. rewrite E, Hf.
    split; [unfold log; simpl; rewrite written_app; reflexivity|].
    split; [reflexivity|].
    split; [|split; [exact Hlen | exact Hret]].
    revert Hz. apply List.Forall_impl. intros t Ht.
    change (_volt_step (queried OUTPUT_STATE_q s)) with (_volt_step s) in Ht.
    change (_slew_rate (queried OUTPUT_STATE_q s)) with (_slew_rate s) in Ht.
    unfold pause in Ht.
    destruct (div_num (_volt_step s) (_slew_rate s)) as [e|t']; [discriminate Ht|].
    simpl in Ht. destruct (sleep_rejects t'); congruence.
Qed.

Lemma X11_ramp_pauses_witness :
  let s := safe_on (bench true zero) (-1) (NInt 10) (NFloat (dec 25 (-1))) in
  let r := Keithley2470SafeForLGADs.set_source_voltage 10 (PyInt 10) s in
  as_number (PyInt 10) = Some (NInt 10) /\ idle s /\ output_on s = true
  /\ returns r
  /\ exists ws z,
      written (log (final r)) = ws ++ written (log s)
      /\ slept (final r) = z ++ slept s
      /\ Forall (fun t => div_num (_volt_step s) (_slew_rate s) = inr t) z
      /\ (length z <= length ws <= S (length z))%nat
      /\ (returns r -> length ws = S (length z)).
Proof.
  intros s r.
  assert (Hi : idle s) by (apply idle_safe_on; reflexivity).
  split; [reflexivity|]. split; [exact Hi|]. split; [reflexivity|].
  split; [vm_compute; exact I|].
  exact (X11_ramp_pauses 10 (PyInt 10) (NInt 10) s eq_refl Hi eq_refl).
Defined.

(** ** Ramp parameters the constructor let through *)

Lemma pause_zero_slew (step : num) :
  pause step (NInt 0) = inl ZeroDivisionError.
Proof.
  unfold pause, div_num. destruct step as [x|f]; [reflexivity|].
  simpl. reflexivity.
Qed.

Lemma pause_negative (step slew : num) (t : float) :
  div_num step slew = inr t -> flt t zero = true ->
  pause step slew = inl ValueError \/ pause step slew = inl OverflowError.
Proof.
  intros Hd Hneg. unfold pause. rewrite Hd. simpl. unfold sleep_rejects.
  destruct (is_nan t) eqn:En; [destruct t; discriminate|].
  destruct (negb _); [right; reflexivity|].
  rewrite Hneg. left. reflexivity.
Qed.

(** X13.  A zero or negative slew rate is not rejected by the
    constructor; it surfaces in the middle of a ramp.  With the output on
    and the target further than the step, [set_source_voltage] writes the
    first intermediate level and then fails on the pause, with whatever
    the quotient or [time.sleep] raises: [ZeroDivisionError] when
    [slew_rate] is the int 0, [ValueError] (or, beyond the range of
    [time.sleep], [OverflowError]) when [volt_step / slew_rate] is
    negative.  The level is left one step from where it was. *)
Theorem X13_bad_slew_rate_fails_after_first_step `{Platform} (fuel : nat)
    (v : pyval) (target w : float) (s : state instrument) :
  idle s -> output_on s = true -> (0 < fuel)%nat ->
  coerce_polarity (_polarity s) v = inr target ->
  far target (volt s) (_volt_step s) = inr true ->
  next_level target (volt s) (_volt_step s) = inr w ->
  let r := Keithley2470SafeForLGADs.set_source_voltage fuel v s in
  (forall e, pause (_volt_step s) (_slew_rate s) = inl e ->
     r = Raise e (final r)
     /\ written (log (final r)) = w :: written (log s)
     /\ volt (final r) = w /\ slept (final r) = slept s)
  /\ (_slew_rate s = NInt 0 ->
      pause (_volt_step s) (_slew_rate s) = inl ZeroDivisionError)
  /\ (forall t, div_num (_volt_step s) (_slew_rate s) = inr t ->
      flt t zero = true ->
      pause (_volt_step s) (_slew_rate s) = inl ValueError
      \/ pause (_volt_step s) (_slew_rate s) = inl OverflowError).
Proof.
  intros Hi Hon Hfuel Ec Hfar Hnext r.
  split; [|split].
  - intros e Hp.
    pose proof (safe_set_source_voltage_idle fuel v s Hi) as E.
    rewrite Ec, Hon in E.
    destruct fuel as [|n]; [lia|].
    pose proof (idle_queried OUTPUT_STATE_q _ Hi) as Hiq.
    rewrite (ramp_S (S n) n target _ Hiq) in E.
    change (volt (queried OUTPUT_STATE_q s)) with (volt s) in E.
    change (_volt_step (queried OUTPUT_STATE_q s)) with (_volt_step s) in E.
    rewrite Hfar, Hnext in E. rewrite sleep_then_ramp in E.
    match type of E with
    | _ = match pause (_volt_step ?st) _ with _ => _ end => set (s1 := st) in E
    end.
    change (_slew_rate s1) with (_slew_rate s) in E.
    change (_volt_step s1) with (_volt_step s) in E.
    rewrite Hp in E. subst r. rewrite E. simpl final.
    repeat split; reflexivity.
  - intros ->. apply pause_zero_slew.
  - intros t Hd Hneg. exact (pause_negative _ _ t Hd Hneg).
Qed.

Lemma X13_bad_slew_rate_fails_after_first_step_witness :
  let s := safe_on (bench true zero) 1 (NInt 0) (NFloat (dec 25 (-1))) in
  let r := Keithley2470SafeForLGADs.set_source_voltage 5 (PyInt 10) s in
  idle s /\ output_on s = true /\ (0 < 5)%nat
  /\ coerce_polarity (_polarity s) (PyInt 10) = inr (float_of_Z 10)
  /\ far (float_of_Z 10) (volt s) (_volt_step s) = inr true
  /\ next_level (float_of_Z 10) (volt s) (_volt_step s) = inr (dec 25 (-1))
  /\ pause (_volt_step s) (_slew_rate s) = inl ZeroDivisionError
  /\ r = Raise ZeroDivisionError (final r)
  /\ written (log (final r)) = dec 25 (-1) :: written (log s).
Proof.
  intros s r.
  assert (Hi : idle s) by (apply idle_safe_on; reflexivity).
  assert (Hf : (0 < 5)%nat) by lia.
  assert (Hc : coerce_polarity (_polarity s) (PyInt 10) = inr (float_of_Z 10))
    by (vm_compute; reflexivity).
  assert (Hfar : far (float_of_Z 10) (volt s) (_volt_step s) = inr true)
    by (vm_compute; reflexivity).
  assert (Hn : next_level (float_of_Z 10) (volt s) (_volt_step s)
               = inr (dec 25 (-1))) by (vm_compute; reflexivity).
  assert (Hp : pause (_volt_step s) (_slew_rate s) = inl ZeroDivisionError)
    by (vm_compute; reflexivity).
  destruct (proj1 (X13_bad_slew_rate_fails_after_first_step 5 (PyInt 10)
                     (float_of_Z 10) (dec 25 (-1)) s Hi eq_refl Hf Hc Hfar Hn)
              ZeroDivisionError Hp) as (Hr & Hw & _).
  split; [exact Hi|]. split; [reflexivity|]. split; [exact Hf|].
  split; [exact Hc|]. split; [exact Hfar|]. split; [exact Hn|].
  split; [exact Hp|]. split; [exact Hr | exact Hw].
Defined.

(** X14.  A step that moves nothing is not rejected either, and the loop
    has no bound of its own.  With the output on, the level further than
    the step from the target, a step that leaves the level where it is
    when added or subtracted (a step of 0 does) and a pause that
    [time.sleep] accepts, the loop of [set_source_voltage] runs for ever:
    the call has not ended after any number of iterations, on an
    instrument that honours every level written. *)
Theorem X14_non_positive_step_never_returns `{Platform} (fuel : nat)
    (v : pyval) (target : float) (s : state instrument) :
  idle s -> output_on s = true ->
  coerce_polarity (_polarity s) v = inr target ->
  far target (volt s) (_volt_step s) = inr true ->
  next_level target (volt s) (_volt_step s) = inr (volt s) ->
  (exists t, pause (_volt_step s) (_slew_rate s) = inr t) ->
  ~ halts (Keithley2470SafeForLGADs.set_source_voltage fuel v s).
Proof.
  intros Hi Hon Ec Hfar Hnext Hp.
  rewrite (safe_set_source_voltage_idle fuel v s Hi), Ec, Hon.
  apply ramp_stuck; assumption.
Qed.

Lemma X14_non_positive_step_never_returns_witness :
  let s := safe_on (bench true zero) 1 (NInt 10) (NInt 0) in
  idle s /\ output_on s = true
  /\ coerce_polarity (_polarity s) (PyInt 10) = inr (float_of_Z 10)
  /\ far (float_of_Z 10) (volt s) (_volt_step s) = inr true
  /\ next_level (float_of_Z 10) (volt s) (_volt_step s) = inr (volt s)
  /\ (exists t, pause (_volt_step s) (_slew_rate s) = inr t)
  /\ ~ halts (Keithley2470SafeForLGADs.set_source_voltage 1000 (PyInt 10) s).
Proof.
  intros s.
  assert (Hi : idle s) by (apply idle_safe_on; reflexivity).
  assert (Hc : coerce_polarity (_polarity s) (PyInt 10) = inr (float_of_Z 10))
    by (vm_compute; reflexivity).
  assert (Hfar : far (float_of_Z 10) (volt s) (_volt_step s) = inr true)
    by (vm_compute; reflexivity).
  assert (Hn : next_level (float_of_Z 10) (volt s) (_volt_step s) = inr (volt s))
    by (vm_compute; reflexivity).
  assert (Hp : exists t, pause (_volt_step s) (_slew_rate s) = inr t)
    by (exists zero; vm_compute; reflexivity).
  split; [exact Hi|]. split; [reflexivity|]. split; [exact Hc|].
  split; [exact Hfar|]. split; [exact Hn|]. split; [exact Hp|].
  exact (X14_non_positive_step_never_returns 1000 (PyInt 10) (float_of_Z 10) s
           Hi eq_refl Hc Hfar Hn Hp).
Defined.

(** ** Calls that go past the flag *)

Lemma spin_waits {R : Type} `{Resource R} (cond : state R -> bool)
    (fuel : nat) :
  (forall t s, cond (record_sleep t s) = cond s) ->
  forall s : state R,
    cond s = true ->
    exists s', spin cond fuel s = Hang s' /\ _resource s' = _resource s.
Proof.
  intros Hc. induction fuel as [|n IH]; intros s Hs; cbn [spin]; rewrite Hs.
  - exists s. split; reflexivity.
  - unfold bind. rewrite sleep_tenth.
    destruct (IH (record_sleep (dec 1 (-1)) s)) as (s' & Es & Er);
      [rewrite Hc; exact Hs|].
    exists s'. rewrite Es. split; [reflexivity | exact Er].
Qed.

(** X16.  [set_source_voltage] and [set_source_current_limit] of the base
    class and [beep] call [_resource.write] themselves, not [write]: in
    any state, the flag [_is_writing] raised included, they end at once,
    leave both flags as they were and never sleep.  [write] with the flag
    raised waits for as long as it is given, without sending anything. *)
Theorem X16_direct_writes_skip_the_flag {R : Type} `{Resource R} `{Platform}
    (v f t : pyval) (s : state R) :
  Forall (fun r : result (state R) unit =>
            halts r /\ _is_writing (final r) = _is_writing s
            /\ _is_reading (final r) = _is_reading s
            /\ slept (final r) = slept s)
    [Keithley2470.set_source_voltage v s;
     Keithley2470.set_source_current_limit v s;
     Keithley2470.beep f t s]
  /\ (_is_writing s = true ->
      forall (fuel : nat) (msg : scpi),
        exists s', Keithley2470.write fuel msg s = Hang s'
                   /\ _resource s' = _resource s).
Proof.
  split.
  - constructor; [|constructor; [|constructor; [|constructor]]].
    + unfold Keithley2470.set_source_voltage.
      destruct (as_number v) as [n|]; [destruct (num_str_ok n)|];
        simpl; repeat split; reflexivity.
    + unfold Keithley2470.set_source_current_limit.
      destruct (as_number v) as [n|]; [destruct (num_str_ok n)|];
        simpl; repeat split; reflexivity.
    + unfold Keithley2470.beep.
      destruct (Keithley2470.py_float f) as [e|xf].
      { destruct (pyval_str_ok f && pyval_str_ok t);
          simpl; repeat split; reflexivity. }
      destruct (Keithley2470.py_float t) as [e'|xt].
      { destruct (pyval_str_ok t); simpl; repeat split; reflexivity. }
      destruct (negb (fle (float_of_Z 200) xf && fle xf (float_of_Z 5000)));
        [simpl; repeat split; reflexivity|].
      destruct (fgt xt one); simpl; repeat split; reflexivity.
  - intros Hw fuel msg. unfold Keithley2470.write. unfold bind at 1.
    destruct (spin_waits _is_writing fuel (fun _ _ => eq_refl) s Hw)
      as (s' & Es & Er).
    exists s'. rewrite Es. split; [reflexivity | exact Er].
Qed.

Lemma X16_direct_writes_skip_the_flag_witness :
  let s := State Base (bench true (float_of_Z 30)) true false (AText "") 0
             (NInt 0) (NInt 0) [] [] in
  _is_writing s = true
  /\ halts (Keithley2470.set_source_voltage (PyInt 5) s)
  /\ exists s', Keithley2470.write 7 (OUTPUT "OFF") s = Hang s'
                /\ _resource s' = _resource s.
Proof.
  intros s.
  destruct (X16_direct_writes_skip_the_flag (PyInt 5)
              (PyInt 2222) (PyFloat half) s) as [Hd Hw].
  split; [reflexivity|]. split.
  - inversion Hd as [|r l Hr _]. destruct Hr as [Hh _]. exact Hh.
  - exact (Hw eq_refl 7%nat (OUTPUT "OFF")).
Defined.

(** ** The output token *)

Lemma upper_lower_ascii (c : ascii) : upper_ascii (lower_ascii c) = upper_ascii c.
Proof.
  destruct c as [[] [] [] [] [] [] [] []]; vm_compute; reflexivity.
Qed.

Lemma lower_upper_ascii (c : ascii) : lower_ascii (upper_ascii c) = lower_ascii c.
Proof.
  destruct c as [[] [] [] [] [] [] [] []]; vm_compute; reflexivity.
Qed.

Lemma upper_lower (st : string) : upper (lower st) = upper st.
Proof.
  unfold upper, lower. induction st as [|c st IH]; simpl;
    [reflexivity | rewrite upper_lower_ascii, IH; reflexivity].
Qed.

Lemma lower_upper (st : string) : lower (upper st) = lower st.
Proof.
  unfold upper, lower. induction st as [|c st IH]; simpl;
    [reflexivity | rewrite lower_upper_ascii, IH; reflexivity].
Qed.

Lemma upper_of_lower (a b : string) : lower a = lower b -> upper a = upper b.
Proof.
  intros E. rewrite <- (upper_lower a), E. apply upper_lower.
Qed.

Lemma upper_is_iff (a tok : string) :
  upper a = upper tok <-> lower a = lower tok.
Proof.
  split; intros E; [|apply upper_of_lower; exact E].
  rewrite <- (lower_upper a), E. apply lower_upper.
Qed.

Lemma str_upper_ascii `{Platform} (a : string) :
  is_ascii a = true -> str_upper a = upper a.
Proof. intros Ha. unfold str_upper. rewrite Ha. reflexivity. Qed.

Lemma str_lower_ascii `{Platform} (a : string) :
  is_ascii a = true -> str_lower a = lower a.
Proof. intros Ha. unfold str_lower. rewrite Ha. reflexivity. Qed.

(** X17.  The output token is read without regard to case, for tokens
    written in ASCII.  Two such tokens that agree up to case give the
    same call, in either class and any state.  The base class accepts
    exactly the spellings of 'on' and 'off', and sends the token in upper
    case; any other ASCII string raises [ValueError] before anything is
    sent. *)
Theorem X17_output_token_case_insensitive {R : Type} `{Resource R} `{Platform}
    (fuel : nat) (a b : string) (s : state R) :
  is_ascii a = true -> is_ascii b = true ->
  lower a = lower b ->
  set_output fuel (PyStr a) s = set_output fuel (PyStr b) s
  /\ (lower a = "on" ->
      Keithley2470.set_output fuel (PyStr a) s
      = Keithley2470.write fuel (OUTPUT "ON") s)
  /\ (lower a = "off" ->
      Keithley2470.set_output fuel (PyStr a) s
      = Keithley2470.write fuel (OUTPUT "OFF") s)
  /\ (lower a <> "on" -> lower a <> "off" ->
      Keithley2470.set_output fuel (PyStr a) s = Raise ValueError s).
Proof.
  intros Ha Hb E.
  assert (Ebase : Keithley2470.set_output fuel (PyStr a)
                  = Keithley2470.set_output fuel (PyStr b)).
  { unfold Keithley2470.set_output. simpl py_upper.
    rewrite (str_upper_ascii a Ha), (str_upper_ascii b Hb).
    rewrite (upper_of_lower a b E). reflexivity. }
  split; [|split; [|split]].
  - unfold set_output. destruct (klass s); [rewrite Ebase; reflexivity|].
    unfold Keithley2470SafeForLGADs.set_output. simpl py_lower.
    rewrite (str_lower_ascii a Ha), (str_lower_ascii b Hb), E, Ebase.
    reflexivity.
  - intros Ea. unfold Keithley2470.set_output. simpl py_upper.
    rewrite (str_upper_ascii a Ha).
    assert (Eon : upper a = "ON") by (apply (upper_is_iff a "on"); exact Ea).
    rewrite Eon. reflexivity.
  - intros Ea. unfold Keithley2470.set_output. simpl py_upper.
    rewrite (str_upper_ascii a Ha).
    assert (Eoff : upper a = "OFF") by (apply (upper_is_iff a "off"); exact Ea).
    rewrite Eoff. reflexivity.
  - intros Hon Hoff. unfold Keithley2470.set_output. simpl py_upper.
    rewrite (str_upper_ascii a Ha).
    unfold lift, bind, ret.
    destruct (String.eqb (upper a) "ON") eqn:E1.
    + apply String.eqb_eq in E1. exfalso. apply Hon.
      apply (upper_is_iff a "on"). exact E1.
    + destruct (String.eqb (upper a) "OFF") eqn:E2; [|reflexivity].
      apply String.eqb_eq in E2. exfalso. apply Hoff.
      apply (upper_is_iff a "off"). exact E2.
Qed.

Lemma X17_output_token_case_insensitive_witness :
  let s := State SafeForLGADs (bench true (float_of_Z 30)) false false (AText "")
             1 (NInt 10) (NInt 1) [] [] in
  is_ascii "oFf" = true /\ is_ascii "OFF" = true
  /\ lower "oFf" = lower "OFF"
  /\ set_output 50 (PyStr "oFf") s = set_output 50 (PyStr "OFF") s.
Proof.
  intros s. split; [reflexivity|]. split; [reflexivity|]. split; [reflexivity|].
  exact (proj1 (X17_output_token_case_insensitive 50 "oFf" "OFF" s
                  eq_refl eq_refl eq_refl)).
Defined.

(** ** The exit hook of the base class *)

(** X18.  On a [Keithley2470] object the exit hook does not ramp: from
    an idle driver it sends the level 0 and then the output command, two
    writes and no query, without any pause, whatever the level was.  It
    ends with the level at 0 and the output off. *)
Theorem X18_base_exit_hook_is_abrupt `{Platform} (fuel : nat)
    (s : state instrument) :
  idle s -> klass s = Base ->
  exists s', run_exitfunc fuel _atexit s = Return tt s'
             /\ log s' = [Wr (OUTPUT "OFF"); Wr (SOURCE_VOLT_LEV (NInt 0))] ++ log s
             /\ slept s' = slept s
             /\ volt s' = zero /\ output_on s' = false /\ idle s'.
Proof.
  intros Hi Hk.
  exists (wrote (OUTPUT "OFF") (wrote (SOURCE_VOLT_LEV (NInt 0)) s)).
  assert (Hi1 : idle (wrote (SOURCE_VOLT_LEV (NInt 0)) s))
    by (apply idle_wrote_volt; exact Hi).
  split.
  - unfold run_exitfunc, bind, set_source_voltage. rewrite Hk.
    change (Keithley2470.set_source_voltage (PyInt 0) s)
      with (Return tt (wrote (SOURCE_VOLT_LEV (NInt 0)) s)).
    cbv iota. unfold set_output.
    change (klass (wrote (SOURCE_VOLT_LEV (NInt 0)) s)) with (klass s). rewrite Hk.
    apply base_set_output_off_idle. exact Hi1.
  - destruct s as [k d w r i p sl st reg z]. destruct d as [idn o v il mv mc b lg].
    unfold idle in *. simpl in *. repeat split; tauto.
Qed.

Lemma X18_base_exit_hook_is_abrupt_witness :
  let s := State Base (bench true (float_of_Z 150)) false false (AText "") 0
             (NInt 0) (NInt 0) [_atexit] [] in
  idle s /\ klass s = Base
  /\ exists s', run_exitfunc 3 _atexit s = Return tt s'
                /\ log s' = [Wr (OUTPUT "OFF"); Wr (SOURCE_VOLT_LEV (NInt 0))]
                            ++ log s
                /\ slept s' = slept s
                /\ volt s' = zero /\ output_on s' = false /\ idle s'.
Proof.
  intros s.
  assert (Hi : idle s) by (unfold idle; simpl; repeat split).
  split; [exact Hi|]. split; [reflexivity|].
  exact (X18_base_exit_hook_is_abrupt 3 s Hi eq_refl).
Defined.

(** ** Shutting down without a jump *)

(** What the exit hook, and the end of the constructor, do on a
    [Keithley2470SafeForLGADs] object with the output on. *)
Lemma shutdown_gentle `{Platform} (fuel : nat) (target : float)
    (s : state instrument) :
  idle s -> klass s = SafeForLGADs -> output_on s = true ->
  coerce_polarity (_polarity s) (PyInt 0) = inr target ->
  exists s1, gentle target s s1
             /\ (final (run_exitfunc fuel _atexit s) = s1
                 \/ final (run_exitfunc fuel _atexit s) = wrote (OUTPUT "OFF") s1).
Proof.
  intros Hi Hk Hon Ec.
  pose proof (gentle_set_source_voltage fuel (PyInt 0) target s Hi Hon Ec) as G1.
  unfold run_exitfunc, bind, set_source_voltage. rewrite Hk.
  destruct (Keithley2470SafeForLGADs.set_source_voltage fuel (PyInt 0) s)
    as [[] s1 | e s1 | s1]; simpl in G1;
    [| exists s1; split; [exact G1 | left; reflexivity] ..].
  destruct (gentle_keeps target s s1 G1) as (Hk1 & Ho1 & Hst1 & Hsl1 & Hp1).
  pose proof (gentle_idle target s s1 G1 Hi) as Hi1.
  unfold set_output. rewrite Hk1, Hk.
  rewrite (safe_set_output_off_eq fuel s1 Hi1), Ho1, Hon.
  set (s2 := queried OUTPUT_STATE_q s1).
  assert (G2 : gentle target s s2)
    by (apply (gentle_trans target s s1); [exact G1 | apply gentle_output_query]).
  assert (Hi2 : idle s2) by (apply idle_queried; exact Hi1).
  assert (Hon2 : output_on s2 = true)
    by (unfold s2, output_on in *; simpl; rewrite <- Hon, <- Ho1; reflexivity).
  assert (Ec2 : coerce_polarity (_polarity s2) (PyInt 0) = inr target)
    by (change (_polarity s2) with (_polarity s1); rewrite Hp1; exact Ec).
  pose proof (gentle_set_source_voltage fuel (PyInt 0) target s2 Hi2 Hon2 Ec2)
    as G3.
  assert (G3' : gentle target s1
                  (final (Keithley2470SafeForLGADs.set_source_voltage fuel
                            (PyInt 0) s2))).
  { apply (gentle_trans target s1 s2); [apply gentle_output_query|].
    destruct G3 as (l & z & E & Fl & Hb). exists l, z.
    split; [exact E|]. split; [exact Fl|].
    change (_volt_step s2) with (_volt_step s1) in Hb. exact Hb. }
  assert (G4 : gentle target s
                 (final (Keithley2470SafeForLGADs.set_source_voltage fuel
                           (PyInt 0) s2))).
  { destruct G1 as (l1 & z1 & E1 & F1 & H1).
    destruct G3' as (l2 & z2 & E2 & F2 & H2).
    exists (l2 ++ l1), (z2 ++ z1). rewrite E2, E1.
    split; [apply moved_moved|].
    split; [apply Forall_app; split; assumption|].
    rewrite written_app. apply stepwise_app.
    - rewrite E1 in H2. simpl in H2. exact H2.
    - exact H1. }
  unfold bind.
  destruct (Keithley2470SafeForLGADs.set_source_voltage fuel (PyInt 0) s2)
    as [[] s3 | e s3 | s3]; simpl in G4;
    [| exists s3; split; [exact G4 | left; reflexivity] ..].
  exists s3. split; [exact G4|]. right.
  rewrite (base_set_output_off_idle fuel s3 (gentle_idle _ _ _ G4 Hi)).
  reflexivity.
Qed.

Lemma shutdown_written `{Platform} (fuel : nat) (target : float)
    (s : state instrument) :
  idle s -> klass s = SafeForLGADs -> output_on s = true ->
  coerce_polarity (_polarity s) (PyInt 0) = inr target ->
  exists l,
    (log (final (run_exitfunc fuel _atexit s)) = l ++ log s
     \/ log (final (run_exitfunc fuel _atexit s)) = Wr (OUTPUT "OFF") :: l ++ log s)
    /\ Forall before_off l
    /\ stepwise target (_volt_step s) (written l ++ [volt s]).
Proof.
  intros Hi Hk Hon Ec.
  destruct (shutdown_gentle fuel target s Hi Hk Hon Ec) as (s1 & G & Hf).
  destruct (gentle_log target s s1 G) as (l & El & Fl & Hb & _).
  exists l. split; [|split; assumption].
  destruct Hf as [-> | ->]; [left; exact El|].
  right. unfold log in *. simpl. rewrite El. reflexivity.
Qed.

(** X19.  The exit hook on a [Keithley2470SafeForLGADs] object, run with
    the output on: whatever the level, and however the hook ends
    (returning, failing in a pause or still ramping), all it sends before
    the output command, if it gets to it, are queries and levels, and
    each level is what one iteration of the ramp loop makes of the level
    before it, the first of the level found: the level plus or minus
    [volt_step] while that is further than the step from the target, the
    target itself otherwise. *)
Theorem X19_exit_hook_never_jumps `{Platform} (fuel : nat) (target : float)
    (s : state instrument) :
  idle s -> klass s = SafeForLGADs -> output_on s = true ->
  coerce_polarity (_polarity s) (PyInt 0) = inr target ->
  exists l,
    (log (final (run_exitfunc fuel _atexit s)) = l ++ log s
     \/ log (final (run_exitfunc fuel _atexit s)) = Wr (OUTPUT "OFF") :: l ++ log s)
    /\ Forall before_off l
    /\ stepwise target (_volt_step s) (written l ++ [volt s]).
Proof. exact (shutdown_written fuel target s). Qed.

Lemma X19_exit_hook_never_jumps_witness :
  let s := safe_on (bench true (float_of_Z 7)) 1 (NInt 10) (NFloat (dec 25 (-1))) in
  idle s /\ klass s = SafeForLGADs /\ output_on s = true
  /\ coerce_polarity (_polarity s) (PyInt 0) = inr zero
  /\ written (log (final (run_exitfunc 9 _atexit s)))
     = [zero; zero; dec 2 0; dec 45 (-1)]
  /\ exists l,
      (log (final (run_exitfunc 9 _atexit s)) = l ++ log s
       \/ log (final (run_exitfunc 9 _atexit s)) = Wr (OUTPUT "OFF") :: l ++ log s)
      /\ Forall before_off l
      /\ stepwise zero (_volt_step s) (written l ++ [volt s]).
Proof.
  intros s.
  assert (Hi : idle s) by (apply idle_safe_on; reflexivity).
  assert (Hc : coerce_polarity (_polarity s) (PyInt 0) = inr zero)
    by (vm_compute; reflexivity).
  split; [exact Hi|]. split; [reflexivity|]. split; [reflexivity|].
  split; [exact Hc|]. split; [vm_compute; reflexivity|].
  exact (X19_exit_hook_never_jumps 9 zero s Hi eq_refl eq_refl Hc).
Defined.

(** X20.  [Keithley2470SafeForLGADs(...)] on an honest Keithley 2470
    whose output is on: the constructor's [set_source_voltage(0)] and
    [set_output('off')] are the subclass's, so the level is ramped.
    Whatever the level of the instrument, and however the constructor
    ends, after the identification and the first measurement all it
    sends before the output command are queries and levels, and each
    level is what one iteration of the ramp loop makes of the level
    before it, the first of the level of the instrument. *)
Theorem X20_safe_constructor_never_jumps `{Platform} (fuel : nat)
    (d : instrument) (reg : list exitfunc) (p : string) (slew step : num) :
  dev_outbuf d = [] -> dev_output d = true ->
  contains "KEITHLEY" (dev_idn d) = true ->
  contains "MODEL 2470" (dev_idn d) = true ->
  p = "positive" \/ p = "negative" ->
  let r := Keithley2470SafeForLGADs__init__ fuel (PyStr p) slew step
             (new SafeForLGADs d reg) in
  let target := if String.eqb p "positive" then zero else S754_zero true in
  let seen := [Qy MEASURE_VOLT_q; Qy IDN_q] ++ dev_log d in
  exists l,
    (log (final r) = l ++ seen \/ log (final r) = Wr (OUTPUT "OFF") :: l ++ seen)
    /\ Forall before_off l
    /\ stepwise target step (written l ++ [dev_volt d]).
Proof.
  intros Hb Hon Hk Hm Hp r target seen.
  set (s0 := set_ramp (if String.eqb p "positive" then 1 else -1) slew step
               (new SafeForLGADs d reg)).
  assert (Hi0 : idle s0) by (unfold idle; simpl; auto).
  set (s1 := atexit_register _atexit
               (set_idn (AText (dev_idn (_resource s0))) (queried IDN_q s0))).
  assert (Hi1 : idle s1) by (unfold idle; simpl; auto).
  set (s2 := queried MEASURE_VOLT_q s1).
  assert (Hi2 : idle s2) by (apply idle_queried; exact Hi1).
  assert (Einit : r = run_exitfunc fuel _atexit s2).
  { subst r. unfold Keithley2470SafeForLGADs__init__.
    assert (Hval : negb (String.eqb p "positive" || String.eqb p "negative") = false)
      by (destruct Hp as [-> | ->]; reflexivity).
    rewrite Hval. unfold bind at 1. unfold modify at 1. fold s0.
    rewrite (init_accepts fuel s0 Hi0 Hk Hm). fold s1.
    unfold bind at 1. rewrite (measure_voltage_idle fuel s1 Hi1). fold s2.
    reflexivity. }
  assert (Ec : coerce_polarity (_polarity s2) (PyInt 0) = inr target).
  { subst target. destruct Hp as [-> | ->]; reflexivity. }
  rewrite Einit.
  exact (shutdown_written fuel target s2 Hi2 eq_refl Hon Ec).
Qed.

Lemma X20_safe_constructor_never_jumps_witness :
  let d := bench true (float_of_Z (-40)) in
  let r := Keithley2470SafeForLGADs__init__ 3 (PyStr "negative") (NInt 10)
             (NFloat (dec 25 (-1))) (new SafeForLGADs d []) in
  dev_outbuf d = [] /\ dev_output d = true
  /\ contains "KEITHLEY" (dev_idn d) = true
  /\ contains "MODEL 2470" (dev_idn d) = true
  /\ ("negative" = "positive" \/ "negative" = "negative")
  /\ written (log (final r))
     = [dec (-325) (-1); float_of_Z (-35); dec (-375) (-1)]
  /\ exists l,
      (log (final r) = l ++ [Qy MEASURE_VOLT_q; Qy IDN_q] ++ dev_log d
       \/ log (final r)
          = Wr (OUTPUT "OFF") :: l ++ [Qy MEASURE_VOLT_q; Qy IDN_q] ++ dev_log d)
      /\ Forall before_off l
      /\ stepwise (S754_zero true) (NFloat (dec 25 (-1)))
           (written l ++ [dev_volt d]).
Proof.
  intros d r.
  assert (Hp : "negative" = "positive" \/ "negative" = "negative")
    by (right; reflexivity).
  split; [reflexivity|]. split; [reflexivity|]. split; [reflexivity|].
  split; [reflexivity|]. split; [exact Hp|]. split; [vm_compute; reflexivity|].
  exact (X20_safe_constructor_never_jumps 3 d [] "negative" (NInt 10)
           (NFloat (dec 25 (-1))) eq_refl eq_refl eq_refl eq_refl Hp).
Defined.

(** ** The two flags *)

(** X21.  [write] looks at [_is_writing] only and [read] at [_is_reading]
    only: each goes ahead, without a pause, while the other flag is
    raised, leaves that flag as it found it and its own flag clear.
    [query] looks at both: with either flag raised it waits for as long
    as it is given and sends nothing. *)
Theorem X21_read_and_write_flags_are_separate {R : Type} `{Resource R}
    (fuel : nat) (m : scpi) (s : state R) :
  (_is_writing s = false ->
   exists s', Keithley2470.write fuel m s = Return tt s'
              /\ _resource s' = resource_write m (_resource s)
              /\ _is_writing s' = false /\ _is_reading s' = _is_reading s
              /\ slept s' = slept s)
  /\ (_is_reading s = false ->
      forall (a : answer) (r' : R),
        resource_read (_resource s) = (inr a, r') ->
        exists s', Keithley2470.read fuel s = Return a s'
                   /\ _resource s' = r'
                   /\ _is_reading s' = false /\ _is_writing s' = _is_writing s
                   /\ slept s' = slept s)
  /\ (_is_writing s || _is_reading s = true ->
      exists s', Keithley2470.query fuel m s = Hang s'
                 /\ _resource s' = _resource s).
Proof.
  split; [|split].
  - intros Hw. unfold Keithley2470.write, bind.
    rewrite spin_clear by exact Hw.
    unfold modify, _resource_write, modify. eexists.
    split; [reflexivity|]. repeat split.
  - intros Hr a r' Ha. unfold Keithley2470.read, bind.
    rewrite spin_clear by exact Hr.
    unfold modify, _resource_read, ret. cbn [_resource set_is_reading].
    rewrite Ha. eexists.
    split; [reflexivity|]. repeat split.
  - intros Hb. unfold Keithley2470.query. unfold bind at 1.
    destruct (spin_waits (fun s => _is_writing s || _is_reading s) fuel
                (fun _ _ => eq_refl) s Hb) as (s' & Es & Er).
    exists s'. rewrite Es. split; [reflexivity | exact Er].
Qed.

Lemma X21_read_and_write_flags_are_separate_witness :
  let s := State Base (bench true (float_of_Z 30)) false true (AText "") 0
             (NInt 0) (NInt 0) [] [] in
  _is_writing s = false /\ _is_writing s || _is_reading s = true
  /\ (exists s', Keithley2470.write 0 (OUTPUT "OFF") s = Return tt s'
                 /\ _resource s' = resource_write (OUTPUT "OFF") (_resource s)
                 /\ _is_writing s' = false /\ _is_reading s' = _is_reading s
                 /\ slept s' = slept s)
  /\ (exists s', Keithley2470.query 9 (OUTPUT "OFF") s = Hang s'
                 /\ _resource s' = _resource s).
Proof.
  intros s.
  destruct (X21_read_and_write_flags_are_separate 0 (OUTPUT "OFF") s)
    as (Hw & _ & _).
  destruct (X21_read_and_write_flags_are_separate 9 (OUTPUT "OFF") s)
    as (_ & _ & Hq).
  split; [reflexivity|]. split; [reflexivity|].
  split; [exact (Hw eq_refl) | exact (Hq eq_refl)].
Defined.

(** ** An instrument that does not reach the level *)

Lemma level_query_clamped (c : clamped) :
  dev_outbuf (clamp_dev c) = [] ->
  resource_query SOUR_VOLT_q c
  = (inr (ADec (dev_volt (clamp_dev c))),
     Clamped (clamp_limit c) (dev_record (Qy SOUR_VOLT_q) (clamp_dev c))).
Proof.
  destruct c as [lim d]. destruct d as [idn o v il mv mc b lg]. simpl.
  intros ->. reflexivity.
Qed.

Lemma output_query_clamped (c : clamped) :
  dev_outbuf (clamp_dev c) = [] ->
  resource_query OUTPUT_STATE_q c
  = (inr (AInt (if dev_output (clamp_dev c) then 1 else 0)),
     Clamped (clamp_limit c) (dev_record (Qy OUTPUT_STATE_q) (clamp_dev c))).
Proof.
  destruct c as [lim d]. destruct d as [idn o v il mv mc b lg]. simpl.
  intros ->. reflexivity.
Qed.

Lemma idle_clamped_after_query (s : state clamped) :
  idle_clamped s ->
  idle_clamped (after_query SOUR_VOLT_q s)
  /\ cvolt (after_query SOUR_VOLT_q s) = cvolt s
  /\ clamp_limit (_resource (after_query SOUR_VOLT_q s)) = clamp_limit (_resource s).
Proof.
  intros (Hw & Hr & Hb). unfold after_query, idle_clamped, cvolt.
  rewrite (level_query_clamped _ Hb). simpl. auto.
Qed.

Lemma get_source_voltage_clamped `{Platform} (fuel : nat) (s : state clamped) :
  idle_clamped s ->
  Keithley2470.get_source_voltage fuel s
  = Return (cvolt s) (after_query SOUR_VOLT_q s).
Proof.
  intros (Hw & Hr & Hb).
  rewrite (get_source_voltage_clear fuel s _ _ Hw Hr (level_query_clamped _ Hb)).
  unfold after_query. rewrite (level_query_clamped _ Hb). reflexivity.
Qed.

(** One iteration of the ramp loop on the clamping instrument, far from
    the target. *)
Lemma ramp_S_clamped_far `{Platform} (fuel n : nat) (target w : float)
    (s : state clamped) :
  idle_clamped s ->
  far target (cvolt s) (_volt_step s) = inr true ->
  next_level target (cvolt s) (_volt_step s) = inr w ->
  Keithley2470SafeForLGADs.ramp fuel (S n) target s =
  (Keithley2470SafeForLGADs.ramp_sleep ;;
   Keithley2470SafeForLGADs.ramp fuel n target)
    (after_write (SOURCE_VOLT_LEV (NFloat w))
       (after_query SOUR_VOLT_q
          (after_query SOUR_VOLT_q (after_query SOUR_VOLT_q s)))).
Proof.
  intros Hi Hfar Hnext. cbn [Keithley2470SafeForLGADs.ramp].
  destruct (idle_clamped_after_query s Hi) as (Hi1 & Ev1 & _).
  destruct (idle_clamped_after_query _ Hi1) as (Hi2 & Ev2 & _).
  unfold bind at 1. rewrite (get_source_voltage_clamped fuel s Hi).
  unfold far, ebind in Hfar.
  unfold bind at 1.
  destruct (sq_root_of_square (fsub target (cvolt s))) as [e|gap];
    [discriminate Hfar|].
  unfold lift at 1, ret at 1.
  unfold bind at 1. unfold Keithley2470SafeForLGADs.volt_step at 1, gets at 1.
  change (_volt_step (after_query SOUR_VOLT_q s)) with (_volt_step s).
  injection Hfar as Hfar. rewrite Hfar.
  unfold bind at 1. unfold bind at 1.
  rewrite (get_source_voltage_clamped fuel _ Hi1).
  unfold bind at 1. unfold Keithley2470SafeForLGADs.volt_step at 1, gets at 1.
  rewrite Ev1.
  change (_volt_step (after_query SOUR_VOLT_q (after_query SOUR_VOLT_q s)))
    with (_volt_step s).
  unfold next_level in Hnext.
  destruct (gt_num (fsub target (cvolt s)) (_volt_step s));
    unfold bind at 1; rewrite (get_source_voltage_clamped fuel _ Hi2);
    unfold bind at 1; unfold Keithley2470SafeForLGADs.volt_step at 1, gets at 1;
    rewrite Ev2, Ev1;
    change (_volt_step (after_query SOUR_VOLT_q
              (after_query SOUR_VOLT_q (after_query SOUR_VOLT_q s))))
      with (_volt_step s);
    unfold bind at 1; rewrite Hnext; reflexivity.
Qed.

Lemma ramp_stuck_clamped `{Platform} (n : nat) :
  forall (fuel : nat) (target w : float) (s : state clamped),
    idle_clamped s ->
    far target (cvolt s) (_volt_step s) = inr true ->
    next_level target (cvolt s) (_volt_step s) = inr w ->
    clamp (clamp_limit (_resource s)) w = cvolt s ->
    (exists t, pause (_volt_step s) (_slew_rate s) = inr t) ->
    ~ halts (Keithley2470SafeForLGADs.ramp fuel n target s).
Proof.
  induction n as [|n IH]; intros fuel target w s Hi Hfar Hnext Hclamp [t Hp];
    [intros Hh; exact Hh|].
  rewrite (ramp_S_clamped_far fuel n target w s Hi Hfar Hnext).
  rewrite sleep_then_ramp.
  destruct (idle_clamped_after_query s Hi) as (Hi1 & Ev1 & El1).
  destruct (idle_clamped_after_query _ Hi1) as (Hi2 & Ev2 & El2).
  destruct (idle_clamped_after_query _ Hi2) as (Hi3 & Ev3 & El3).
  set (s3 := after_query SOUR_VOLT_q
               (after_query SOUR_VOLT_q (after_query SOUR_VOLT_q s))) in *.
  set (s4 := after_write (SOURCE_VOLT_LEV (NFloat w)) s3).
  change (_slew_rate s4) with (_slew_rate s).
  change (_volt_step s4) with (_volt_step s).
  rewrite Hp.
  assert (El : clamp_limit (_resource s3) = clamp_limit (_resource s))
    by (rewrite El3, El2, El1; reflexivity).
  assert (Ev4 : cvolt (record_sleep t s4) = cvolt s).
  { change (cvolt (record_sleep t s4))
      with (clamp (clamp_limit (_resource s3)) w).
    rewrite El. exact Hclamp. }
  apply (IH fuel target w).
  - destruct Hi3 as (Hw3 & Hr3 & Hb3). unfold idle_clamped, s4, after_write.
    simpl. auto.
  - rewrite Ev4. exact Hfar.
  - rewrite Ev4. exact Hnext.
  - rewrite Ev4. change (clamp_limit (_resource (record_sleep t s4)))
      with (clamp_limit (_resource s3)). rewrite El. exact Hclamp.
  - exists t. exact Hp.
Qed.

(** X15.  The ramp loop has no bound and does not notice an instrument
    that stops following.  On an instrument that clamps the level at a
    limit, with the output on, the level at the limit and the target
    further than the step beyond it, so that the next level is cut back
    to where the level is, [set_source_voltage] never ends: after any
    number of iterations the loop is still writing and pausing. *)
Theorem X15_clamped_level_never_returns `{Platform} (fuel : nat) (v : pyval)
    (target w : float) (s : state clamped) :
  idle_clamped s ->
  dev_output (clamp_dev (_resource s)) = true ->
  coerce_polarity (_polarity s) v = inr target ->
  far target (cvolt s) (_volt_step s) = inr true ->
  next_level target (cvolt s) (_volt_step s) = inr w ->
  clamp (clamp_limit (_resource s)) w = cvolt s ->
  (exists t, pause (_volt_step s) (_slew_rate s) = inr t) ->
  ~ halts (Keithley2470SafeForLGADs.set_source_voltage fuel v s).
Proof.
  intros Hi Hon Ec Hfar Hnext Hclamp Hp.
  pose proof Hi as (Hw & Hr & Hb).
  unfold Keithley2470SafeForLGADs.set_source_voltage.
  unfold bind at 1. unfold gets at 1. rewrite Ec.
  unfold bind at 1. unfold lift, ret.
  unfold bind at 1.
  rewrite (output_clear fuel s _ _ Hw Hr (output_query_clamped _ Hb)).
  rewrite Hon. simpl py_int. cbv iota.
  change (String.eqb "on" "off") with false. cbv iota.
  apply (ramp_stuck_clamped fuel fuel target w); assumption.
Qed.

Lemma X15_clamped_level_never_returns_witness :
  let s := State SafeForLGADs (Clamped (float_of_Z 100) (bench true (float_of_Z (-100))))
             false false (AText "") (-1) (NInt 10) (NFloat (dec 25 (-1))) [] [] in
  idle_clamped s
  /\ dev_output (clamp_dev (_resource s)) = true
  /\ coerce_polarity (_polarity s) (PyInt 200) = inr (float_of_Z (-200))
  /\ far (float_of_Z (-200)) (cvolt s) (_volt_step s) = inr true
  /\ next_level (float_of_Z (-200)) (cvolt s) (_volt_step s) = inr (dec (-1025) (-1))
  /\ clamp (clamp_limit (_resource s)) (dec (-1025) (-1)) = cvolt s
  /\ (exists t, pause (_volt_step s) (_slew_rate s) = inr t)
  /\ ~ halts (Keithley2470SafeForLGADs.set_source_voltage 500 (PyInt 200) s).
Proof.
  intros s.
  assert (Hi : idle_clamped s) by (unfold idle_clamped; simpl; auto).
  assert (Hc : coerce_polarity (_polarity s) (PyInt 200) = inr (float_of_Z (-200)))
    by (vm_compute; reflexivity).
  assert (Hfar : far (float_of_Z (-200)) (cvolt s) (_volt_step s) = inr true)
    by (vm_compute; reflexivity).
  assert (Hn : next_level (float_of_Z (-200)) (cvolt s) (_volt_step s)
               = inr (dec (-1025) (-1))) by (vm_compute; reflexivity).
  assert (Hcl : clamp (clamp_limit (_resource s)) (dec (-1025) (-1)) = cvolt s)
    by (vm_compute; reflexivity).
  assert (Hp : exists t, pause (_volt_step s) (_slew_rate s) = inr t)
    by (exists (dec 25 (-2)); vm_compute; reflexivity).
  split; [exact Hi|]. split; [reflexivity|]. split; [exact Hc|].
  split; [exact Hfar|]. split; [exact Hn|]. split; [exact Hcl|].
  split; [exact Hp|].
  exact (X15_clamped_level_never_returns 500 (PyInt 200) (float_of_Z (-200))
           (dec (-1025) (-1)) s Hi eq_refl Hc Hfar Hn Hcl Hp).
Defined.
